(** * MediaManager: a shallow embedding of src/main/webapp/js/media_manager.js

    The class keeps one Local Stream, swaps its tracks through the
    transport's senders, builds the audio gain graph, renders the
    screen+camera canvas and runs the recurring timers.  The embedding
    follows the source method by method.

    - A JS object with identity (a MediaStream, a track, a gain node, a
      sender, a timer) is a number; the mutable part of each lives in a
      finite map or a finite set of the [World].
    - A method is a computation in the monad [M]: it reads and writes the
      [World], may throw a [JsError] (the writes made before the throw
      stay, as in JS) and appends the platform-visible actions it takes to
      a log of [Event]s.
    - JS numbers are binary64 floats ([PrimFloat.float]).
    - [await] of a platform promise takes the outcome the environment
      [Env] gives for that request.  An [async] method is the run of its
      body to the end.  A call whose promise the source drops is run by
      [detach]: at the call site, to the end, the result dropped and a
      rejection logged as [EvUnhandledRejection] instead of thrown.  The
      one exception is the dropped call of [getDevices] in
      [getUserMedia]: its very first statement awaits the platform, so it
      is logged as a started task ([EvGetDevicesStarted]) and [getDevices]
      is an entry point of its own.
    - The limits of [detach].  The source runs a dropped call at the call
      site only up to its first [await]; the rest runs later, once the
      caller has itself reached an [await] or has returned.  (A dropped
      call that reaches no [await], such as [updateVideoTrack] without a
      sender, runs to its end at the call site in the source too.)  So
      the outcome of a method that drops a call is, in this embedding,
      the state and the log once the dropped call has settled, with two
      differences from the source: the events of the dropped call that
      come after its first [await] are logged at the call site, so they
      may stand before events of the caller that happen earlier; and
      where the caller goes on to write what the dropped call writes too
      (the Local Stream in [prepareStreamTracks], which calls [gotStream]
      after the dropped [updateVideoTrack] or
      [setDesktopWithCameraSource]), the embedding ends with the caller's
      write, while in the source the write made last may be the dropped
      call's. *)

From Stdlib Require Import Floats ZArith Uint63.
From stdpp Require Import gmap list strings.

Set Default Proof Using "Type".
Set Warnings "-clear-no-such-hyp,-inexact-float".

(** ** Values *)

Inductive Kind := Audio | Video.

#[global] Instance Kind_eq_dec : EqDecision Kind.
Proof. solve_decision. Defined.

(** A MediaStreamTrack: its kind never changes, so it is part of the
    reference; [tid] is the object's identity. *)
Record Track := MkTrack { tkind : Kind; tid : nat }.

#[global] Instance Track_eq_dec : EqDecision Track.
Proof. solve_decision. Defined.

Abbreviation StreamRef := nat (only parsing).
Abbreviation GainRef := nat (only parsing).
Abbreviation SenderRef := nat (only parsing).
Abbreviation TimerId := nat (only parsing).

(** The [streamId] argument of the public methods. *)
Inductive JsId := IdUndefined | IdNull | IdStr (s : string).

(** [deviceId: 'x'] (audio) and [deviceId: { exact: 'x' }] (video). *)
Inductive DeviceSel := DevPlain (d : string) | DevExact (d : string).

Record ConstraintObj := MkCObj {
  c_deviceId : option DeviceSel;
  c_facingMode : option string
}.

(** One entry of a constraints object: absent, a boolean, or an object. *)
Inductive Constraint := CUndefined | CBool (b : bool) | CObj (o : ConstraintObj).

Record MediaConstraints := MkMC { mc_video : Constraint; mc_audio : Constraint }.

Definition truthy (c : Constraint) : bool :=
  match c with
  | CUndefined => false
  | CBool b => b
  | CObj _ => true
  end.

Inductive PublishMode := PMCamera | PMScreen | PMScreenCamera | PMOther.

(** [AMOff] stands for every falsy value of [this.audioMode], [AMOther]
    for every other value that is none of the three names. *)
Inductive AudioMode := AMOff | AMMicrophone | AMSystem | AMSystemMicrophone | AMOther.

Inductive JsError :=
| TypeError (what : string)
| ReferenceError (ident : string)
| DOMException (name : string).

Definition error_name (e : JsError) : string :=
  match e with
  | TypeError _ => "TypeError"
  | ReferenceError _ => "ReferenceError"
  | DOMException n => n
  end.

(** What is stored in a track's [onended]: the closure of
    [prepareStreamTracks], or the constraints object that
    [setAudioInputSource] and [setVideoCameraSource] pass in the callback's
    position. *)
Inductive Handler := HScreenShareStopped | HConstraints (mc : MediaConstraints).

Inductive DeviceKind := AudioInput | VideoInput | AudioOutput.

Record Device := MkDevice { dev_kind : DeviceKind; dev_id : string }.

(** The body of a [setInterval] callback. *)
Inductive Task :=
| TaskDraw (canvas : StreamRef) (screen : option StreamRef) (camera : StreamRef)
| TaskBlackFrame
| TaskSoundLevel
| TaskMeterRefresh.

Record Timer := MkTimer { t_task : Task; t_period : nat }.

Record GainNode := MkGain { gain_value : float; gain_input : StreamRef }.

Inductive Event :=
| EvStop (t : Track)
| EvAddTrack (s : StreamRef) (t : Track)
| EvRemoveTrack (s : StreamRef) (t : Track)
| EvGetUserMedia (mc : MediaConstraints)
| EvGetDisplayMedia (mc : MediaConstraints)
| EvEnumerateDevices
| EvReplaceTrack (sender : SenderRef) (t : option Track)
| EvCallback (name : string)
| EvCallbackError (name : string)
| EvAlert (msg : string)
| EvSetInterval (id : TimerId) (t : Timer)
| EvClearInterval (id : TimerId)
| EvFillRect
| EvDrawImage (canvas : StreamRef) (src : option StreamRef) (x y w h : float)
| EvSoundMeterConnect (s : option StreamRef)
| EvLevel
| EvCheckPermissions
| EvListenDeviceChange
| EvGetDevicesStarted
| EvUnhandledRejection (e : JsError).

(** ** The instance and the platform state *)

Record Settings := MkSettings {
  camera_location : string;
  camera_margin : float;
  camera_percent : float;
  mediaConstraints : option MediaConstraints;
  publishStreamId : JsId;
  publishMode : PublishMode;
  audioMode : AudioMode;
  (* read by the class, written only through userParameters *)
  devices : option StreamRef;
  videoTrack : option Track;
  audioTrack : option Track;
  inputDeviceNotFoundLimit : option nat
}.

Record StreamState := MkStreamState {
  localStream : option StreamRef;
  tempTracks : list Track;
  desktopStream : option StreamRef;
  smallVideoTrack : option Track;
  previousAudioTrack : option Track;
  replacementStream : option StreamRef;
  (* [None]: no element; [Some src]: the element and its srcObject *)
  localVideo : option (option StreamRef)
}.

Record AudioGraph := MkAudioGraph {
  currentVolume : option float;
  primaryAudioTrackGainNode : option GainRef;
  secondaryAudioTrackGainNode : option GainRef
}.

Record Flags := MkFlags {
  isMuted : bool;
  cameraEnabled : bool;
  initialized : bool;
  blackFrameTimer : option TimerId;
  meterRefresh : option TimerId;
  (* [None] is the source's -1 *)
  soundLevelProviderId : option TimerId;
  localStreamSoundMeter : bool;
  mutedAudioStream : option StreamRef
}.

Record Manager := MkManager {
  settings : Settings;
  sstate : StreamState;
  graph : AudioGraph;
  flags : Flags
}.

Record World := MkWorld {
  this : Manager;
  streams : gmap nat (list Track);
  ended : gset nat;
  disabled : gset nat;
  onended : gmap nat Handler;
  gains : gmap nat GainNode;
  timers : gmap nat Timer;
  bound : gmap nat (option Track);
  next_id : nat;
  next_timer : nat;
  clock : nat
}.

(** What the platform answers to an acquisition request. *)
Inductive Acquired := Granted (kinds : list Kind) | Refused (e : JsError).

(** Everything the class takes from outside.  The requests are numbered
    by [clock], so the same request can be answered differently later. *)
Record Env := MkEnv {
  getSender : JsId -> Kind -> option SenderRef;
  replaceTrack_result : nat -> SenderRef -> option Track -> option JsError;
  userMedia : nat -> MediaConstraints -> Acquired;
  displayMedia : nat -> MediaConstraints -> Acquired;
  enumerateDevices : nat -> list Device + JsError;
  (* does callbackError(name) return false? *)
  callbackError_false : string -> bool;
  screenShareSupported : bool;
  localVideoElement : bool;
  soundMeter_fails : bool;
  speaking : bool;
  webSocket : bool;
  (* navigator.mediaDevices: [None] undefined, [Some false] null *)
  mediaDevices : option bool;
  (* videoWidth and videoHeight of a video element playing the stream *)
  videoWidth : StreamRef -> N;
  videoHeight : StreamRef -> N;
  (* the free identifiers [deviceStream] and [streamId]: a global of the
     page, or none *)
  window_deviceStream : option StreamRef;
  window_streamId : option JsId
}.

(** ** Field updates *)

Definition set_mediaConstraints (v : option MediaConstraints) (s : Settings) : Settings :=
  MkSettings (camera_location s) (camera_margin s) (camera_percent s) v
    (publishStreamId s) (publishMode s) (audioMode s) (devices s)
    (videoTrack s) (audioTrack s) (inputDeviceNotFoundLimit s).

Definition set_publishMode (v : PublishMode) (s : Settings) : Settings :=
  MkSettings (camera_location s) (camera_margin s) (camera_percent s)
    (mediaConstraints s) (publishStreamId s) v (audioMode s) (devices s)
    (videoTrack s) (audioTrack s) (inputDeviceNotFoundLimit s).

Definition set_inputDeviceNotFoundLimit (v : option nat) (s : Settings) : Settings :=
  MkSettings (camera_location s) (camera_margin s) (camera_percent s)
    (mediaConstraints s) (publishStreamId s) (publishMode s) (audioMode s)
    (devices s) (videoTrack s) (audioTrack s) v.

Definition set_localStream (v : option StreamRef) (s : StreamState) : StreamState :=
  MkStreamState v (tempTracks s) (desktopStream s) (smallVideoTrack s)
    (previousAudioTrack s) (replacementStream s) (localVideo s).

Definition set_tempTracks (v : list Track) (s : StreamState) : StreamState :=
  MkStreamState (localStream s) v (desktopStream s) (smallVideoTrack s)
    (previousAudioTrack s) (replacementStream s) (localVideo s).

Definition set_desktopStream (v : option StreamRef) (s : StreamState) : StreamState :=
  MkStreamState (localStream s) (tempTracks s) v (smallVideoTrack s)
    (previousAudioTrack s) (replacementStream s) (localVideo s).

Definition set_smallVideoTrack (v : option Track) (s : StreamState) : StreamState :=
  MkStreamState (localStream s) (tempTracks s) (desktopStream s) v
    (previousAudioTrack s) (replacementStream s) (localVideo s).

Definition set_previousAudioTrack (v : option Track) (s : StreamState) : StreamState :=
  MkStreamState (localStream s) (tempTracks s) (desktopStream s)
    (smallVideoTrack s) v (replacementStream s) (localVideo s).

Definition set_replacementStream (v : option StreamRef) (s : StreamState) : StreamState :=
  MkStreamState (localStream s) (tempTracks s) (desktopStream s)
    (smallVideoTrack s) (previousAudioTrack s) v (localVideo s).

Definition set_localVideo (v : option (option StreamRef)) (s : StreamState) : StreamState :=
  MkStreamState (localStream s) (tempTracks s) (desktopStream s)
    (smallVideoTrack s) (previousAudioTrack s) (replacementStream s) v.

Definition set_currentVolume (v : option float) (g : AudioGraph) : AudioGraph :=
  MkAudioGraph v (primaryAudioTrackGainNode g) (secondaryAudioTrackGainNode g).

Definition set_primaryAudioTrackGainNode (v : option GainRef) (g : AudioGraph) : AudioGraph :=
  MkAudioGraph (currentVolume g) v (secondaryAudioTrackGainNode g).

Definition set_secondaryAudioTrackGainNode (v : option GainRef) (g : AudioGraph) : AudioGraph :=
  MkAudioGraph (currentVolume g) (primaryAudioTrackGainNode g) v.

Definition set_isMuted (v : bool) (f : Flags) : Flags :=
  MkFlags v (cameraEnabled f) (initialized f) (blackFrameTimer f)
    (meterRefresh f) (soundLevelProviderId f) (localStreamSoundMeter f)
    (mutedAudioStream f).

Definition set_cameraEnabled (v : bool) (f : Flags) : Flags :=
  MkFlags (isMuted f) v (initialized f) (blackFrameTimer f)
    (meterRefresh f) (soundLevelProviderId f) (localStreamSoundMeter f)
    (mutedAudioStream f).

Definition set_initialized (v : bool) (f : Flags) : Flags :=
  MkFlags (isMuted f) (cameraEnabled f) v (blackFrameTimer f)
    (meterRefresh f) (soundLevelProviderId f) (localStreamSoundMeter f)
    (mutedAudioStream f).

Definition set_blackFrameTimer (v : option TimerId) (f : Flags) : Flags :=
  MkFlags (isMuted f) (cameraEnabled f) (initialized f) v
    (meterRefresh f) (soundLevelProviderId f) (localStreamSoundMeter f)
    (mutedAudioStream f).

Definition set_meterRefresh (v : option TimerId) (f : Flags) : Flags :=
  MkFlags (isMuted f) (cameraEnabled f) (initialized f) (blackFrameTimer f)
    v (soundLevelProviderId f) (localStreamSoundMeter f) (mutedAudioStream f).

Definition set_soundLevelProviderId (v : option TimerId) (f : Flags) : Flags :=
  MkFlags (isMuted f) (cameraEnabled f) (initialized f) (blackFrameTimer f)
    (meterRefresh f) v (localStreamSoundMeter f) (mutedAudioStream f).

Definition set_localStreamSoundMeter (v : bool) (f : Flags) : Flags :=
  MkFlags (isMuted f) (cameraEnabled f) (initialized f) (blackFrameTimer f)
    (meterRefresh f) (soundLevelProviderId f) v (mutedAudioStream f).

Definition set_mutedAudioStream (v : option StreamRef) (f : Flags) : Flags :=
  MkFlags (isMuted f) (cameraEnabled f) (initialized f) (blackFrameTimer f)
    (meterRefresh f) (soundLevelProviderId f) (localStreamSoundMeter f) v.

Definition on_settings (f : Settings -> Settings) (m : Manager) : Manager :=
  MkManager (f (settings m)) (sstate m) (graph m) (flags m).

Definition on_sstate (f : StreamState -> StreamState) (m : Manager) : Manager :=
  MkManager (settings m) (f (sstate m)) (graph m) (flags m).

Definition on_graph (f : AudioGraph -> AudioGraph) (m : Manager) : Manager :=
  MkManager (settings m) (sstate m) (f (graph m)) (flags m).

Definition on_flags (f : Flags -> Flags) (m : Manager) : Manager :=
  MkManager (settings m) (sstate m) (graph m) (f (flags m)).

Definition on_this (f : Manager -> Manager) (w : World) : World :=
  MkWorld (f (this w)) (streams w) (ended w) (disabled w) (onended w)
    (gains w) (timers w) (bound w) (next_id w) (next_timer w) (clock w).

Definition on_streams (f : gmap nat (list Track) -> gmap nat (list Track)) (w : World) : World :=
  MkWorld (this w) (f (streams w)) (ended w) (disabled w) (onended w)
    (gains w) (timers w) (bound w) (next_id w) (next_timer w) (clock w).

Definition on_ended (f : gset nat -> gset nat) (w : World) : World :=
  MkWorld (this w) (streams w) (f (ended w)) (disabled w) (onended w)
    (gains w) (timers w) (bound w) (next_id w) (next_timer w) (clock w).

Definition on_disabled (f : gset nat -> gset nat) (w : World) : World :=
  MkWorld (this w) (streams w) (ended w) (f (disabled w)) (onended w)
    (gains w) (timers w) (bound w) (next_id w) (next_timer w) (clock w).

Definition on_onended (f : gmap nat Handler -> gmap nat Handler) (w : World) : World :=
  MkWorld (this w) (streams w) (ended w) (disabled w) (f (onended w))
    (gains w) (timers w) (bound w) (next_id w) (next_timer w) (clock w).

Definition on_gains (f : gmap nat GainNode -> gmap nat GainNode) (w : World) : World :=
  MkWorld (this w) (streams w) (ended w) (disabled w) (onended w)
    (f (gains w)) (timers w) (bound w) (next_id w) (next_timer w) (clock w).

Definition on_timers (f : gmap nat Timer -> gmap nat Timer) (w : World) : World :=
  MkWorld (this w) (streams w) (ended w) (disabled w) (onended w)
    (gains w) (f (timers w)) (bound w) (next_id w) (next_timer w) (clock w).

Definition on_bound (f : gmap nat (option Track) -> gmap nat (option Track)) (w : World) : World :=
  MkWorld (this w) (streams w) (ended w) (disabled w) (onended w)
    (gains w) (timers w) (f (bound w)) (next_id w) (next_timer w) (clock w).

Definition bump_id (w : World) : World :=
  MkWorld (this w) (streams w) (ended w) (disabled w) (onended w)
    (gains w) (timers w) (bound w) (S (next_id w)) (next_timer w) (clock w).

Definition bump_timer (w : World) : World :=
  MkWorld (this w) (streams w) (ended w) (disabled w) (onended w)
    (gains w) (timers w) (bound w) (next_id w) (S (next_timer w)) (clock w).

Definition bump_clock (w : World) : World :=
  MkWorld (this w) (streams w) (ended w) (disabled w) (onended w)
    (gains w) (timers w) (bound w) (next_id w) (next_timer w) (S (clock w)).

(** Shorthands for the fields of [this]. *)
Abbreviation cfg w := (settings (this w)).
Abbreviation ss w := (sstate (this w)).
Abbreviation ag w := (graph (this w)).
Abbreviation fl w := (flags (this w)).

(** ** The monad *)

Inductive Res (A : Type) :=
| Ok (a : A)
| Thrown (e : JsError)
| OutOfFuel.
Arguments Ok {A} a.
Arguments Thrown {A} e.
Arguments OutOfFuel {A}.

Record Out (A : Type) := MkOut { res : Res A; st : World; log : list Event }.
Arguments MkOut {A} res st log.
Arguments res {A} o.
Arguments st {A} o.
Arguments log {A} o.

Definition M (A : Type) : Type := World -> Out A.

Definition ret {A} (a : A) : M A := fun w => MkOut (Ok a) w [].

(** [o], with the events [l] in front of its own. *)
Definition prepend {A} (l : list Event) (o : Out A) : Out A :=
  MkOut (res o) (st o) (l ++ log o).

Definition bind {A B} (m : M A) (k : A -> M B) : M B :=
  fun w =>
    let o := m w in
    match res o with
    | Ok a => prepend (log o) (k a (st o))
    | Thrown e => MkOut (Thrown e) (st o) (log o)
    | OutOfFuel => MkOut OutOfFuel (st o) (log o)
    end.

#[global] Instance M_ret : MRet M := @ret.
#[global] Instance M_bind : MBind M := fun A B k m => bind m k.

Definition throw {A} (e : JsError) : M A := fun w => MkOut (Thrown e) w [].
Definition out_of_fuel {A} : M A := fun w => MkOut OutOfFuel w [].
Definition gets {A} (f : World -> A) : M A := fun w => MkOut (Ok (f w)) w [].
Definition modify (f : World -> World) : M unit := fun w => MkOut (Ok tt) (f w) [].
Definition emit (e : Event) : M unit := fun w => MkOut (Ok tt) w [e].

(** [try { m } catch (e) { h e }] *)
Definition try_catch {A} (m : M A) (h : JsError -> M A) : M A :=
  fun w =>
    let o := m w in
    match res o with
    | Thrown e => prepend (log o) (h e (st o))
    | _ => o
    end.

(** A call whose promise is dropped. *)
Definition detach {A} (m : M A) : M unit :=
  try_catch (_ ← m; mret tt) (fun e => emit (EvUnhandledRejection e)).

Definition when (b : bool) (m : M unit) : M unit := if b then m else mret tt.

Fixpoint for_each {A} (l : list A) (f : A -> M unit) : M unit :=
  match l with
  | [] => mret tt
  | x :: l' => f x;; for_each l' f
  end.

(** Reading a property of [undefined] or [null]. *)
Definition require {A} (what : string) (o : option A) : M A :=
  match o with
  | Some a => mret a
  | None => throw (TypeError what)
  end.

(** ** Streams, tracks, nodes and timers *)

Definition tracksOf (w : World) (s : StreamRef) : list Track :=
  default [] (streams w !! s).

Definition is_kind (k : Kind) (t : Track) : bool := bool_decide (tkind t = k).

Definition audioTracksOf (w : World) (s : StreamRef) : list Track :=
  filter (fun t => is_kind Audio t = true) (tracksOf w s).

Definition videoTracksOf (w : World) (s : StreamRef) : list Track :=
  filter (fun t => is_kind Video t = true) (tracksOf w s).

Definition getAudioTracks (s : StreamRef) : M (list Track) :=
  gets (fun w => audioTracksOf w s).

Definition getVideoTracks (s : StreamRef) : M (list Track) :=
  gets (fun w => videoTracksOf w s).

(** [stream.addTrack(t)]: nothing changes when the track is already in
    the stream; [addTrack(undefined)] is a TypeError. *)
Definition addTrack (s : StreamRef) (ot : option Track) : M unit :=
  t ← require "addTrack: not a MediaStreamTrack" ot;
  emit (EvAddTrack s t);;
  modify (fun w =>
    if bool_decide (t ∈ tracksOf w s) then w
    else on_streams <[s := tracksOf w s ++ [t]]> w).

Definition removeTrack (s : StreamRef) (t : Track) : M unit :=
  emit (EvRemoveTrack s t);;
  modify (fun w =>
    on_streams <[s := filter (fun t' => t' ≠ t) (tracksOf w s)]> w).

Definition stop (t : Track) : M unit :=
  emit (EvStop t);;
  modify (on_ended (fun e => {[tid t]} ∪ e)).

Definition setEnabled (b : bool) (t : Track) : M unit :=
  modify (on_disabled (fun d => if b then d ∖ {[tid t]} else {[tid t]} ∪ d)).

Definition setOnended (t : Track) (h : option Handler) : M unit :=
  modify (on_onended (fun m =>
    match h with Some x => <[tid t := x]> m | None => delete (tid t) m end)).

Definition newTrack (k : Kind) : M Track :=
  n ← gets next_id;
  modify bump_id;;
  mret (MkTrack k n).

Fixpoint newTracks (ks : list Kind) : M (list Track) :=
  match ks with
  | [] => mret []
  | k :: ks' => t ← newTrack k; ts ← newTracks ks'; mret (t :: ts)
  end.

Definition newStream (ts : list Track) : M StreamRef :=
  n ← gets next_id;
  modify bump_id;;
  modify (on_streams <[n := ts]>);;
  mret n.

(** [audioContext.createGain()]: a node at unity gain. *)
Definition createGain (input : StreamRef) : M GainRef :=
  n ← gets next_id;
  modify bump_id;;
  modify (on_gains <[n := MkGain 1 input]>);;
  mret n.

Definition setGain (g : GainRef) (v : float) : M unit :=
  modify (on_gains (fun m =>
    match m !! g with
    | Some n => <[g := MkGain v (gain_input n)]> m
    | None => m
    end)).

Definition setInterval (t : Task) (period : nat) : M TimerId :=
  n ← gets next_timer;
  modify bump_timer;;
  modify (on_timers <[n := MkTimer t period]>);;
  emit (EvSetInterval n (MkTimer t period));;
  mret n.

Definition clearInterval (id : TimerId) : M unit :=
  emit (EvClearInterval id);;
  modify (on_timers (delete id)).

Definition update_settings (f : Settings -> Settings) : M unit :=
  modify (on_this (on_settings f)).
Definition update_sstate (f : StreamState -> StreamState) : M unit :=
  modify (on_this (on_sstate f)).
Definition update_graph (f : AudioGraph -> AudioGraph) : M unit :=
  modify (on_this (on_graph f)).
Definition update_flags (f : Flags -> Flags) : M unit :=
  modify (on_this (on_flags f)).

(** An unsigned long read as a JS number. *)
Definition num (n : N) : float := PrimFloat.of_uint63 (Uint63.of_Z (Z.of_N n)).

(** Where the camera overlay goes (the arithmetic of the draw callback in
    [setDesktopWithCameraSource]). *)
Record Overlay := MkOverlay {
  cameraWidth : float;
  cameraHeight : float;
  positionX : float;
  positionY : float
}.

Definition overlay (s : Settings) (screenW screenH camW camH : N) : Overlay :=
  let canvas_width := num screenW in
  let canvas_height := num screenH in
  let cameraWidth := (num screenW * (camera_percent s / 100))%float in
  let cameraHeight := ((num camH / num camW) * cameraWidth)%float in
  let positionX := (canvas_width - cameraWidth - camera_margin s)%float in
  let positionY :=
    if String.eqb (camera_location s) "top" then camera_margin s
    else (canvas_height - cameraHeight - camera_margin s)%float in
  MkOverlay cameraWidth cameraHeight positionX positionY.

(** ** The methods of MediaManager *)

Section Methods.
Context (E : Env).

Definition callback (name : string) : M unit := emit (EvCallback name).

(** [this.callbackError(name)]; the result says whether it returned
    [false]. *)
Definition callbackError (name : string) : M bool :=
  emit (EvCallbackError name);;
  mret (callbackError_false E name).

Definition navigator_getUserMedia (mc : MediaConstraints) : M StreamRef :=
  emit (EvGetUserMedia mc);;
  n ← gets clock;
  modify bump_clock;;
  match userMedia E n mc with
  | Granted ks => ts ← newTracks ks; newStream ts
  | Refused e => throw e
  end.

Definition navigator_getDisplayMedia (mc : MediaConstraints) : M StreamRef :=
  emit (EvGetDisplayMedia mc);;
  n ← gets clock;
  modify bump_clock;;
  match displayMedia E n mc with
  | Granted ks => ts ← newTracks ks; newStream ts
  | Refused e => throw e
  end.

Definition navigator_enumerateDevices : M (list Device) :=
  emit EvEnumerateDevices;;
  n ← gets clock;
  modify bump_clock;;
  match enumerateDevices E n with
  | inl ds => mret ds
  | inr e => throw e
  end.

(** [sender.replaceTrack(t)] *)
Definition replaceTrack (sender : SenderRef) (t : option Track) : M unit :=
  emit (EvReplaceTrack sender t);;
  n ← gets clock;
  modify bump_clock;;
  match replaceTrack_result E n sender t with
  | Some e => throw e
  | None => modify (on_bound <[sender := t]>)
  end.

Definition getMediaConstraints : M MediaConstraints :=
  omc ← gets (fun w => mediaConstraints (cfg w));
  am ← gets (fun w => audioMode (cfg w));
  let copy := default (MkMC CUndefined CUndefined) omc in
  match am with
  | AMOff => mret (MkMC (mc_video copy) (CBool false))
  | _ => mret copy
  end.

Definition gotStream (stream : option StreamRef) : M unit :=
  update_sstate (set_localStream stream);;
  lv ← gets (fun w => localVideo (ss w));
  match lv with
  | Some _ => update_sstate (set_localVideo (Some stream))
  | None => mret tt
  end.

Definition muteLocalMic : M unit :=
  update_flags (set_isMuted true);;
  ls ← gets (fun w => localStream (ss w));
  match ls with
  | Some l => ts ← getAudioTracks l; for_each ts (setEnabled false)
  | None => callbackError "NoActiveConnection";; mret tt
  end.

Definition unmuteLocalMic : M unit :=
  update_flags (set_isMuted false);;
  ls ← gets (fun w => localStream (ss w));
  match ls with
  | Some l => ts ← getAudioTracks l; for_each ts (setEnabled true)
  | None => callbackError "NoActiveConnection";; mret tt
  end.

(** [connectToSource] reports to the callback it is given, and the
    callback of [connectSoundMeterToLocalStream] alerts the error it is
    handed, if any. *)
Definition connectSoundMeterToLocalStream : M unit :=
  m ← gets (fun w => localStreamSoundMeter (fl w));
  if m : bool then
    ls ← gets (fun w => localStream (ss w));
    emit (EvSoundMeterConnect ls);;
    if soundMeter_fails E then emit (EvAlert "soundmeter") else mret tt
  else throw (TypeError "this.localStreamSoundMeter is null").

(** [this.localVideo.srcObject = this.localStream], when the element
    exists. *)
Definition refreshLocalVideo : M unit :=
  lv ← gets (fun w => localVideo (ss w));
  match lv with
  | Some _ =>
      ls ← gets (fun w => localStream (ss w));
      update_sstate (set_localVideo (Some ls))
  | None => mret tt
  end.

Definition updateLocalAudioStream (stream : option StreamRef)
    (onEndedCallback : option Handler) : M unit :=
  s ← require "stream.getAudioTracks" stream;
  news ← getAudioTracks s;
  let newAudioTrack := head news in
  ls ← gets (fun w => localStream (ss w));
  match ls with
  | Some l =>
      olds ← getAudioTracks l;
      let audioTrack := head olds in
      match audioTrack, newAudioTrack with
      | Some a, Some n =>
          h ← gets (fun w => onended w !! tid a);
          setOnended n h
      | _, _ => mret tt
      end;;
      match audioTrack with
      | Some a =>
          if bool_decide (Some a ≠ newAudioTrack) then
            update_sstate (fun x => set_tempTracks (tempTracks x ++ [a]) x);;
            removeTrack l a;;
            match newAudioTrack with
            | Some n => addTrack l (Some n)
            | None => mret tt
            end
          else
            match newAudioTrack with
            | Some n => addTrack l (Some n)
            | None => mret tt
            end
      | None =>
          match newAudioTrack with
          | Some n => addTrack l (Some n)
          | None => mret tt
          end
      end
  | None => update_sstate (set_localStream stream)
  end;;
  refreshLocalVideo;;
  match onEndedCallback with
  | Some h =>
      ts ← getAudioTracks s;
      t ← require "stream.getAudioTracks()[0].onended" (head ts);
      setOnended t (Some h)
  | None => mret tt
  end;;
  muted ← gets (fun w => isMuted (fl w));
  (if muted : bool then muteLocalMic else unmuteLocalMic);;
  m ← gets (fun w => localStreamSoundMeter (fl w));
  when m connectSoundMeterToLocalStream.

Definition updateLocalVideoStream (stream : option StreamRef)
    (onEndedCallback : option Handler) (stopDesktop : bool) : M unit :=
  ds ← gets (fun w => desktopStream (ss w));
  match stopDesktop, ds with
  | true, Some d =>
      ts ← getVideoTracks d;
      t ← require "desktopStream.getVideoTracks()[0].stop" (head ts);
      stop t
  | _, _ => mret tt
  end;;
  s ← require "stream.getVideoTracks" stream;
  news ← getVideoTracks s;
  let newVideoTrack := head news in
  ls ← gets (fun w => localStream (ss w));
  match ls with
  | Some l =>
      olds ← getVideoTracks l;
      match head olds with
      | Some v =>
          removeTrack l v;;
          stop v;;
          addTrack l newVideoTrack
      | None => addTrack l newVideoTrack
      end
  | None => update_sstate (set_localStream stream)
  end;;
  refreshLocalVideo;;
  match onEndedCallback with
  | Some h =>
      ts ← getVideoTracks s;
      t ← require "stream.getVideoTracks()[0].onended" (head ts);
      setOnended t (Some h)
  | None => mret tt
  end.

Definition updateAudioTrack (stream : option StreamRef) (streamId : JsId)
    (onEndedCallback : option Handler) : M unit :=
  match getSender E streamId Audio with
  | Some audioTrackSender =>
      s ← require "stream.getAudioTracks" stream;
      ts ← getAudioTracks s;
      replaceTrack audioTrackSender (head ts);;
      updateLocalAudioStream stream onEndedCallback
  | None => updateLocalAudioStream stream onEndedCallback
  end.

Definition updateVideoTrack (stream : option StreamRef) (streamId : JsId)
    (onEndedCallback : option Handler) (stopDesktop : bool) : M unit :=
  match getSender E streamId Video with
  | Some videoTrackSender =>
      s ← require "stream.getVideoTracks" stream;
      ts ← getVideoTracks s;
      replaceTrack videoTrackSender (head ts);;
      updateLocalVideoStream stream onEndedCallback stopDesktop
  | None => updateLocalVideoStream stream onEndedCallback stopDesktop
  end.

(** [canvas.captureStream()]: a new stream with one video track. *)
Definition captureStream : M StreamRef :=
  t ← newTrack Video;
  newStream [t].

Definition initializeDummyFrame : M unit :=
  emit EvFillRect;;
  s ← captureStream;
  update_sstate (set_replacementStream (Some s)).

Definition choosenId (streamId : JsId) : M JsId :=
  match streamId with
  | IdUndefined => gets (fun w => publishStreamId (cfg w))
  | _ => mret streamId
  end.

Definition turnOffLocalCamera (streamId : JsId) : M unit :=
  initializeDummyFrame;;
  ls ← gets (fun w => localStream (ss w));
  match ls with
  | Some _ =>
      id ← choosenId streamId;
      update_flags (set_cameraEnabled false);;
      r ← gets (fun w => replacementStream (ss w));
      detach (updateVideoTrack r id None true)
  | None => callbackError "NoActiveConnection";; mret tt
  end;;
  b ← gets (fun w => blackFrameTimer (fl w));
  match b with
  | None =>
      t ← setInterval TaskBlackFrame 3000;
      update_flags (set_blackFrameTimer (Some t))
  | Some _ => mret tt
  end.

Definition getUserMedia (mc : MediaConstraints) (catch_error : bool)
    : M (option StreamRef) :=
  if catch_error then
    try_catch (s ← navigator_getUserMedia mc; mret (Some s))
      (fun error =>
         if String.eqb (error_name error) "NotFoundError" then
           emit EvGetDevicesStarted;;
           mret None
         else
           callbackError (error_name error);;
           throw error)
  else
    s ← navigator_getUserMedia mc;
    mret (Some s).

(** [audioContext.createMediaStreamDestination()]: its [stream] holds
    one new audio track. *)
Definition createMediaStreamDestination : M StreamRef :=
  t ← newTrack Audio;
  newStream [t].

Definition setGainNodeStream (stream : option StreamRef) : M (option StreamRef) :=
  mc ← getMediaConstraints;
  if truthy (mc_audio mc) then
    s ← require "stream.getVideoTracks" stream;
    videoTracks ← getVideoTracks s;
    audioTracks ← getAudioTracks s;
    (* createMediaStreamSource refuses a stream without audio *)
    match audioTracks with
    | [] => throw (DOMException "InvalidStateError")
    | _ => mret tt
    end;;
    controlledStream ← createMediaStreamDestination;
    g ← createGain s;
    update_graph (set_primaryAudioTrackGainNode (Some g));;
    v ← gets (fun w => currentVolume (ag w));
    match v with
    | None => setGain g 1
    | Some x => setGain g x
    end;;
    for_each videoTracks (fun t => addTrack controlledStream (Some t));;
    for_each audioTracks (fun t => addTrack controlledStream (Some t));;
    p ← gets (fun w => previousAudioTrack (ss w));
    match p with
    | Some t => stop t
    | None => mret tt
    end;;
    cas ← getAudioTracks controlledStream;
    update_sstate (set_previousAudioTrack (cas !! 1%nat));;
    mret (Some controlledStream)
  else mret stream.

Definition mixAudioStreams (stream secondStream : option StreamRef)
    : M (option StreamRef) :=
  composedStream ← newStream [];
  s ← require "stream.getVideoTracks" stream;
  vts ← getVideoTracks s;
  for_each vts (fun t => addTrack composedStream (Some t));;
  audioDestination ← createMediaStreamDestination;
  ats ← getAudioTracks s;
  match ats with
  | _ :: _ =>
      g ← createGain s;
      update_graph (set_primaryAudioTrackGainNode (Some g));;
      setGain g 1
  | [] => mret tt
  end;;
  s2 ← require "secondStream.getAudioTracks" secondStream;
  ats2 ← getAudioTracks s2;
  match ats2 with
  | _ :: _ =>
      g ← createGain s2;
      update_graph (set_secondaryAudioTrackGainNode (Some g));;
      setGain g 1
  | [] => mret tt
  end;;
  dts ← getAudioTracks audioDestination;
  for_each dts (fun t => addTrack composedStream (Some t));;
  mret (Some composedStream).

Definition prepareAudioStream (deviceStream : option StreamRef)
    (audioConstraint : Constraint) : M (option StreamRef) :=
  am ← gets (fun w => audioMode (cfg w));
  match am with
  | AMMicrophone =>
      audioStream ← getUserMedia (MkMC CUndefined audioConstraint) true;
      setGainNodeStream audioStream
  | AMSystem => mret deviceStream
  | AMSystemMicrophone =>
      audioStream ← getUserMedia (MkMC CUndefined audioConstraint) true;
      audioStream ← setGainNodeStream audioStream;
      mixAudioStreams deviceStream audioStream
  | _ => mret deviceStream
  end.

(** The free identifier [deviceStream] of [setAudioInputSource]. *)
Definition free_deviceStream : M StreamRef :=
  match window_deviceStream E with
  | Some d => mret d
  | None => throw (ReferenceError "deviceStream")
  end.

(** The free identifier [streamId] of [getDisplayMedia]. *)
Definition free_streamId : M JsId :=
  match window_streamId E with
  | Some i => mret i
  | None => throw (ReferenceError "streamId")
  end.

Definition setAudioInputSource (streamId : JsId) (mc : MediaConstraints)
    (onEndedCallback : option Handler) : M (option StreamRef) :=
  if negb (truthy (mc_audio mc)) then
    d ← gets (fun w => devices (cfg w));
    d ← require "this.devices.getAudioTracks" d;
    audioTracks ← getAudioTracks d;
    for_each audioTracks (fun t =>
      stop t;;
      ls ← gets (fun w => localStream (ss w));
      l ← require "this.localStream.removeTrack" ls;
      removeTrack l t);;
    ls ← gets (fun w => localStream (ss w));
    updateLocalAudioStream ls onEndedCallback;;
    mret None
  else
    deviceStream ← free_deviceStream;
    audioStream ← prepareAudioStream (Some deviceStream) (mc_audio mc);
    (* the source passes mediaConstraints where the callback goes *)
    detach (updateAudioTrack audioStream streamId (Some (HConstraints mc)));;
    mret audioStream.

Definition switchAudioInputSource (streamId : JsId) (deviceId : option string)
    : M unit :=
  ls ← gets (fun w => localStream (ss w));
  l ← require "this.localStream.getAudioTracks" ls;
  ats ← getAudioTracks l;
  match head ats with
  | Some audioTrack => stop audioTrack
  | None => mret tt
  end;;
  match deviceId with
  | Some d =>
      omc ← gets (fun w => mediaConstraints (cfg w));
      mc ← require "this.mediaConstraints.audio" omc;
      audio ←
        match mc_audio mc with
        | CBool true => mret (CObj (MkCObj (Some (DevPlain d)) None))
        | CObj o => mret (CObj (MkCObj (Some (DevPlain d)) (c_facingMode o)))
        | _ => throw (TypeError "this.mediaConstraints.audio.deviceId")
        end;
      update_settings (set_mediaConstraints (Some (MkMC (mc_video mc) audio)));;
      let tempMediaConstraints :=
        MkMC (CBool false) (CObj (MkCObj (Some (DevPlain d)) None)) in
      detach (setAudioInputSource streamId tempMediaConstraints None)
  | None =>
      mc ← getMediaConstraints;
      detach (setAudioInputSource streamId mc None)
  end.

Definition setVideoCameraSource (streamId : JsId) (mc : MediaConstraints)
    (onEndedCallback : option Handler) (stopDesktop : bool)
    : M (option StreamRef) :=
  stream ← getUserMedia mc true;
  sec ← gets (fun w => secondaryAudioTrackGainNode (ag w));
  stream ←
    match stopDesktop, sec with
    | true, Some _ =>
        s ← require "stream.getAudioTracks" stream;
        ats ← getAudioTracks s;
        match ats with
        | _ :: _ =>
            update_graph (set_secondaryAudioTrackGainNode None);;
            stream' ← setGainNodeStream stream;
            detach (updateAudioTrack stream' streamId (Some (HConstraints mc)));;
            mret stream'
        | [] => mret stream
        end
    | _, _ => mret stream
    end;
  ce ← gets (fun w => cameraEnabled (fl w));
  (if ce : bool
   then detach (updateVideoTrack stream streamId onEndedCallback stopDesktop)
   else turnOffLocalCamera IdUndefined);;
  mret stream.

Definition is_videoinput (deviceId : option string) (d : Device) : bool :=
  match dev_kind d, deviceId with
  | VideoInput, Some x => String.eqb (dev_id d) x
  | _, _ => false
  end.

Definition switchVideoCameraCapture (streamId : JsId) (deviceId : option string)
    : M (option string) :=
  ls ← gets (fun w => localStream (ss w));
  l ← require "this.localStream.getVideoTracks" ls;
  vts ← getVideoTracks l;
  match head vts with
  | Some videoTrack => stop videoTrack
  | None => mret tt
  end;;
  update_settings (set_publishMode PMCamera);;
  devs ← navigator_enumerateDevices;
  match deviceId with
  | Some d =>
      if existsb (is_videoinput deviceId) devs then
        omc ← gets (fun w => mediaConstraints (cfg w));
        mc ← require "this.mediaConstraints.video" omc;
        video ←
          match mc_video mc with
          | CBool true => mret (CObj (MkCObj (Some (DevExact d)) None))
          | CObj o => mret (CObj (MkCObj (Some (DevExact d)) (c_facingMode o)))
          | _ => throw (TypeError "this.mediaConstraints.video.deviceId")
          end;
        update_settings (set_mediaConstraints (Some (MkMC video (mc_audio mc))))
      else mret tt
  | None => mret tt
  end;;
  (* console.debug reads this.mediaConstraints.video *)
  omc ← gets (fun w => mediaConstraints (cfg w));
  require "this.mediaConstraints.video" omc;;
  m ← getMediaConstraints;
  detach (setVideoCameraSource streamId (MkMC (mc_video m) CUndefined) None true);;
  mret deviceId.

Definition switchVideoCameraFacingMode (streamId : JsId)
    (facingMode : option string) : M unit :=
  ls ← gets (fun w => localStream (ss w));
  l ← require "this.localStream.getVideoTracks" ls;
  vts ← getVideoTracks l;
  match head vts with
  | Some videoTrack => stop videoTrack
  | None => mret tt
  end;;
  omc ← gets (fun w => mediaConstraints (cfg w));
  mc ← require "this.mediaConstraints.video" omc;
  (* the deviceId is deleted, then facingMode is merged in *)
  let videoConstraint := CObj (MkCObj None facingMode) in
  update_settings (set_mediaConstraints (Some (MkMC videoConstraint (mc_audio mc))));;
  update_settings (set_publishMode PMCamera);;
  m ← getMediaConstraints;
  detach (setVideoCameraSource streamId (MkMC (mc_video m) CUndefined) None true).

Definition turnOnLocalCamera (streamId : JsId) : M (option StreamRef) :=
  mc ← getMediaConstraints;
  b ← gets (fun w => blackFrameTimer (fl w));
  match b with
  | Some t =>
      clearInterval t;;
      update_flags (set_blackFrameTimer None)
  | None => mret tt
  end;;
  ls ← gets (fun w => localStream (ss w));
  match ls with
  | None =>
      stream ← getUserMedia (MkMC (mc_video mc) CUndefined) false;
      gotStream stream;;
      mret stream
  | Some _ =>
      stream ← getUserMedia (MkMC (mc_video mc) CUndefined) false;
      id ← choosenId streamId;
      update_flags (set_cameraEnabled true);;
      detach (updateVideoTrack stream id None true);;
      mret stream
  end.

(** One run of the draw callback of [setDesktopWithCameraSource]. *)
Definition drawTick (canvas : StreamRef) (screen : option StreamRef)
    (camera : StreamRef) : M unit :=
  let screenW := from_option (videoWidth E) 0%N screen in
  let screenH := from_option (videoHeight E) 0%N screen in
  emit (EvDrawImage canvas screen 0 0 (num screenW) (num screenH));;
  s ← gets (fun w => cfg w);
  let o := overlay s screenW screenH (videoWidth E camera) (videoHeight E camera) in
  emit (EvDrawImage canvas (Some camera)
          (positionX o) (positionY o) (cameraWidth o) (cameraHeight o)).

Definition setDesktopWithCameraSource (stream : option StreamRef)
    (streamId : JsId) (onEndedCallback : option Handler) : M unit :=
  update_sstate (set_desktopStream stream);;
  cameraStream ← getUserMedia (MkMC (CBool true) (CBool false)) true;
  c ← require "cameraStream.getVideoTracks" cameraStream;
  vts ← getVideoTracks c;
  update_sstate (set_smallVideoTrack (head vts));;
  canvasStream ← captureStream;
  ls ← gets (fun w => localStream (ss w));
  match ls with
  | None => gotStream (Some canvasStream)
  | Some _ => detach (updateVideoTrack (Some canvasStream) streamId onEndedCallback false)
  end;;
  (* the timer's id is not kept *)
  setInterval (TaskDraw canvasStream stream c) 66;;
  mret tt.

Definition prepareStreamTracks (audioConstraint : Constraint)
    (deviceStream : option StreamRef) (streamId : JsId) : M (option StreamRef) :=
  d ← require "deviceStream.getAudioTracks" deviceStream;
  audioTracks ← getAudioTracks d;
  pm ← gets (fun w => publishMode (cfg w));
  match audioTracks, pm with
  | a :: _, PMCamera => stop a;; removeTrack d a
  | _, _ => mret tt
  end;;
  match pm with
  | PMScreen => detach (updateVideoTrack deviceStream streamId (Some HScreenShareStopped) true)
  | PMScreenCamera => detach (setDesktopWithCameraSource deviceStream streamId (Some HScreenShareStopped))
  | _ => mret tt
  end;;
  (if truthy audioConstraint then
     audioStream ← prepareAudioStream deviceStream audioConstraint;
     pm ← gets (fun w => publishMode (cfg w));
     match pm with
     | PMCamera =>
         a ← require "audioStream.getAudioTracks" audioStream;
         ats ← getAudioTracks a;
         addTrack d (head ats)
     | _ => detach (updateAudioTrack audioStream streamId None)
     end
   else mret tt);;
  gotStream deviceStream;;
  mret deviceStream.

Definition prepareStream (stream : option StreamRef) (streamId : JsId)
    : M (option StreamRef) :=
  mc ← getMediaConstraints;
  sv ← gets (fun w => smallVideoTrack (ss w));
  match sv with
  | Some t => stop t
  | None => mret tt
  end;;
  prepareStreamTracks (mc_audio mc) stream streamId.

(** [getDisplayMedia], [getMedia] and [openStream] call each other; [rec]
    is [openStream] with one unit of fuel less. *)
Definition getDisplayMedia_body
    (rec : MediaConstraints -> JsId -> M (option StreamRef))
    (mc : MediaConstraints) : M (option StreamRef) :=
  try_catch (s ← navigator_getDisplayMedia mc; mret (Some s))
    (fun error =>
       if String.eqb (error_name error) "NotAllowedError" then
         veto ← callbackError "ScreenSharePermissionDenied";
         if veto : bool then throw error
         else
           ls ← gets (fun w => localStream (ss w));
           match ls with
           | None => rec (MkMC (CBool true) (CBool true)) IdUndefined
           | Some _ =>
               streamId ← free_streamId;
               switchVideoCameraCapture streamId None;;
               (* resolves with the deviceId it was given: undefined *)
               mret None
           end
       else throw error).

Definition getMedia_body
    (rec : MediaConstraints -> JsId -> M (option StreamRef))
    (mc : MediaConstraints) : M (option StreamRef) :=
  pm ← gets (fun w => publishMode (cfg w));
  match pm with
  | PMScreenCamera | PMScreen => getDisplayMedia_body rec mc
  | _ => getUserMedia mc true
  end.

Fixpoint openStream (fuel : nat) (mc : MediaConstraints) (streamId : JsId)
    : M (option StreamRef) :=
  match fuel with
  | O => out_of_fuel
  | S fuel' =>
      update_settings (set_mediaConstraints (Some mc));;
      mConstraints ← getMediaConstraints;
      match mc_video mConstraints with
      | CUndefined =>
          update_sstate (set_localStream None);;
          callbackError "media_constraint_video_not_defined";;
          mret None
      | _ =>
          stream ← getMedia_body (openStream fuel') mConstraints;
          prepareStream stream streamId
      end
  end.

Definition getDisplayMedia (fuel : nat) := getDisplayMedia_body (openStream fuel).
Definition getMedia (fuel : nat) := getMedia_body (openStream fuel).

Definition switchDesktopCapture (fuel : nat) (streamId : JsId)
    : M (option StreamRef) :=
  update_settings (set_publishMode PMScreen);;
  mc ← getMediaConstraints;
  stream ← getMedia fuel mc;
  prepareStream stream streamId.

Definition switchDesktopCaptureWithCamera (fuel : nat) (streamId : JsId)
    : M (option StreamRef) :=
  update_settings (set_publishMode PMScreenCamera);;
  mc ← getMediaConstraints;
  stream ← getMedia fuel mc;
  prepareStream stream streamId.

Definition stop_if (t : option Track) : M unit :=
  match t with
  | Some x => stop x
  | None => mret tt
  end.

Definition closeStream : M unit :=
  ls ← gets (fun w => localStream (ss w));
  match ls with
  | Some l =>
      tt' ← gets (fun w => tempTracks (ss w));
      for_each tt' stop;;
      vts ← getVideoTracks l;
      for_each vts stop;;
      ats ← getAudioTracks l;
      for_each ats stop;;
      update_sstate (set_tempTracks [])
  | None => mret tt
  end;;
  v ← gets (fun w => videoTrack (cfg w)); stop_if v;;
  a ← gets (fun w => audioTrack (cfg w)); stop_if a;;
  s ← gets (fun w => smallVideoTrack (ss w)); stop_if s;;
  p ← gets (fun w => previousAudioTrack (ss w)); stop_if p;;
  sl ← gets (fun w => soundLevelProviderId (fl w));
  match sl with
  | Some id =>
      clearInterval id;;
      update_flags (set_soundLevelProviderId None)
  | None => mret tt
  end;;
  update_sstate (set_localStream None).

(** [enableSecondStreamInMixedAudio(enable)].  Its guard reads
    [if (this.secondaryAudioTrackGainNode == null) reeturn]: the statement
    under the guard evaluates the identifier [reeturn], which the file
    declares nowhere.  [reeturn_defined] says whether the page defines a
    global of that name; without one the evaluation throws a
    ReferenceError, with one it has no effect and the method goes on to
    read [gain] of the missing node. *)
Definition enableSecondStreamInMixedAudio (reeturn_defined : bool) (enable : bool)
    : M unit :=
  s ← gets (fun w => secondaryAudioTrackGainNode (ag w));
  match s with
  | None => if reeturn_defined then mret tt else throw (ReferenceError "reeturn")
  | Some _ => mret tt
  end;;
  s ← gets (fun w => secondaryAudioTrackGainNode (ag w));
  g ← require "this.secondaryAudioTrackGainNode.gain" s;
  setGain g (if enable then 1 else 0)%float.

Definition setVolumeLevel (volumeLevel : float) : M unit :=
  update_graph (set_currentVolume (Some volumeLevel));;
  p ← gets (fun w => primaryAudioTrackGainNode (ag w));
  match p with
  | Some g => setGain g volumeLevel
  | None => mret tt
  end;;
  s ← gets (fun w => secondaryAudioTrackGainNode (ag w));
  match s with
  | Some g => setGain g volumeLevel
  | None => mret tt
  end.

Definition enableAudioLevelForLocalStream (period : nat) : M unit :=
  update_flags (set_localStreamSoundMeter true);;
  connectSoundMeterToLocalStream;;
  id ← setInterval TaskSoundLevel period;
  update_flags (set_soundLevelProviderId (Some id)).

Definition enableAudioLevelWhenMuted : M unit :=
  try_catch
    (stream ← navigator_getUserMedia (MkMC (CBool false) (CBool true));
     update_flags (set_mutedAudioStream (Some stream));;
     emit (EvSoundMeterConnect (Some stream));;
     if soundMeter_fails E then emit (EvAlert "soundmeter")
     else
       id ← setInterval TaskMeterRefresh 200;
       update_flags (set_meterRefresh (Some id)))
    (fun _ => mret tt).

Definition disableAudioLevelWhenMuted : M unit :=
  r ← gets (fun w => meterRefresh (fl w));
  match r with
  | Some id => clearInterval id
  | None => mret tt
  end;;
  m ← gets (fun w => mutedAudioStream (fl w));
  match m with
  | Some s => ts ← gets (fun w => tracksOf w s); for_each ts stop
  | None => mret tt
  end.

Definition checkWebRTCPermissions : M unit :=
  emit EvCheckPermissions;;
  if negb (webSocket E) then callbackError "WebSocketNotSupported";; mret tt
  else
    match mediaDevices E with
    | None => callbackError "UnsecureContext";; mret tt
    | Some false => callbackError "getUserMediaIsNotAllowed";; mret tt
    | Some true => mret tt
    end.

Definition is_input (d : Device) : bool :=
  match dev_kind d with
  | AudioInput | VideoInput => true
  | AudioOutput => false
  end.

Definition is_audioinput (d : Device) : bool :=
  match dev_kind d with AudioInput => true | _ => false end.

Definition is_any_videoinput (d : Device) : bool :=
  match dev_kind d with VideoInput => true | _ => false end.

Definition getDevices (fuel : nat) : M unit :=
  try_catch
    (devs ← navigator_enumerateDevices;
     let checkAudio := existsb is_audioinput devs in
     let checkVideo := existsb is_any_videoinput devs in
     callback "available_devices";;
     ls ← gets (fun w => localStream (ss w));
     match checkAudio, ls with
     | false, None =>
         lim ← gets (fun w => inputDeviceNotFoundLimit (cfg w));
         match lim with
         | Some n =>
             if (n <? 2)%nat then
               if checkVideo then
                 detach (openStream fuel (MkMC (CBool true) (CBool false)) IdUndefined);;
                 update_settings (fun s =>
                   set_inputDeviceNotFoundLimit
                     (S <$> inputDeviceNotFoundLimit s) s)
               else emit (EvAlert "There is no video or audio input")
             else emit (EvAlert "No input device found, publish is not possible")
         | None => emit (EvAlert "No input device found, publish is not possible")
         end
     | _, _ => mret tt
     end)
    (fun _ => mret tt).

Definition trackDeviceChange : M unit := emit EvListenDeviceChange.

Definition initialize (fuel : nat) : M bool :=
  i ← gets (fun w => initialized (fl w));
  if i : bool then
    checkWebRTCPermissions;;
    getDevices fuel;;
    trackDeviceChange;;
    update_flags (set_initialized true);;
    mret true
  else mret false.

(** What [setInterval] runs when timer [id] fires. *)
Definition fire (id : TimerId) : M unit :=
  t ← gets (fun w => timers w !! id);
  match t with
  | None => mret tt
  | Some tm =>
      match t_task tm with
      | TaskDraw canvas screen camera => drawTick canvas screen camera
      | TaskBlackFrame => initializeDummyFrame
      | TaskSoundLevel => emit EvLevel
      | TaskMeterRefresh => when (speaking E) (callback "speaking_but_muted")
      end
  end.

(** The keys of [initialValues.userParameters] that the model follows:
    the fields the constructor sets before its copy loop, and the fields
    it never sets. *)
Record UserParameters := MkUserParameters {
  up_camera_location : option string;
  up_camera_margin : option float;
  up_camera_percent : option float;
  up_mediaConstraints : option MediaConstraints;
  up_publishStreamId : option JsId;
  up_localStream : option StreamRef;
  up_publishMode : option PublishMode;
  up_audioMode : option AudioMode;
  up_devices : option StreamRef;
  up_videoTrack : option Track;
  up_audioTrack : option Track;
  up_inputDeviceNotFoundLimit : option nat;
  up_replacementStream : option StreamRef
}.

Definition constructor (up : UserParameters) : M unit :=
  modify (on_this (fun _ =>
    MkManager
      (MkSettings
         (default "top" (up_camera_location up))
         (default 15%float (up_camera_margin up))
         (default 15%float (up_camera_percent up))
         (up_mediaConstraints up)
         (default IdNull (up_publishStreamId up))
         (default PMCamera (up_publishMode up))
         (default AMSystemMicrophone (up_audioMode up))
         (up_devices up) (up_videoTrack up) (up_audioTrack up)
         (up_inputDeviceNotFoundLimit up))
      (MkStreamState (up_localStream up) [] None None None
         (up_replacementStream up)
         (if localVideoElement E then Some None else None))
      (MkAudioGraph None None None)
      (MkFlags false true false None None None false None)));;
  (* checkBrowserScreenShareSupported *)
  when (screenShareSupported E) (callback "browser_screen_share_supported");;
  update_sstate (set_tempTracks []);;
  update_flags (set_initialized false).

End Methods.

(** ** Observations *)

(** [track.enabled] *)
Definition enabled (w : World) (t : Track) : bool := bool_decide (tid t ∉ disabled w).

Definition ids (ts : list Track) : gset nat := list_to_set (tid <$> ts).

(** What [getMediaConstraints()] returns in [w]. *)
Definition constraints_now (w : World) : MediaConstraints :=
  let copy := default (MkMC CUndefined CUndefined) (mediaConstraints (cfg w)) in
  match audioMode (cfg w) with
  | AMOff => MkMC (mc_video copy) (CBool false)
  | _ => copy
  end.

(** Reading a log from its start: is a stop of the track [old] met before
    any acquisition request?  If it is, [old] was not stopped "only after
    the new track was acquired". *)
Fixpoint stopped_before_acquiring (old : Track) (l : list Event) : bool :=
  match l with
  | [] => false
  | EvStop t :: l' =>
      if decide (t = old) then true else stopped_before_acquiring old l'
  | EvGetUserMedia _ :: _ => false
  | EvGetDisplayMedia _ :: _ => false
  | _ :: l' => stopped_before_acquiring old l'
  end.

(** The timers are well formed: ids are handed out in increasing order;
    the timer recorded in [blackFrameTimer] runs the blank-frame task every
    3000 ms and no other timer runs that task; the ids recorded in
    [soundLevelProviderId] and [meterRefresh] were handed out and, while
    they run, run their own tasks. *)
Definition timers_wf (w : World) : Prop :=
  (forall id tm, timers w !! id = Some tm -> id < next_timer w) /\
  (forall id, blackFrameTimer (fl w) = Some id ->
     timers w !! id = Some (MkTimer TaskBlackFrame 3000)) /\
  (forall id tm, timers w !! id = Some tm -> t_task tm = TaskBlackFrame ->
     blackFrameTimer (fl w) = Some id) /\
  (forall id, soundLevelProviderId (fl w) = Some id ->
     id < next_timer w /\
     forall tm, timers w !! id = Some tm -> t_task tm = TaskSoundLevel) /\
  (forall id, meterRefresh (fl w) = Some id ->
     id < next_timer w /\
     forall tm, timers w !! id = Some tm -> t_task tm = TaskMeterRefresh).

(** No timer of [w] has been cancelled in [w'], and the ids of [w'] are
    fresh. *)
Definition timers_kept (w w' : World) : Prop :=
  timers w ⊆ timers w' /\
  (forall id tm, timers w' !! id = Some tm -> id < next_timer w').

Definition is_clearInterval (e : Event) : bool :=
  match e with
  | EvClearInterval _ => true
  | _ => false
  end.

(** The methods of the class, as calls with their results dropped; two
    more entries stand for what the browser calls: the device-change
    listener ([GetDevices]) and a timer that fires ([Fire]). *)
Inductive Call :=
| OpenStream (fuel : nat) (mc : MediaConstraints) (streamId : JsId)
| CloseStream
| SwitchDesktopCapture (fuel : nat) (streamId : JsId)
| SwitchDesktopCaptureWithCamera (fuel : nat) (streamId : JsId)
| SwitchAudioInputSource (streamId : JsId) (deviceId : option string)
| SwitchVideoCameraCapture (streamId : JsId) (deviceId : option string)
| SwitchVideoCameraFacingMode (streamId : JsId) (facingMode : option string)
| SetAudioInputSource (streamId : JsId) (mc : MediaConstraints) (cb : option Handler)
| SetVideoCameraSource (streamId : JsId) (mc : MediaConstraints)
    (cb : option Handler) (stopDesktop : bool)
| UpdateAudioTrack (stream : option StreamRef) (streamId : JsId) (cb : option Handler)
| UpdateVideoTrack (stream : option StreamRef) (streamId : JsId)
    (cb : option Handler) (stopDesktop : bool)
| GetUserMedia (mc : MediaConstraints) (catch_error : bool)
| GetDisplayMedia (fuel : nat) (mc : MediaConstraints)
| TurnOffLocalCamera (streamId : JsId)
| TurnOnLocalCamera (streamId : JsId)
| MuteLocalMic
| UnmuteLocalMic
| SetVolumeLevel (v : float)
| EnableAudioLevelForLocalStream (period : nat)
| EnableAudioLevelWhenMuted
| DisableAudioLevelWhenMuted
| Initialize (fuel : nat)
| GetDevices (fuel : nat)
| Fire (id : TimerId).

Definition call (E : Env) (c : Call) : M unit :=
  match c with
  | OpenStream fuel mc id => openStream E fuel mc id;; mret tt
  | CloseStream => closeStream
  | SwitchDesktopCapture fuel id => switchDesktopCapture E fuel id;; mret tt
  | SwitchDesktopCaptureWithCamera fuel id =>
      switchDesktopCaptureWithCamera E fuel id;; mret tt
  | SwitchAudioInputSource id d => switchAudioInputSource E id d
  | SwitchVideoCameraCapture id d => switchVideoCameraCapture E id d;; mret tt
  | SwitchVideoCameraFacingMode id f => switchVideoCameraFacingMode E id f
  | SetAudioInputSource id mc cb => setAudioInputSource E id mc cb;; mret tt
  | SetVideoCameraSource id mc cb d => setVideoCameraSource E id mc cb d;; mret tt
  | UpdateAudioTrack s id cb => updateAudioTrack E s id cb
  | UpdateVideoTrack s id cb d => updateVideoTrack E s id cb d
  | GetUserMedia mc c => getUserMedia E mc c;; mret tt
  | GetDisplayMedia fuel mc => getDisplayMedia E fuel mc;; mret tt
  | TurnOffLocalCamera id => turnOffLocalCamera E id
  | TurnOnLocalCamera id => turnOnLocalCamera E id;; mret tt
  | MuteLocalMic => muteLocalMic E
  | UnmuteLocalMic => unmuteLocalMic E
  | SetVolumeLevel v => setVolumeLevel v
  | EnableAudioLevelForLocalStream p => enableAudioLevelForLocalStream E p
  | EnableAudioLevelWhenMuted => enableAudioLevelWhenMuted E
  | DisableAudioLevelWhenMuted => disableAudioLevelWhenMuted
  | Initialize fuel => initialize E fuel;; mret tt
  | GetDevices fuel => getDevices E fuel
  | Fire id => fire E id
  end.

Definition is_turnOn (c : Call) : bool :=
  match c with
  | TurnOnLocalCamera _ => true
  | _ => false
  end.


(** ** Scenarios

    Concrete environments and states, used to run the methods. *)

(** The page before [new MediaManager(...)]: no object exists yet. *)
Definition blank : World :=
  MkWorld
    (MkManager
       (MkSettings "" 0 0 None IdUndefined PMOther AMOff None None None None)
       (MkStreamState None [] None None None None None)
       (MkAudioGraph None None None)
       (MkFlags false false false None None None false None))
    ∅ ∅ ∅ ∅ ∅ ∅ ∅ 0 0 0.

Definition no_userParameters : UserParameters :=
  MkUserParameters None None None None None None None None None None None None None.

(** userParameters = { mediaConstraints: { video: true, audio: true } } *)
Definition video_and_audio : UserParameters :=
  MkUserParameters None None None (Some (MkMC (CBool true) (CBool true)))
    None None None None None None None None None.

(** ... and audioMode: 'microphone' *)
Definition microphone_mode : UserParameters :=
  MkUserParameters None None None (Some (MkMC (CBool true) (CBool true)))
    None None None (Some AMMicrophone) None None None None None.

(** userParameters = { publishMode: 'screen', mediaConstraints: ... } *)
Definition screen_mode : UserParameters :=
  MkUserParameters None None None (Some (MkMC (CBool true) (CBool true)))
    None None (Some PMScreen) None None None None None None.

(** One track for every kind the request asks for. *)
Definition kinds_for (mc : MediaConstraints) : list Kind :=
  (if truthy (mc_video mc) then [Video] else []) ++
  (if truthy (mc_audio mc) then [Audio] else []).

Definition two_devices : list Device :=
  [MkDevice VideoInput "cam1"; MkDevice AudioInput "mic1"].

(** A browser that grants every request, at 1280x720; nothing is
    published (no sender), callbackError returns undefined and the page
    defines no global [deviceStream] or [streamId]. *)
Definition browser : Env :=
  MkEnv (fun _ _ => None) (fun _ _ _ => None)
    (fun _ mc => Granted (kinds_for mc)) (fun _ mc => Granted (kinds_for mc))
    (fun _ => inl two_devices) (fun _ => false)
    true true false false true (Some true)
    (fun _ => 1280%N) (fun _ => 720%N) None None.

(** The same browser while "stream1" is published: sender 100 carries its
    audio, sender 101 its video. *)
Definition publishing : Env :=
  MkEnv
    (fun id k =>
       match id with
       | IdStr "stream1" => Some (match k with Audio => 100 | Video => 101 end)
       | _ => None
       end)
    (fun _ _ _ => None)
    (fun _ mc => Granted (kinds_for mc)) (fun _ mc => Granted (kinds_for mc))
    (fun _ => inl two_devices) (fun _ => false)
    true true false false true (Some true)
    (fun _ => 1280%N) (fun _ => 720%N) None None.

(** The browser, except that the camera is refused from the third
    getUserMedia request on. *)
Definition camera_lost : Env :=
  MkEnv (fun _ _ => None) (fun _ _ _ => None)
    (fun n mc => if (n <? 2)%nat then Granted (kinds_for mc)
                 else Refused (DOMException "NotReadableError"))
    (fun _ mc => Granted (kinds_for mc))
    (fun _ => inl two_devices) (fun _ => false)
    true true false false true (Some true)
    (fun _ => 1280%N) (fun _ => 720%N) None None.

(** The browser, except that the user denies every screen-share
    request. *)
Definition share_denied : Env :=
  MkEnv (fun _ _ => None) (fun _ _ _ => None)
    (fun _ mc => Granted (kinds_for mc))
    (fun _ _ => Refused (DOMException "NotAllowedError"))
    (fun _ => inl two_devices) (fun _ => false)
    true true false false true (Some true)
    (fun _ => 1280%N) (fun _ => 720%N) None None.

Definition stream1 : JsId := IdStr "stream1".

(** A fresh instance. *)
Definition fresh (E : Env) (up : UserParameters) : World :=
  st (constructor E up blank).

(** A Local Stream (stream 1) with one audio and one video track, and a
    stream (stream 2) that holds a video track only. *)
Definition audio_and_video : World :=
  MkWorld
    (on_sstate (set_localStream (Some 1)) (this (fresh browser video_and_audio)))
    (<[1 := [MkTrack Audio 10; MkTrack Video 11]]> (<[2 := [MkTrack Video 12]]> ∅))
    ∅ ∅ ∅ ∅ ∅ ∅ 20 0 0.

(** The Local Stream of [audio_and_video], while the constraint set is
    { video: true, audio: false }. *)
Definition audio_not_wanted : World :=
  on_this (on_settings (set_mediaConstraints (Some (MkMC (CBool true) (CBool false)))))
    audio_and_video.

(** A Local Stream (stream 2) with a video track only. *)
Definition video_only : World :=
  MkWorld
    (on_sstate (set_localStream (Some 2)) (this (fresh browser video_and_audio)))
    (<[2 := [MkTrack Video 12]]> ∅)
    ∅ ∅ ∅ ∅ ∅ ∅ 20 0 0.

(** A stream (stream 1) with one audio track, on a fresh instance in
    microphone mode: nothing of the audio graph exists yet. *)
Definition microphone_ready : World :=
  MkWorld (this (fresh browser microphone_mode))
    (<[1 := [MkTrack Audio 10]]> ∅) ∅ ∅ ∅ ∅ ∅ ∅ 20 0 0.

(** ... after openStream({ video: true, audio: true }, "stream1"). *)
Definition opened (E : Env) (up : UserParameters) : World :=
  st (openStream E 3 (MkMC (CBool true) (CBool true)) stream1 (fresh E up)).

(** The instance after openStream and muteLocalMic(). *)
Definition muted : World :=
  st (muteLocalMic browser (opened browser microphone_mode)).

(** A compositor timer on the default settings (margin 15, 'top', 15%). *)
Definition compositing : World :=
  st (switchDesktopCaptureWithCamera browser 3 stream1 (fresh browser video_and_audio)).

(** Screen sharing in 'system+microphone' mode, after setVolumeLevel(0.4). *)
Definition volume_then_share : World :=
  st ((setVolumeLevel 0.4;;
       openStream browser 3 (MkMC (CBool true) (CBool true)) stream1)
        (fresh browser screen_mode)).

(** The instance while "stream1" is published from camera and
    microphone: the Local Stream is stream 2, its video track is track 0
    and its audio track is track 5. *)
Definition on_air : World := opened publishing microphone_mode.

(** The instance after openStream, where the browser will refuse the
    camera from now on, and after turnOffLocalCamera("stream1"). *)
Definition camera_off : World :=
  st (turnOffLocalCamera camera_lost stream1 (opened camera_lost video_and_audio)).

(** The instance after openStream, where the user denies every screen
    share: the Local Stream is active. *)
Definition sharing_denied : World := opened share_denied microphone_mode.

(** The Local Stream of [audio_and_video], while stream 3, with an audio
    track only, is offered. *)
Definition audio_offered : World :=
  on_streams <[3 := [MkTrack Audio 13]]> audio_and_video.

(** A machine without camera or microphone: every getUserMedia request
    fails with NotFoundError. *)
Definition no_input_device : Env :=
  MkEnv (fun _ _ => None) (fun _ _ _ => None)
    (fun _ _ => Refused (DOMException "NotFoundError"))
    (fun _ mc => Granted (kinds_for mc))
    (fun _ => inl []) (fun _ => false)
    true true false false true (Some true)
    (fun _ => 1280%N) (fun _ => 720%N) None None.

(** The browser, except that the screen cannot be read. *)
Definition share_failed : Env :=
  MkEnv (fun _ _ => None) (fun _ _ _ => None)
    (fun _ mc => Granted (kinds_for mc))
    (fun _ _ => Refused (DOMException "NotReadableError"))
    (fun _ => inl two_devices) (fun _ => false)
    true true false false true (Some true)
    (fun _ => 1280%N) (fun _ => 720%N) None None.

(** ** Predicates on computations and states

    The vocabulary of the statements below. *)

(** [m] keeps [I]: whatever [m] returns or throws, the state it leaves
    satisfies [I] if the state it started from did. *)
Definition pres {A} (I : World -> Prop) (m : M A) : Prop :=
  forall w, I w -> I (st (m w)).

(** [m] never stops for lack of fuel. *)
Definition fueled {A} (m : M A) : Prop := forall w, res (m w) ≠ OutOfFuel.

(** [m] returns, from every state, a value that satisfies [Q]. *)
Definition returns {A} (Q : A -> Prop) (m : M A) : Prop :=
  forall w, exists a, res (m w) = Ok a /\ Q a.

(** Every event that [m] logs satisfies [P]. *)
Definition logs_only (P : Event -> Prop) {A} (m : M A) : Prop :=
  forall w, Forall P (log (m w)).

(** The part of the state that the timers live in: the running timers,
    the id counter, the [initialized] flag and the three recorded ids. *)
Definition timer_view (w : World) :=
  (timers w, next_timer w, initialized (fl w), blackFrameTimer (fl w),
   meterRefresh (fl w), soundLevelProviderId (fl w)).

(** [m] always returns and leaves the timers' part of the state alone. *)
Definition skippable {A} (m : M A) : Prop :=
  returns (fun _ => True) m /\
  forall V, pres (fun w => timer_view w = V) m.

(** A property of the [initialized] flag and of the recorded blank-frame
    timer. *)
Definition flag_inv (P : bool -> option TimerId -> Prop) (w : World) : Prop :=
  P (initialized (fl w)) (blackFrameTimer (fl w)).

(** [initialized] is [false]. *)
Definition never_initialized : World -> Prop := flag_inv (fun i _ => i = false).

(** The blank-frame timer [t] is the recorded one. *)
Definition black_recorded (t : TimerId) : World -> Prop :=
  flag_inv (fun _ b => b = Some t).

(** Every gain node of [w'] is a node of [w], unchanged, or is at gain
    [v]. *)
Definition new_gains_at (v : float) (w w' : World) : Prop :=
  forall g node, gains w' !! g = Some node ->
    gains w !! g = Some node \/ gain_value node = v.

(** The request that follows a denied screen share when no stream is
    active. *)
Definition fallback_request (w : World) : MediaConstraints :=
  MkMC (CBool true)
    (match audioMode (cfg w) with AMOff => CBool false | _ => CBool true end).

(** The tracks [closeStream] stops, in the order it stops them: with a
    Local Stream the temporary tracks and the video and audio tracks of
    the stream, then the tracks recorded in [videoTrack], [audioTrack],
    [smallVideoTrack] and [previousAudioTrack]. *)
Definition closing (w : World) : list Track :=
  match localStream (ss w) with
  | Some l => tempTracks (ss w) ++ videoTracksOf w l ++ audioTracksOf w l
  | None => []
  end ++
  option_list (videoTrack (cfg w)) ++ option_list (audioTrack (cfg w)) ++
  option_list (smallVideoTrack (ss w)) ++ option_list (previousAudioTrack (ss w)).

(** The events of an update that stops nothing and asks the platform for
    nothing: tracks added to and removed from a stream, callbackError,
    the connection of the sound meter and, where the sound meter fails,
    the alert of its error. *)
Definition quiet_update (E : Env) (e : Event) : Prop :=
  match e with
  | EvAddTrack _ _ | EvRemoveTrack _ _ | EvCallbackError _ | EvSoundMeterConnect _ => True
  | EvAlert _ => soundMeter_fails E = true
  | _ => False
  end.

(** A track is stopped, or a dropped promise is rejected. *)
Definition stop_or_rejection (e : Event) : Prop :=
  match e with
  | EvStop _ | EvUnhandledRejection _ => True
  | _ => False
  end.

(** The gain nodes that [setVolumeLevel] writes to. *)
Definition volume_node (w : World) (g : GainRef) : Prop :=
  primaryAudioTrackGainNode (ag w) = Some g \/
  secondaryAudioTrackGainNode (ag w) = Some g.

Definition with_gain (v : float) (n : GainNode) : GainNode := MkGain v (gain_input n).

(** The state after [gain.value = v] on the node [o], if there is one. *)
Definition set_if (o : option GainRef) (v : float) (w : World) : World :=
  match o with
  | Some g => st (setGain g v w)
  | None => w
  end.

(** The log of a screen-share request that fails without a fallback. *)
Definition refused_share_log (mc : MediaConstraints) (e : JsError) : list Event :=
  EvGetDisplayMedia mc ::
  (if String.eqb (error_name e) "NotAllowedError"
   then [EvCallbackError "ScreenSharePermissionDenied"] else []).

(** The video constraint with [deviceId: { exact: d }] written into it. *)
Definition with_exact_device (d : string) (c : Constraint) : option Constraint :=
  match c with
  | CBool true => Some (CObj (MkCObj (Some (DevExact d)) None))
  | CObj o => Some (CObj (MkCObj (Some (DevExact d)) (c_facingMode o)))
  | _ => None
  end.

(** ** Sequences of calls, and the first steps of a switch *)

(** The state after a sequence of calls, each run to its end.  A call
    that fails leaves the state it failed in, and the next call starts
    from that state: the caller catches the error and goes on. *)
Fixpoint after_calls (E : Env) (calls : list Call) (w : World) : World :=
  match calls with
  | [] => w
  | c :: calls' => after_calls E calls' (st (call E c w))
  end.



(** Can a device id be written into the constraint?  It can into [true]
    (which becomes an object) and into an object; writing a property of
    [false] or of [undefined] throws a TypeError. *)
Definition accepts_deviceId (c : Constraint) : bool :=
  match c with
  | CBool true | CObj _ => true
  | _ => false
  end.

(** The state right after [t.stop()]. *)
Definition stopped (t : Track) (w : World) : World :=
  on_ended (fun e => {[tid t]} ∪ e) w.

(** What [turnOnLocalCamera] does first: it cancels the recorded
    blank-frame timer and forgets it. *)
Definition cancelled (w : World) : World :=
  match blackFrameTimer (fl w) with
  | Some t => on_this (on_flags (set_blackFrameTimer None)) (on_timers (delete t) w)
  | None => w
  end.

Definition cancel_log (w : World) : list Event :=
  match blackFrameTimer (fl w) with
  | Some t => [EvClearInterval t]
  | None => []
  end.

(** The request for the camera that [turnOnLocalCamera] makes. *)
Definition camera_request (w : World) : MediaConstraints :=
  MkMC (mc_video (constraints_now w)) CUndefined.

(** * Properties *)

(** ** Running a computation step by step *)

Lemma prepend_nil {A} (o : Out A) : prepend [] o = o.
Proof. by destruct o. Qed.

Lemma prepend_prepend {A} (l1 l2 : list Event) (o : Out A) :
  prepend l1 (prepend l2 o) = prepend (l1 ++ l2) o.
Proof. unfold prepend; simpl. by rewrite app_assoc. Qed.

Lemma res_prepend {A} l (o : Out A) : res (prepend l o) = res o.
Proof. done. Qed.

Lemma st_prepend {A} l (o : Out A) : st (prepend l o) = st o.
Proof. done. Qed.

Lemma log_prepend {A} l (o : Out A) : log (prepend l o) = l ++ log o.
Proof. done. Qed.

(** Reduce projections of updated records, and nothing else. *)
Ltac wsimpl :=
  cbn [this settings sstate graph flags
       streams ended disabled onended gains timers bound next_id next_timer clock
       on_this on_settings on_sstate on_graph on_flags on_streams on_ended
       on_disabled on_onended on_gains on_timers on_bound
       bump_id bump_timer bump_clock
       camera_location camera_margin camera_percent mediaConstraints
       publishStreamId publishMode audioMode devices videoTrack audioTrack
       inputDeviceNotFoundLimit
       localStream tempTracks desktopStream smallVideoTrack previousAudioTrack
       replacementStream localVideo
       currentVolume primaryAudioTrackGainNode secondaryAudioTrackGainNode
       isMuted cameraEnabled initialized blackFrameTimer meterRefresh
       soundLevelProviderId localStreamSoundMeter mutedAudioStream
       set_mediaConstraints set_publishMode set_inputDeviceNotFoundLimit
       set_localStream set_tempTracks set_desktopStream set_smallVideoTrack
       set_previousAudioTrack set_replacementStream set_localVideo
       set_currentVolume set_primaryAudioTrackGainNode
       set_secondaryAudioTrackGainNode
       set_isMuted set_cameraEnabled set_initialized set_blackFrameTimer
       set_meterRefresh set_soundLevelProviderId set_localStreamSoundMeter
       set_mutedAudioStream
       res st log prepend].

Tactic Notation "wsimpl" "in" hyp(H) :=
  cbn [this settings sstate graph flags
       streams ended disabled onended gains timers bound next_id next_timer clock
       on_this on_settings on_sstate on_graph on_flags on_streams on_ended
       on_disabled on_onended on_gains on_timers on_bound
       bump_id bump_timer bump_clock
       camera_location camera_margin camera_percent mediaConstraints
       publishStreamId publishMode audioMode devices videoTrack audioTrack
       inputDeviceNotFoundLimit
       localStream tempTracks desktopStream smallVideoTrack previousAudioTrack
       replacementStream localVideo
       currentVolume primaryAudioTrackGainNode secondaryAudioTrackGainNode
       isMuted cameraEnabled initialized blackFrameTimer meterRefresh
       soundLevelProviderId localStreamSoundMeter mutedAudioStream
       set_mediaConstraints set_publishMode set_inputDeviceNotFoundLimit
       set_localStream set_tempTracks set_desktopStream set_smallVideoTrack
       set_previousAudioTrack set_replacementStream set_localVideo
       set_currentVolume set_primaryAudioTrackGainNode
       set_secondaryAudioTrackGainNode
       set_isMuted set_cameraEnabled set_initialized set_blackFrameTimer
       set_meterRefresh set_soundLevelProviderId set_localStreamSoundMeter
       set_mutedAudioStream
       res st log prepend] in H.

Lemma run_bind {A B} (m : M A) (k : A -> M B) w :
  (m ≫= k) w =
  match res (m w) with
  | Ok a => prepend (log (m w)) (k a (st (m w)))
  | Thrown e => MkOut (Thrown e) (st (m w)) (log (m w))
  | OutOfFuel => MkOut OutOfFuel (st (m w)) (log (m w))
  end.
Proof. done. Qed.

Lemma run_ret_bind {A B} (a : A) (k : A -> M B) w : (mret a ≫= k) w = k a w.
Proof. rewrite run_bind. simpl. apply prepend_nil. Qed.

Lemma run_gets_bind {A B} (f : World -> A) (k : A -> M B) w :
  (gets f ≫= k) w = k (f w) w.
Proof. rewrite run_bind. simpl. apply prepend_nil. Qed.

Lemma run_modify_bind {B} (f : World -> World) (k : unit -> M B) w :
  (modify f ≫= k) w = k tt (f w).
Proof. rewrite run_bind. simpl. apply prepend_nil. Qed.

Lemma run_emit_bind {B} (e : Event) (k : unit -> M B) w :
  (emit e ≫= k) w = prepend [e] (k tt w).
Proof. by rewrite run_bind. Qed.

Lemma run_throw_bind {A B} (e : JsError) (k : A -> M B) w :
  (throw e ≫= k) w = MkOut (Thrown e) w [].
Proof. by rewrite run_bind. Qed.

Lemma run_bind_assoc {A B C} (m : M A) (k : A -> M B) (h : B -> M C) w :
  ((m ≫= k) ≫= h) w = (m ≫= (fun a => k a ≫= h)) w.
Proof.
  rewrite !run_bind. destruct (res (m w)) as [a| |] eqn:Hm; simpl; try done.
  rewrite run_bind. simpl.
  destruct (res (k a (st (m w)))) as [b| |]; simpl; try done.
  by rewrite prepend_prepend.
Qed.

Lemma run_ret {A} (a : A) w : (mret a : M A) w = MkOut (Ok a) w [].
Proof. done. Qed.

Lemma run_modify f w : modify f w = MkOut (Ok tt) (f w) [].
Proof. done. Qed.

Lemma run_require_some {A} what (a : A) w : require what (Some a) w = MkOut (Ok a) w [].
Proof. done. Qed.

Lemma run_require_bind {A B} what (a : A) (k : A -> M B) w :
  (require what (Some a) ≫= k) w = k a w.
Proof. apply run_ret_bind. Qed.

Lemma run_require_none_bind {A B} what (k : A -> M B) w :
  (require what None ≫= k) w = MkOut (Thrown (TypeError what)) w [].
Proof. apply run_throw_bind. Qed.

(** ** [initialize] returns early *)

Lemma constructor_not_initialized E up w :
  initialized (fl (st (constructor E up w))) = false.
Proof.
  unfold constructor. rewrite run_modify_bind. unfold when.
  destruct (screenShareSupported E); rewrite ?run_bind; simpl; reflexivity.
Qed.

Lemma initialize_not_initialized E fuel w :
  initialized (fl w) = false -> initialize E fuel w = MkOut (Ok false) w [].
Proof. intros Hi. unfold initialize. rewrite run_gets_bind. by rewrite Hi. Qed.

(** ** C8: the geometry of one draw tick *)

Lemma fire_draw E w id canvas screen camera period :
  timers w !! id = Some (MkTimer (TaskDraw canvas screen camera) period) ->
  fire E id w = drawTick E canvas screen camera w.
Proof. intros Ht. unfold fire. by rewrite run_gets_bind, Ht. Qed.

Lemma overlay_top_15_15 (s : Settings) (camW camH : N) :
  camera_margin s = 15%float ->
  camera_location s = "top" ->
  camera_percent s = 15%float ->
  overlay s 1280 720 camW camH =
    MkOverlay 192 ((num camH / num camW) * 192) 1073 15.
Proof. intros Hm Hl Hp. unfold overlay. rewrite Hm, Hl, Hp. reflexivity. Qed.

(** C8.  With camera_margin 15, camera_location 'top', camera_percent 15
    and a screen source playing at 1280x720, every firing of the
    compositor's draw timer draws the screen over the whole 1280x720
    canvas and then the camera overlay with width 192, at x = 1073 and
    y = 15 (in binary64 arithmetic, as the source computes them). *)
Theorem draw_tick_overlay_1280x720 :
  forall (E : Env) (w : World) (id : TimerId) (canvas screen camera : StreamRef)
         (period : nat),
    timers w !! id = Some (MkTimer (TaskDraw canvas (Some screen) camera) period) ->
    camera_margin (cfg w) = 15%float ->
    camera_location (cfg w) = "top" ->
    camera_percent (cfg w) = 15%float ->
    videoWidth E screen = 1280%N ->
    videoHeight E screen = 720%N ->
    let o := overlay (cfg w) 1280 720 (videoWidth E camera) (videoHeight E camera) in
    cameraWidth o = 192%float /\
    positionX o = 1073%float /\
    positionY o = 15%float /\
    log (fire E id w) =
      [EvDrawImage canvas (Some screen) 0 0 1280 720;
       EvDrawImage canvas (Some camera) 1073 15 192 (cameraHeight o)].
Proof.
  intros E w id canvas screen camera period Ht Hm Hl Hp Hw Hh o.
  subst o. rewrite (fire_draw _ _ _ _ _ _ _ Ht). unfold drawTick.
  cbn [from_option]. rewrite Hw, Hh, run_emit_bind, run_gets_bind.
  rewrite (overlay_top_15_15 _ _ _ Hm Hl Hp). repeat split.
Qed.

(** ** C10: mute, then unmute *)

Lemma world_eq (w1 w2 : World) :
  this w1 = this w2 -> streams w1 = streams w2 -> ended w1 = ended w2 ->
  disabled w1 = disabled w2 -> onended w1 = onended w2 -> gains w1 = gains w2 ->
  timers w1 = timers w2 -> bound w1 = bound w2 -> next_id w1 = next_id w2 ->
  next_timer w1 = next_timer w2 -> clock w1 = clock w2 -> w1 = w2.
Proof. destruct w1, w2; simpl; congruence. Qed.

Lemma for_each_cons {A} (x : A) (l : list A) (f : A -> M unit) :
  for_each (x :: l) f = (f x;; for_each l f).
Proof. done. Qed.

Lemma for_each_setEnabled (b : bool) (ts : list Track) (w : World) :
  for_each ts (setEnabled b) w =
  MkOut (Ok tt)
    (on_disabled (fun d => if b then d ∖ ids ts else ids ts ∪ d) w) [].
Proof.
  revert w. induction ts as [|t ts IH]; intros w.
  - simpl. rewrite run_ret. f_equal.
    apply world_eq; simpl; try done. unfold ids; simpl. destruct b; set_solver.
  - rewrite for_each_cons, run_bind. unfold setEnabled at 1. cbn [modify res st log].
    rewrite prepend_nil, IH. f_equal.
    apply world_eq; simpl; try done. unfold ids; simpl. destruct b; set_solver.
Qed.

Lemma muteLocalMic_run E w l :
  localStream (ss w) = Some l ->
  muteLocalMic E w =
  MkOut (Ok tt)
    (on_disabled (fun d => ids (audioTracksOf w l) ∪ d)
       (on_this (on_flags (set_isMuted true)) w)) [].
Proof.
  intros Hl. unfold muteLocalMic, update_flags.
  rewrite run_modify_bind, run_gets_bind. wsimpl. wsimpl in Hl. rewrite Hl.
  unfold getAudioTracks. by rewrite run_gets_bind, for_each_setEnabled.
Qed.

Lemma unmuteLocalMic_run E w l :
  localStream (ss w) = Some l ->
  unmuteLocalMic E w =
  MkOut (Ok tt)
    (on_disabled (fun d => d ∖ ids (audioTracksOf w l))
       (on_this (on_flags (set_isMuted false)) w)) [].
Proof.
  intros Hl. unfold unmuteLocalMic, update_flags.
  rewrite run_modify_bind, run_gets_bind. wsimpl. wsimpl in Hl. rewrite Hl.
  unfold getAudioTracks. by rewrite run_gets_bind, for_each_setEnabled.
Qed.

Lemma elem_of_ids (t : Track) (ts : list Track) : t ∈ ts -> tid t ∈ ids ts.
Proof. intros H. unfold ids. apply elem_of_list_to_set, list_elem_of_fmap. eauto. Qed.

(** C10 (amended).  When the Local Stream exists, [muteLocalMic] followed
    by [unmuteLocalMic] succeeds, takes no platform-visible action (no
    stop, no add or remove, no replacement: the log is empty), leaves
    every stream's track list, every track's running state, the senders
    and the allocation counter as they were, and leaves every audio track
    of the Local Stream enabled and all other tracks' enabled flags
    untouched.  So the original enabled state is restored exactly when
    every audio track of the Local Stream was enabled to begin with. *)
Theorem mute_then_unmute_enables_all :
  forall (E : Env) (w : World) (l : StreamRef),
    localStream (ss w) = Some l ->
    let o := (muteLocalMic E;; unmuteLocalMic E) w in
    res o = Ok tt /\ log o = [] /\
    streams (st o) = streams w /\ ended (st o) = ended w /\
    bound (st o) = bound w /\ next_id (st o) = next_id w /\
    sstate (this (st o)) = sstate (this w) /\
    isMuted (fl (st o)) = false /\
    (forall t, t ∈ audioTracksOf w l -> enabled (st o) t = true) /\
    (forall t, tid t ∉ ids (audioTracksOf w l) -> enabled (st o) t = enabled w t) /\
    ((forall t, t ∈ audioTracksOf w l -> enabled w t = true) ->
     disabled (st o) = disabled w).
Proof.
  intros E w l Hl o. subst o.
  rewrite run_bind, (muteLocalMic_run E w l Hl). cbn [res st log].
  rewrite prepend_nil.
  erewrite unmuteLocalMic_run by exact Hl.
  cbn. repeat split.
  - intros t Ht. apply bool_decide_eq_true. apply elem_of_ids in Ht.
    unfold audioTracksOf, tracksOf in *. simpl. set_solver.
  - intros t Ht. unfold enabled. apply bool_decide_ext.
    unfold audioTracksOf, tracksOf in *. simpl. set_solver.
  - intros Hall. unfold audioTracksOf, tracksOf in *. simpl.
    apply set_eq. intros n. split; [set_solver|]. intros Hn.
    apply elem_of_difference. split; [set_solver|]. intros Hin.
    unfold ids in Hin. apply elem_of_list_to_set, list_elem_of_fmap in Hin.
    destruct Hin as (t & -> & Ht). specialize (Hall t Ht).
    apply bool_decide_eq_true in Hall. done.
Qed.

(** ** [replaceTrack] *)

Lemma replaceTrack_run E sender t w :
  replaceTrack E sender t w =
  match replaceTrack_result E (clock w) sender t with
  | Some e => MkOut (Thrown e) (bump_clock w) [EvReplaceTrack sender t]
  | None => MkOut (Ok tt) (on_bound <[sender := t]> (bump_clock w)) [EvReplaceTrack sender t]
  end.
Proof.
  unfold replaceTrack.
  rewrite run_emit_bind, run_gets_bind, run_modify_bind.
  by destruct (replaceTrack_result E (clock w) sender t).
Qed.

(** ** Invariants of the state *)

Section Pres.
Context (I : World -> Prop).

Lemma pres_ret {A} (a : A) : pres I (mret a : M A).
Proof. by intros w. Qed.

Lemma pres_throw {A} e : pres I (throw e : M A).
Proof. by intros w. Qed.

Lemma pres_out_of_fuel {A} : pres I (out_of_fuel : M A).
Proof. by intros w. Qed.

Lemma pres_gets {A} (f : World -> A) : pres I (gets f).
Proof. by intros w. Qed.

Lemma pres_emit e : pres I (emit e).
Proof. by intros w. Qed.

Lemma pres_require {A} what (o : option A) : pres I (require what o).
Proof. by destruct o; intros w. Qed.

Lemma pres_modify f : (forall w, I w -> I (f w)) -> pres I (modify f).
Proof. intros H w Hw. by apply H. Qed.

Lemma pres_bind {A B} (m : M A) (k : A -> M B) :
  pres I m -> (forall a, pres I (k a)) -> pres I (m ≫= k).
Proof.
  intros Hm Hk w Hw. rewrite run_bind. specialize (Hm w Hw).
  destruct (res (m w)); simpl; auto. by apply Hk.
Qed.

Lemma pres_try_catch {A} (m : M A) (h : JsError -> M A) :
  pres I m -> (forall e, pres I (h e)) -> pres I (try_catch m h).
Proof.
  intros Hm Hh w Hw. unfold try_catch. specialize (Hm w Hw).
  destruct (res (m w)); simpl; auto. by apply Hh.
Qed.

Lemma pres_detach {A} (m : M A) : pres I m -> pres I (detach m).
Proof.
  intros Hm. unfold detach. apply pres_try_catch.
  - apply pres_bind; [done|]. intros _. apply pres_ret.
  - intros e. apply pres_emit.
Qed.

Lemma pres_when b (m : M unit) : pres I m -> pres I (when b m).
Proof. destruct b; [done|]. intros _. apply pres_ret. Qed.

Lemma pres_for_each {A} (l : list A) (f : A -> M unit) :
  (forall x, pres I (f x)) -> pres I (for_each l f).
Proof.
  intros Hf. induction l as [|x l IH]; [apply pres_ret|].
  rewrite for_each_cons. apply pres_bind; [apply Hf|]. by intros _.
Qed.

End Pres.

Create HintDb pres.

Ltac head_of t :=
  lazymatch t with
  | ?f _ => head_of f
  | _ => t
  end.

(** One step of a proof of [pres I m], by the shape of [m]; [tac] proves
    that a state update keeps [I]. *)
Ltac pres_step tac :=
  lazymatch goal with
  | |- pres _ (_ ≫= _) => apply pres_bind; [|intros ?]
  | |- pres _ (mret _) => apply pres_ret
  | |- pres _ (gets _) => apply pres_gets
  | |- pres _ (throw _) => apply pres_throw
  | |- pres _ out_of_fuel => apply pres_out_of_fuel
  | |- pres _ (emit _) => apply pres_emit
  | |- pres _ (require _ _) => apply pres_require
  | |- pres _ (modify _) => apply pres_modify; tac
  | |- pres _ (update_settings _) => apply pres_modify; tac
  | |- pres _ (update_sstate _) => apply pres_modify; tac
  | |- pres _ (update_graph _) => apply pres_modify; tac
  | |- pres _ (update_flags _) => apply pres_modify; tac
  | |- pres _ (try_catch _ _) => apply pres_try_catch; [|intros ?]
  | |- pres _ (detach _) => apply pres_detach
  | |- pres _ (when _ _) => apply pres_when
  | |- pres _ (for_each _ _) => apply pres_for_each; intros ?
  | |- pres _ (match ?x with _ => _ end) => destruct x
  | |- pres _ (match ?x with _ => _ end _) => destruct x; cbv beta
  | |- pres _ (let x := _ in _) => cbv zeta
  | |- pres _ ?m => let h := head_of m in unfold h
  end.

Ltac pres_go tac := repeat (first [ solve [auto 2 with pres] | pres_step tac ]).

(** ** The audio tracks of the Local Stream *)

Lemma post_bind {A B} (J : World -> Prop) (m : M A) (k : A -> M B) w :
  J (st (m w)) -> (forall a, pres J (k a)) -> J (st ((m ≫= k) w)).
Proof.
  intros Hm Hk. rewrite run_bind. destruct (res (m w)); simpl; auto. by apply Hk.
Qed.

Lemma run_getAudioTracks_bind {B} s (k : list Track -> M B) w :
  (getAudioTracks s ≫= k) w = k (audioTracksOf w s) w.
Proof. exact (run_gets_bind (fun w => audioTracksOf w s) k w). Qed.

Lemma run_getVideoTracks_bind {B} s (k : list Track -> M B) w :
  (getVideoTracks s ≫= k) w = k (videoTracksOf w s) w.
Proof. exact (run_gets_bind (fun w => videoTracksOf w s) k w). Qed.

Ltac run1 :=
  first [ rewrite run_ret_bind | rewrite run_gets_bind | rewrite run_modify_bind
        | rewrite run_getAudioTracks_bind | rewrite run_getVideoTracks_bind
        | rewrite run_require_bind | rewrite run_require_none_bind
        | rewrite run_emit_bind | rewrite run_throw_bind
        | rewrite run_bind_assoc ];
  cbv beta.

Ltac run := repeat run1.

Lemma run_bind_ok {A B} (m : M A) (k : A -> M B) w a w' l :
  m w = MkOut (Ok a) w' l -> (m ≫= k) w = prepend l (k a w').
Proof. intros H. by rewrite run_bind, H. Qed.

Lemma addTrack_run s t w :
  addTrack s (Some t) w =
  MkOut (Ok tt)
    (if bool_decide (t ∈ tracksOf w s) then w
     else on_streams <[s := tracksOf w s ++ [t]]> w)
    [EvAddTrack s t].
Proof. unfold addTrack. by run. Qed.

Lemma removeTrack_run s t w :
  removeTrack s t w =
  MkOut (Ok tt) (on_streams <[s := filter (fun t' => t' ≠ t) (tracksOf w s)]> w)
    [EvRemoveTrack s t].
Proof. unfold removeTrack. by run. Qed.

Lemma stop_run t w :
  stop t w = MkOut (Ok tt) (on_ended (fun e => {[tid t]} ∪ e) w) [EvStop t].
Proof. unfold stop. by run. Qed.

Lemma tracksOf_insert w l ts : tracksOf (on_streams <[l := ts]> w) l = ts.
Proof. unfold tracksOf. wsimpl. by rewrite lookup_insert_eq. Qed.

Lemma audioTracksOf_insert w l ts :
  audioTracksOf (on_streams <[l := ts]> w) l =
  filter (fun t => is_kind Audio t = true) ts.
Proof. unfold audioTracksOf. by rewrite tracksOf_insert. Qed.

Lemma filter_swap {A} (P Q : A -> Prop) `{!forall x, Decision (P x)}
    `{!forall x, Decision (Q x)} (l : list A) :
  filter P (filter Q l) = filter Q (filter P l).
Proof.
  induction l as [|x l IH]; [done|].
  rewrite !filter_cons.
  destruct (decide (P x)), (decide (Q x)); rewrite ?filter_cons;
    repeat case_decide; try done; by rewrite IH.
Qed.

Lemma audio_head_kind w s n ns :
  audioTracksOf w s = n :: ns -> is_kind Audio n = true /\ n ∈ tracksOf w s.
Proof.
  intros H. assert (Hn : n ∈ audioTracksOf w s) by (rewrite H; left).
  unfold audioTracksOf in Hn. by apply list_elem_of_filter in Hn.
Qed.

Lemma updateLocalAudioStream_audio_count E w s cb l :
    localStream (ss w) = Some l ->
    length (audioTracksOf w l) ≤ 1 ->
    let o := updateLocalAudioStream E (Some s) cb w in
    localStream (ss (st o)) = Some l /\
    length (audioTracksOf (st o) l) =
      (match audioTracksOf w s with [] => 0 | _ => 1 end).
Proof.
  intros Hl Hle o. subst o.
  unfold updateLocalAudioStream.
  run1. run1. run1. rewrite Hl.
  set (J := fun w' => localStream (ss w') = Some l /\
    length (audioTracksOf w' l) = (match audioTracksOf w s with [] => 0 | _ => 1 end)).
  cbv iota.
  match goal with
  | |- context [st ((?m ≫= ?k) w)] =>
      enough (HJ : J (st ((m ≫= k) w))) by exact HJ
  end.
  apply post_bind.
  - run1.
    destruct (audioTracksOf w l) as [|a [|? ?]] eqn:Hal; [| |simpl in Hle; lia];
    destruct (audioTracksOf w s) as [|n ns] eqn:Has; cbn [head].
    + run. rewrite run_ret. unfold J. wsimpl. by rewrite Hal.
    + run. rewrite addTrack_run. unfold J. wsimpl.
      destruct (audio_head_kind _ _ _ _ Has) as [Hk _].
      rewrite bool_decide_eq_false_2.
      2:{ intros Hin. assert (n ∈ audioTracksOf w l) as Hn
            by (by apply list_elem_of_filter). rewrite Hal in Hn. inversion Hn. }
      split; [done|]. rewrite audioTracksOf_insert, filter_app.
      fold (audioTracksOf w l). rewrite Hal, filter_cons_True by done. done.
    + run. rewrite bool_decide_eq_true_2 by done.
      unfold update_sstate. run.
      erewrite run_bind_ok by apply removeTrack_run. rewrite run_ret.
      unfold J. wsimpl. split; [done|].
      rewrite audioTracksOf_insert, filter_swap.
      change (tracksOf _ l) with (tracksOf w l). fold (audioTracksOf w l).
      rewrite Hal, filter_cons_False by naive_solver. done.
    + unfold setOnended. run.
      destruct (audio_head_kind _ _ _ _ Has) as [Hk _].
      destruct (audio_head_kind _ _ _ _ Hal) as [_ Ha].
      destruct (decide (a = n)) as [->|Hne].
      * rewrite bool_decide_eq_false_2 by naive_solver.
        rewrite addTrack_run. unfold J.
        change (tracksOf _ l) with (tracksOf w l).
        rewrite bool_decide_eq_true_2 by done. wsimpl.
        split; [done|]. change (audioTracksOf _ l) with (audioTracksOf w l).
        by rewrite Hal.
      * rewrite bool_decide_eq_true_2 by congruence.
        unfold update_sstate. run.
        erewrite run_bind_ok by apply removeTrack_run.
        rewrite addTrack_run. unfold J. wsimpl.
        rewrite tracksOf_insert. change (tracksOf _ l) with (tracksOf w l).
        rewrite bool_decide_eq_false_2.
        2:{ intros Hin. apply list_elem_of_filter in Hin as [_ Hin].
            assert (n ∈ audioTracksOf w l) as Hn by (by apply list_elem_of_filter).
            rewrite Hal in Hn. apply list_elem_of_singleton in Hn. congruence. }
        wsimpl. split; [done|].
        rewrite audioTracksOf_insert, filter_app, filter_swap.
        fold (audioTracksOf w l).
        rewrite Hal, filter_cons_False by naive_solver.
        rewrite filter_cons_True by done. done.
  - intros _. unfold J.
    pres_go ltac:(intros ? HJ; exact HJ).
Qed.

Lemma updateLocalAudioStream_at_most_one E l stream cb :
  pres (fun w => localStream (ss w) = Some l /\ length (audioTracksOf w l) ≤ 1)
    (updateLocalAudioStream E stream cb).
Proof.
  intros w [Hl Hle]. destruct stream as [s|].
  - destruct (updateLocalAudioStream_audio_count E w s cb l Hl Hle) as [H1 H2].
    split; [done|]. rewrite H2. destruct (audioTracksOf w s); lia.
  - unfold updateLocalAudioStream. by run.
Qed.

(** ** Scenario lemmas for C10 and C8 *)

(** C10, as stated, fails.  In the muted state the Local Stream (stream 2)
    has one audio track, track 5, which is disabled; after [muteLocalMic]
    and [unmuteLocalMic] it is enabled: the original state is not
    restored. *)
Lemma mute_then_unmute_does_not_restore_a_disabled_track :
  localStream (ss muted) = Some 2 /\
  audioTracksOf muted 2 = [MkTrack Audio 5] /\
  enabled muted (MkTrack Audio 5) = false /\
  enabled (st ((muteLocalMic browser;; unmuteLocalMic browser) muted))
    (MkTrack Audio 5) = true.
Proof. vm_compute. done. Qed.

Lemma mute_then_unmute_enables_all_witness :
  enabled (st ((muteLocalMic browser;; unmuteLocalMic browser) muted))
    (MkTrack Audio 5) = true.
Proof.
  assert (Hl : localStream (ss muted) = Some 2) by reflexivity.
  destruct (mute_then_unmute_enables_all browser muted 2 Hl)
    as (_ & _ & _ & _ & _ & _ & _ & _ & H & _).
  apply H. vm_compute. left.
Defined.

Lemma draw_tick_overlay_1280x720_witness :
  log (fire browser 0 compositing) =
    [EvDrawImage 6 (Some 2) 0 0 1280 720;
     EvDrawImage 6 (Some 4) 1073 15 192 108].
Proof.
  assert (Ht : timers compositing !! 0 = Some (MkTimer (TaskDraw 6 (Some 2) 4) 66))
    by (vm_compute; reflexivity).
  assert (Hm : camera_margin (cfg compositing) = 15%float) by reflexivity.
  assert (Hl : camera_location (cfg compositing) = "top") by reflexivity.
  assert (Hp : camera_percent (cfg compositing) = 15%float) by reflexivity.
  exact (proj2 (proj2 (proj2
    (draw_tick_overlay_1280x720 browser compositing 0 6 2 4 66
       Ht Hm Hl Hp eq_refl eq_refl)))).
Defined.

(** ** C5: the gain a new branch starts at *)

Lemma new_gains_at_refl v w : new_gains_at v w w.
Proof. intros g node H. by left. Qed.

Lemma new_gains_at_createGain v w w' k input :
  new_gains_at v w w' ->
  new_gains_at v w (on_gains <[k := MkGain v input]> w').
Proof.
  intros H g node. wsimpl. rewrite lookup_insert.
  case_decide; [|by apply H]. intros [= <-]. by right.
Qed.

Lemma new_gains_at_setGain v w w' g :
  new_gains_at v w w' ->
  new_gains_at v w
    (on_gains (fun m => match m !! g with
                        | Some n => <[g := MkGain v (gain_input n)]> m
                        | None => m
                        end) w').
Proof.
  intros H g' node. wsimpl. destruct (gains w' !! g) as [n|] eqn:Hg; [|by apply H].
  rewrite lookup_insert. case_decide; [|by apply H]. intros [= <-]. by right.
Qed.

Lemma createGain_run input w :
  createGain input w =
  MkOut (Ok (next_id w)) (on_gains <[next_id w := MkGain 1 input]> (bump_id w)) [].
Proof. unfold createGain. by run. Qed.

Lemma pres_mixAudioStreams_gains w0 stream secondStream :
  pres (new_gains_at 1 w0) (mixAudioStreams stream secondStream).
Proof.
  unfold mixAudioStreams.
  pres_go ltac:(first
    [ intros ? HI; apply (new_gains_at_createGain _ _ _ _ _ HI)
    | intros ? HI; apply (new_gains_at_setGain _ _ _ _ HI)
    | intros ? HI; exact HI
    | intros ? HI; case_bool_decide; exact HI ]).
Qed.

Lemma getMediaConstraints_run w :
  getMediaConstraints w = MkOut (Ok (constraints_now w)) w [].
Proof.
  unfold getMediaConstraints, constraints_now. run.
  by destruct (audioMode (cfg w)).
Qed.

Lemma newTrack_run k w : newTrack k w = MkOut (Ok (MkTrack k (next_id w))) (bump_id w) [].
Proof. unfold newTrack. by run. Qed.

Lemma newStream_run ts w :
  newStream ts w = MkOut (Ok (next_id w)) (on_streams <[next_id w := ts]> (bump_id w)) [].
Proof. unfold newStream. by run. Qed.

Lemma createMediaStreamDestination_run w :
  createMediaStreamDestination w =
  MkOut (Ok (S (next_id w)))
    (on_streams <[S (next_id w) := [MkTrack Audio (next_id w)]]> (bump_id (bump_id w))) [].
Proof.
  unfold createMediaStreamDestination.
  rewrite (run_bind_ok _ _ _ _ _ _ (newTrack_run _ _)). by rewrite newStream_run.
Qed.

Lemma setGain_run g v w :
  setGain g v w =
  MkOut (Ok tt)
    (on_gains (fun m => match m !! g with
                        | Some n => <[g := MkGain v (gain_input n)]> m
                        | None => m
                        end) w) [].
Proof. done. Qed.

(** Rewrite with the equation of the first call of a bind. *)
Ltac run_call :=
  first
    [ rewrite (run_bind_ok _ _ _ _ _ _ (getMediaConstraints_run _))
    | rewrite (run_bind_ok _ _ _ _ _ _ (newTrack_run _ _))
    | rewrite (run_bind_ok _ _ _ _ _ _ (newStream_run _ _))
    | rewrite (run_bind_ok _ _ _ _ _ _ (createMediaStreamDestination_run _))
    | rewrite (run_bind_ok _ _ _ _ _ _ (createGain_run _ _))
    | rewrite (run_bind_ok _ _ _ _ _ _ (setGain_run _ _ _))
    | rewrite (run_bind_ok _ _ _ _ _ _ (addTrack_run _ _ _))
    | rewrite (run_bind_ok _ _ _ _ _ _ (removeTrack_run _ _ _))
    | rewrite (run_bind_ok _ _ _ _ _ _ (stop_run _ _)) ].

Ltac runs := repeat (first [run1 | run_call]; wsimpl).

(** The state updates that leave the gain nodes alone. *)
Ltac gains_kept :=
  first [ intros ? HI; exact HI
        | intros ? HI; case_bool_decide; exact HI ].

Lemma setGainNodeStream_gains stream w :
  new_gains_at (default 1%float (currentVolume (ag w))) w
    (st (setGainNodeStream stream w)).
Proof.
  unfold setGainNodeStream. runs.
  destruct (truthy (mc_audio (constraints_now w))); [|apply new_gains_at_refl].
  destruct stream as [s|]; runs; [|apply new_gains_at_refl].
  destruct (audioTracksOf w s) as [|a ats] eqn:Ha; runs; [apply new_gains_at_refl|].
  unfold update_graph. runs.
  set (v := default 1%float (currentVolume (ag w))).
  assert (Hv : (match currentVolume (ag w) with
                | Some x => setGain (S (S (next_id w))) x
                | None => setGain (S (S (next_id w))) 1
                end) = setGain (S (S (next_id w))) v)
    by (subst v; by destruct (currentVolume (ag w))).
  rewrite Hv. run_call. wsimpl. cbv beta.
  match goal with
  | |- new_gains_at _ _ (st (?m ?w1)) =>
      assert (Hm : pres (new_gains_at v w) m) by pres_go gains_kept;
      apply Hm
  end.
  intros g node. wsimpl. rewrite lookup_insert_eq.
  rewrite !lookup_insert. repeat case_decide; try done.
  - intros [= <-]. by right.
  - by left.
Qed.

(** ** Computations that do not run out of fuel *)

Lemma fueled_ret {A} (a : A) : fueled (mret a : M A).
Proof. by intros w. Qed.
Lemma fueled_throw {A} e : fueled (throw e : M A).
Proof. by intros w. Qed.
Lemma fueled_gets {A} (f : World -> A) : fueled (gets f).
Proof. by intros w. Qed.
Lemma fueled_modify f : fueled (modify f).
Proof. by intros w. Qed.
Lemma fueled_emit e : fueled (emit e).
Proof. by intros w. Qed.
Lemma fueled_require {A} what (o : option A) : fueled (require what o).
Proof. by destruct o; intros w. Qed.

Lemma fueled_bind {A B} (m : M A) (k : A -> M B) :
  fueled m -> (forall a, fueled (k a)) -> fueled (m ≫= k).
Proof.
  intros Hm Hk w. rewrite run_bind. specialize (Hm w).
  destruct (res (m w)); simpl; try done. apply Hk.
Qed.

Lemma fueled_try_catch {A} (m : M A) h :
  fueled m -> (forall e, fueled (h e)) -> fueled (try_catch m h).
Proof.
  intros Hm Hh w. unfold try_catch. specialize (Hm w).
  destruct (res (m w)) eqn:Hr; simpl; rewrite ?Hr; try done. apply Hh.
Qed.

Lemma fueled_detach {A} (m : M A) : fueled m -> fueled (detach m).
Proof.
  intros Hm. apply fueled_try_catch.
  - apply fueled_bind; [done|]. intros _. apply fueled_ret.
  - intros e. apply fueled_emit.
Qed.

Lemma fueled_for_each {A} (l : list A) (f : A -> M unit) :
  (forall x, fueled (f x)) -> fueled (for_each l f).
Proof.
  intros Hf. induction l as [|x l IH]; [apply fueled_ret|].
  rewrite for_each_cons. apply fueled_bind; [apply Hf|]. by intros _.
Qed.

Lemma fueled_newTracks ks : fueled (newTracks ks).
Proof.
  induction ks as [|k ks IH]; [apply fueled_ret|]. cbn [newTracks].
  apply fueled_bind; [|intros t; apply fueled_bind; [done|intros ?; apply fueled_ret]].
  unfold newTrack. apply fueled_bind; [apply fueled_gets|]. intros n.
  apply fueled_bind; [apply fueled_modify|]. intros _. apply fueled_ret.
Qed.

Ltac fueled_step :=
  lazymatch goal with
  | |- fueled (_ ≫= _) => apply fueled_bind; [|intros ?]
  | |- fueled (mret _) => apply fueled_ret
  | |- fueled (gets _) => apply fueled_gets
  | |- fueled (throw _) => apply fueled_throw
  | |- fueled (emit _) => apply fueled_emit
  | |- fueled (require _ _) => apply fueled_require
  | |- fueled (modify _) => apply fueled_modify
  | |- fueled (try_catch _ _) => apply fueled_try_catch; [|intros ?]
  | |- fueled (detach _) => apply fueled_detach
  | |- fueled (when _ _) => unfold when
  | |- fueled (for_each _ _) => apply fueled_for_each; intros ?
  | |- fueled (newTracks _) => apply fueled_newTracks
  | |- fueled (match ?x with _ => _ end) => destruct x
  | |- fueled (match ?x with _ => _ end _) => destruct x; cbv beta
  | |- fueled ?m => let h := head_of m in unfold h
  end.

Lemma returns_ret {A} (Q : A -> Prop) a : Q a -> returns Q (mret a : M A).
Proof. intros H w. by exists a. Qed.

Lemma returns_gets {A} (f : World -> A) : returns (fun _ => True) (gets f).
Proof. intros w. by eexists. Qed.

Lemma returns_modify f : returns (fun _ => True) (modify f).
Proof. intros w. by eexists. Qed.

Lemma returns_emit e : returns (fun _ => True) (emit e).
Proof. intros w. by eexists. Qed.

Lemma returns_weaken {A} (Q : A -> Prop) m : returns Q m -> returns (fun _ => True) m.
Proof. intros H w. destruct (H w) as (a & Ha & _). by exists a. Qed.

Lemma returns_bind {A B} (Q : B -> Prop) (m : M A) (k : A -> M B) :
  returns (fun _ => True) m -> (forall a, returns Q (k a)) -> returns Q (m ≫= k).
Proof.
  intros Hm Hk w. destruct (Hm w) as (a & Ha & _).
  destruct (Hk a (st (m w))) as (b & Hb & HQ).
  exists b. by rewrite run_bind, Ha.
Qed.

Lemma returns_detach {A} (m : M A) : fueled m -> returns (fun _ => True) (detach m).
Proof.
  intros Hm w. unfold detach, try_catch. rewrite run_bind. specialize (Hm w).
  destruct (res (m w)) eqn:Hr; simpl; try done; by eexists.
Qed.

Lemma returns_addTrack s t : returns (fun _ => True) (addTrack s (Some t)).
Proof. intros w. rewrite addTrack_run. by eexists. Qed.

Lemma returns_stop t : returns (fun _ => True) (stop t).
Proof. intros w. rewrite stop_run. by eexists. Qed.

Lemma returns_for_each {A} (l : list A) (f : A -> M unit) :
  (forall x, returns (fun _ => True) (f x)) -> returns (fun _ => True) (for_each l f).
Proof.
  intros Hf. induction l as [|x l IH]; [by apply returns_ret|].
  rewrite for_each_cons. apply returns_bind; [apply Hf|]. by intros _.
Qed.

Ltac returns_step :=
  lazymatch goal with
  | |- returns _ (_ ≫= _) => apply returns_bind; [|intros ?]
  | |- returns _ (mret _) => by apply returns_ret
  | |- returns _ (gets _) => apply returns_gets
  | |- returns _ (getAudioTracks _) => apply returns_gets
  | |- returns _ (getVideoTracks _) => apply returns_gets
  | |- returns _ (modify _) => apply returns_modify
  | |- returns _ (update_sstate _) => apply returns_modify
  | |- returns _ (update_graph _) => apply returns_modify
  | |- returns _ (update_flags _) => apply returns_modify
  | |- returns _ (update_settings _) => apply returns_modify
  | |- returns _ (emit _) => apply returns_emit
  | |- returns _ (addTrack _ (Some _)) => apply returns_addTrack
  | |- returns _ (stop _) => apply returns_stop
  | |- returns _ (for_each _ _) => apply returns_for_each; intros ?
  | |- returns _ (detach _) => apply returns_detach; repeat fueled_step
  | |- returns _ (match ?x with _ => _ end) => destruct x
  | |- returns _ ?m => let h := head_of m in unfold h
  end.

Lemma setGainNodeStream_builds (w : World) (s : StreamRef) :
  truthy (mc_audio (constraints_now w)) = true ->
  audioTracksOf w s ≠ [] ->
  let o := setGainNodeStream (Some s) w in
  exists c g,
    res o = Ok (Some c) /\
    primaryAudioTrackGainNode (ag (st o)) = Some g /\
    gains (st o) !! g = Some (MkGain (default 1%float (currentVolume (ag w))) s).
Proof.
  intros Ht Ha o. subst o. unfold setGainNodeStream. runs. rewrite Ht. runs.
  destruct (audioTracksOf w s) as [|a ats] eqn:Hats; [done|]. runs.
  unfold update_graph. runs.
  set (v := default 1%float (currentVolume (ag w))).
  assert (Hv : (match currentVolume (ag w) with
                | Some x => setGain (S (S (next_id w))) x
                | None => setGain (S (S (next_id w))) 1
                end) = setGain (S (S (next_id w))) v)
    by (subst v; by destruct (currentVolume (ag w))).
  rewrite Hv. run_call. wsimpl. cbv beta.
  set (g := S (S (next_id w))).
  match goal with
  | |- context [res (?m ?w1)] =>
      assert (Hr : returns (fun r => r = Some (S (next_id w))) m)
        by (repeat returns_step);
      assert (Hp : pres (fun w' =>
                primaryAudioTrackGainNode (ag w') = Some g /\
                gains w' !! g = Some (MkGain v s)) m)
        by pres_go ltac:(first [ intros ? HI; exact HI
                               | intros ? HI; case_bool_decide; exact HI ]);
      destruct (Hr w1) as (r & Hres & ->); specialize (Hp w1)
  end.
  exists (S (next_id w)), g. split; [done|]. apply Hp. wsimpl.
  split; [done|]. by rewrite lookup_insert_eq, lookup_insert_eq.
Qed.

Lemma setVolumeLevel_run v w :
  exists w1,
    setVolumeLevel v w = MkOut (Ok tt) w1 [] /\
    settings (this w1) = settings (this w) /\ streams w1 = streams w /\
    currentVolume (ag w1) = Some v.
Proof.
  unfold setVolumeLevel, update_graph. runs.
  destruct (primaryAudioTrackGainNode (ag w)) as [p|]; runs;
    destruct (secondaryAudioTrackGainNode (ag w)) as [q|];
    rewrite ?setGain_run, ?run_ret;
    eexists; (split; [reflexivity|]); by wsimpl.
Qed.

(** C5 (amended).  Every gain node that [setGainNodeStream] creates
    starts at the stored volume ([currentVolume]), or at 1 when no volume
    was ever set; every gain node that [mixAudioStreams] creates starts at
    1, whatever volume is stored; and when a volume [v] is set and then
    [setGainNodeStream] is run on a stream with an audio track while the
    audio constraint is on, it succeeds and the primary gain branch is a
    node at gain [v] fed by that stream. *)
Theorem new_gain_branch_volume :
  forall (w : World) (stream secondStream : option StreamRef),
    new_gains_at (default 1%float (currentVolume (ag w))) w
      (st (setGainNodeStream stream w)) /\
    new_gains_at 1%float w (st (mixAudioStreams stream secondStream w)) /\
    (forall (s : StreamRef) (v : float),
       truthy (mc_audio (constraints_now w)) = true ->
       audioTracksOf w s ≠ [] ->
       let o := (setVolumeLevel v;; setGainNodeStream (Some s)) w in
       exists c g,
         res o = Ok (Some c) /\
         primaryAudioTrackGainNode (ag (st o)) = Some g /\
         gains (st o) !! g = Some (MkGain v s)).
Proof.
  intros w stream secondStream. split; [apply setGainNodeStream_gains|].
  split; [apply pres_mixAudioStreams_gains, new_gains_at_refl|].
  intros s v Ht Ha o. subst o.
  destruct (setVolumeLevel_run v w) as (w1 & Hrun & Hcfg & Hstr & Hvol).
  rewrite (run_bind_ok _ _ _ _ _ _ Hrun), prepend_nil.
  destruct (setGainNodeStream_builds w1 s) as (c & g & Hres & Hp & Hg).
  - unfold constraints_now in *. by rewrite Hcfg.
  - unfold audioTracksOf, tracksOf in *. by rewrite Hstr.
  - exists c, g. rewrite Hvol in Hg. done.
Qed.

(** The spec's scenario: volume 0.4 is set before any audio graph exists,
    then the microphone graph is built. *)
Lemma new_gain_branch_volume_witness :
  exists c g,
    res ((setVolumeLevel 0.4;; setGainNodeStream (Some 1)) microphone_ready)
      = Ok (Some c) /\
    primaryAudioTrackGainNode
      (ag (st ((setVolumeLevel 0.4;; setGainNodeStream (Some 1)) microphone_ready)))
      = Some g /\
    gains (st ((setVolumeLevel 0.4;; setGainNodeStream (Some 1)) microphone_ready)) !! g
      = Some (MkGain 0.4 1).
Proof.
  destruct (new_gain_branch_volume microphone_ready None None) as (_ & _ & H).
  apply (H 1 0.4%float); [reflexivity | vm_compute; discriminate].
Defined.

(** C5, as stated, fails.  With volume 0.4 stored, building the mixed
    graph gives the primary branch (node 11) and the secondary branch
    (node 12) gain 1, not 0.4. *)
Lemma mixed_branches_start_at_unity :
  currentVolume (ag volume_then_share) = Some 0.4%float /\
  primaryAudioTrackGainNode (ag volume_then_share) = Some 11 /\
  gain_value <$> gains volume_then_share !! 11 = Some 1%float /\
  secondaryAudioTrackGainNode (ag volume_then_share) = Some 12 /\
  gain_value <$> gains volume_then_share !! 12 = Some 1%float /\
  PrimFloat.eqb 1 0.4 = false.
Proof. vm_compute. done. Qed.

(** ** Invariants that only look at the timers

    [timer_view] is the part of the state that the timers live in: the
    running timers, the id counter, the three recorded ids and the
    [initialized] flag.  Most methods never touch it, some start the draw
    timer or the blank-frame timer; the lemmas of this section hold for
    every invariant [I] that is stable under exactly that. *)

Lemma setInterval_run t p w :
  setInterval t p w =
  MkOut (Ok (next_timer w))
    (on_timers <[next_timer w := MkTimer t p]> (bump_timer w))
    [EvSetInterval (next_timer w) (MkTimer t p)].
Proof. unfold setInterval. by runs. Qed.

Lemma clearInterval_run id w :
  clearInterval id w = MkOut (Ok tt) (on_timers (delete id) w) [EvClearInterval id].
Proof. unfold clearInterval. by runs. Qed.

Section TimerFrame.
Context (I : World -> Prop).
Hypothesis I_view : forall w w', timer_view w' = timer_view w -> I w -> I w'.
Hypothesis I_draw : forall w canvas screen camera,
  I w ->
  I (on_timers <[next_timer w := MkTimer (TaskDraw canvas screen camera) 66]>
       (bump_timer w)).
Hypothesis I_black : forall w,
  I w -> blackFrameTimer (fl w) = None ->
  I (on_this (on_flags (set_blackFrameTimer (Some (next_timer w))))
       (on_timers <[next_timer w := MkTimer TaskBlackFrame 3000]> (bump_timer w))).
Context (E : Env).

(** A state update that leaves [timer_view] alone. *)
Ltac view_kept :=
  intros ? HI; try case_bool_decide;
  first [ exact HI | refine (I_view _ _ _ HI); reflexivity ].

Ltac frame := pres_go view_kept.

Lemma pres_addTrack s t : pres I (addTrack s t).
Proof using I_view. frame. Qed.
Lemma pres_removeTrack s t : pres I (removeTrack s t).
Proof using I_view. frame. Qed.
Lemma pres_stop t : pres I (stop t).
Proof using I_view. frame. Qed.
Lemma pres_setEnabled b t : pres I (setEnabled b t).
Proof using I_view. frame. Qed.
Lemma pres_setOnended t h : pres I (setOnended t h).
Proof using I_view. frame. Qed.
Lemma pres_newTrack k : pres I (newTrack k).
Proof using I_view. frame. Qed.
Lemma pres_newStream ts : pres I (newStream ts).
Proof using I_view. frame. Qed.
Lemma pres_createGain s : pres I (createGain s).
Proof using I_view. frame. Qed.
Lemma pres_setGain g v : pres I (setGain g v).
Proof using I_view. frame. Qed.
Hint Resolve pres_addTrack pres_removeTrack pres_stop pres_setEnabled
  pres_setOnended pres_newTrack pres_newStream pres_createGain pres_setGain : pres.

Lemma pres_newTracks ks : pres I (newTracks ks).
Proof using I_view. induction ks; simpl; frame. Qed.
Hint Resolve pres_newTracks : pres.

Lemma pres_navigator_getUserMedia mc : pres I (navigator_getUserMedia E mc).
Proof using I_view. frame. Qed.
Lemma pres_navigator_getDisplayMedia mc : pres I (navigator_getDisplayMedia E mc).
Proof using I_view. frame. Qed.
Lemma pres_navigator_enumerateDevices : pres I (navigator_enumerateDevices E).
Proof using I_view. frame. Qed.
Lemma pres_replaceTrack s t : pres I (replaceTrack E s t).
Proof using I_view. frame. Qed.
Lemma pres_callbackError n : pres I (callbackError E n).
Proof using I_view. frame. Qed.
Lemma pres_getMediaConstraints : pres I getMediaConstraints.
Proof using I_view. frame. Qed.
Hint Resolve pres_navigator_getUserMedia pres_navigator_getDisplayMedia
  pres_navigator_enumerateDevices pres_replaceTrack pres_callbackError
  pres_getMediaConstraints : pres.

Lemma pres_gotStream s : pres I (gotStream s).
Proof using I_view. frame. Qed.
Lemma pres_muteLocalMic : pres I (muteLocalMic E).
Proof using I_view. frame. Qed.
Lemma pres_unmuteLocalMic : pres I (unmuteLocalMic E).
Proof using I_view. frame. Qed.
Lemma pres_connectSoundMeterToLocalStream : pres I (connectSoundMeterToLocalStream E).
Proof using I_view. frame. Qed.
Lemma pres_refreshLocalVideo : pres I refreshLocalVideo.
Proof using I_view. frame. Qed.
Hint Resolve pres_gotStream pres_muteLocalMic pres_unmuteLocalMic
  pres_connectSoundMeterToLocalStream pres_refreshLocalVideo : pres.

Lemma pres_updateLocalAudioStream s cb : pres I (updateLocalAudioStream E s cb).
Proof using I_view. frame. Qed.
Lemma pres_updateLocalVideoStream s cb d : pres I (updateLocalVideoStream s cb d).
Proof using I_view. frame. Qed.
Hint Resolve pres_updateLocalAudioStream pres_updateLocalVideoStream : pres.

Lemma pres_updateAudioTrack s id cb : pres I (updateAudioTrack E s id cb).
Proof using I_view. frame. Qed.
Lemma pres_updateVideoTrack s id cb d : pres I (updateVideoTrack E s id cb d).
Proof using I_view. frame. Qed.
Lemma pres_initializeDummyFrame : pres I initializeDummyFrame.
Proof using I_view. frame. Qed.
Hint Resolve pres_updateAudioTrack pres_updateVideoTrack pres_initializeDummyFrame : pres.

(** The last statement of [turnOffLocalCamera]. *)
Lemma pres_start_blackFrameTimer :
  pres I
    (b ← gets (fun w => blackFrameTimer (fl w));
     match b with
     | None =>
         t ← setInterval TaskBlackFrame 3000;
         update_flags (set_blackFrameTimer (Some t))
     | Some _ => mret tt
     end).
Proof using I_black.
  intros w HI. run1. destruct (blackFrameTimer (fl w)) eqn:Hb; [done|].
  rewrite (run_bind_ok _ _ _ _ _ _ (setInterval_run _ _ _)). wsimpl.
  by apply I_black.
Qed.
Hint Resolve pres_start_blackFrameTimer : pres.

Lemma pres_turnOffLocalCamera id : pres I (turnOffLocalCamera E id).
Proof using I_view I_black. frame. Qed.
Hint Resolve pres_turnOffLocalCamera : pres.

Lemma pres_getUserMedia mc c : pres I (getUserMedia E mc c).
Proof using I_view. frame. Qed.
Lemma pres_setGainNodeStream s : pres I (setGainNodeStream s).
Proof using I_view. frame. Qed.
Lemma pres_mixAudioStreams s s2 : pres I (mixAudioStreams s s2).
Proof using I_view. frame. Qed.
Hint Resolve pres_getUserMedia pres_setGainNodeStream pres_mixAudioStreams : pres.

Lemma pres_prepareAudioStream d c : pres I (prepareAudioStream E d c).
Proof using I_view. frame. Qed.
Hint Resolve pres_prepareAudioStream : pres.

Lemma pres_setAudioInputSource id mc cb : pres I (setAudioInputSource E id mc cb).
Proof using I_view. frame. Qed.
Hint Resolve pres_setAudioInputSource : pres.

Lemma pres_switchAudioInputSource id d : pres I (switchAudioInputSource E id d).
Proof using I_view. frame. Qed.

Lemma pres_setVideoCameraSource id mc cb d : pres I (setVideoCameraSource E id mc cb d).
Proof using I_view I_black. frame. Qed.
Hint Resolve pres_setVideoCameraSource : pres.

Lemma pres_switchVideoCameraCapture id d : pres I (switchVideoCameraCapture E id d).
Proof using I_view I_black. frame. Qed.
Hint Resolve pres_switchVideoCameraCapture : pres.

Lemma pres_switchVideoCameraFacingMode id f : pres I (switchVideoCameraFacingMode E id f).
Proof using I_view I_black. frame. Qed.

Lemma pres_setInterval_draw canvas screen camera :
  pres I (setInterval (TaskDraw canvas screen camera) 66).
Proof using I_draw. intros w HI. rewrite setInterval_run. by apply I_draw. Qed.
Hint Resolve pres_setInterval_draw : pres.

Lemma pres_setDesktopWithCameraSource s id cb :
  pres I (setDesktopWithCameraSource E s id cb).
Proof using I_view I_draw. frame. Qed.
Hint Resolve pres_setDesktopWithCameraSource : pres.

Lemma pres_prepareStreamTracks c d id : pres I (prepareStreamTracks E c d id).
Proof using I_view I_draw. frame. Qed.
Hint Resolve pres_prepareStreamTracks : pres.

Lemma pres_prepareStream s id : pres I (prepareStream E s id).
Proof using I_view I_draw. frame. Qed.
Hint Resolve pres_prepareStream : pres.

Lemma pres_getDisplayMedia_body rec mc :
  (forall m i, pres I (rec m i)) -> pres I (getDisplayMedia_body E rec mc).
Proof using I_view I_black. intros Hrec. unfold getDisplayMedia_body. frame. Qed.

Lemma pres_getMedia_body rec mc :
  (forall m i, pres I (rec m i)) -> pres I (getMedia_body E rec mc).
Proof using I_view I_black.
  intros Hrec. unfold getMedia_body.
  pose proof (pres_getDisplayMedia_body rec mc Hrec). frame.
Qed.

Lemma pres_openStream fuel mc id : pres I (openStream E fuel mc id).
Proof using I_view I_black I_draw.
  revert mc id. induction fuel as [|fuel IH]; intros mc id; simpl; [frame|].
  assert (forall m, pres I (getMedia_body E (openStream E fuel) m))
    by (intros m; by apply pres_getMedia_body).
  frame.
Qed.
Hint Resolve pres_openStream : pres.

Lemma pres_getDisplayMedia fuel mc : pres I (getDisplayMedia E fuel mc).
Proof using I_view I_black I_draw.
  apply pres_getDisplayMedia_body. intros. apply pres_openStream.
Qed.

Lemma pres_getMedia fuel mc : pres I (getMedia E fuel mc).
Proof using I_view I_black I_draw.
  apply pres_getMedia_body. intros. apply pres_openStream.
Qed.
Hint Resolve pres_getMedia : pres.

Lemma pres_switchDesktopCapture fuel id : pres I (switchDesktopCapture E fuel id).
Proof using I_view I_black I_draw. frame. Qed.

Lemma pres_switchDesktopCaptureWithCamera fuel id :
  pres I (switchDesktopCaptureWithCamera E fuel id).
Proof using I_view I_black I_draw. frame. Qed.

Lemma pres_setVolumeLevel v : pres I (setVolumeLevel v).
Proof using I_view. frame. Qed.

Lemma pres_getDevices fuel : pres I (getDevices E fuel).
Proof using I_view I_black I_draw. frame. Qed.

Lemma pres_checkWebRTCPermissions : pres I (checkWebRTCPermissions E).
Proof using I_view. frame. Qed.

Lemma pres_drawTick canvas screen camera : pres I (drawTick E canvas screen camera).
Proof using I_view. frame. Qed.

End TimerFrame.

(** ** The first event of a computation *)

Lemma log_bind_cons {A B} (m : M A) (k : A -> M B) w e r :
  log (m w) = e :: r -> exists r', log ((m ≫= k) w) = e :: r'.
Proof.
  intros H. rewrite run_bind. destruct (res (m w)); simpl; rewrite H; by eexists.
Qed.

Lemma stop_first {B} t (k : unit -> M B) w :
  exists r, log ((stop t ≫= k) w) = EvStop t :: r.
Proof. apply log_bind_cons with (r := []). by rewrite stop_run. Qed.

(** ** C4: the fallback of [getDisplayMedia] *)

Lemma navigator_getDisplayMedia_log E mc w :
  exists r, log (navigator_getDisplayMedia E mc w) = EvGetDisplayMedia mc :: r.
Proof.
  unfold navigator_getDisplayMedia. rewrite run_emit_bind. wsimpl. by eexists.
Qed.

Lemma navigator_getDisplayMedia_refused E mc w e :
  displayMedia E (clock w) mc = Refused e ->
  navigator_getDisplayMedia E mc w =
  MkOut (Thrown e) (bump_clock w) [EvGetDisplayMedia mc].
Proof.
  intros H. unfold navigator_getDisplayMedia. runs. by rewrite H.
Qed.

Lemma try_catch_thrown {A} (m : M A) h w e w' l :
  m w = MkOut (Thrown e) w' l -> try_catch m h w = prepend l (h e w').
Proof. intros H. unfold try_catch. by rewrite H. Qed.

Lemma log_try_catch_cons {A} (m : M A) h w e r :
  log (m w) = e :: r -> exists r', log (try_catch m h w) = e :: r'.
Proof.
  intros H. unfold try_catch. destruct (res (m w)); simpl; rewrite H; by eexists.
Qed.

Lemma callbackError_run E n w :
  callbackError E n w = MkOut (Ok (callbackError_false E n)) w [EvCallbackError n].
Proof. unfold callbackError. by runs. Qed.

(** C4, on the code.  Let the screen-share request be denied
    (NotAllowedError) and callbackError not return false.  If a Local
    Stream is active and the page defines no global [streamId], the call
    fails with ReferenceError "streamId" right after the callback: no
    switch to the camera is made.  If no Local Stream is active and the
    publish mode is 'screen' or 'screen+camera' (the modes in which
    [getMedia] reaches [getDisplayMedia]), the next request is a
    screen-share request again, with {video: true, audio: true} (audio
    false when the audio mode is off), not a getUserMedia request. *)
Theorem denied_screen_share_fallback :
  forall (E : Env) (fuel : nat) (mc : MediaConstraints) (w : World),
    displayMedia E (clock w) mc = Refused (DOMException "NotAllowedError") ->
    callbackError_false E "ScreenSharePermissionDenied" = false ->
    (forall l, localStream (ss w) = Some l -> window_streamId E = None ->
       getDisplayMedia E fuel mc w =
       MkOut (Thrown (ReferenceError "streamId")) (bump_clock w)
         [EvGetDisplayMedia mc; EvCallbackError "ScreenSharePermissionDenied"]) /\
    (localStream (ss w) = None ->
     publishMode (cfg w) = PMScreen \/ publishMode (cfg w) = PMScreenCamera ->
     exists rest,
       log (getDisplayMedia E (S fuel) mc w) =
       EvGetDisplayMedia mc :: EvCallbackError "ScreenSharePermissionDenied"
         :: EvGetDisplayMedia (fallback_request w) :: rest).
Proof.
  intros E fuel mc w Hden Hveto.
  assert (Hnav : (s ← navigator_getDisplayMedia E mc; mret (Some s)) w =
                 MkOut (Thrown (DOMException "NotAllowedError")) (bump_clock w)
                   [EvGetDisplayMedia mc]).
  { by rewrite run_bind, (navigator_getDisplayMedia_refused _ _ _ _ Hden). }
  split.
  - intros l Hl Hid. unfold getDisplayMedia, getDisplayMedia_body.
    rewrite (try_catch_thrown _ _ _ _ _ _ Hnav). cbn [error_name String.eqb Ascii.eqb Bool.eqb].
    rewrite (run_bind_ok _ _ _ _ _ _ (callbackError_run _ _ _)), Hveto.
    runs. rewrite Hl. unfold free_streamId. rewrite Hid. by runs.
  - intros Hl Hpm. unfold getDisplayMedia, getDisplayMedia_body.
    rewrite (try_catch_thrown _ _ _ _ _ _ Hnav). cbn [error_name String.eqb Ascii.eqb Bool.eqb].
    rewrite (run_bind_ok _ _ _ _ _ _ (callbackError_run _ _ _)), Hveto.
    runs. rewrite Hl. cbn [openStream]. unfold update_settings. runs.
    assert (Hreq : constraints_now
              (on_this (on_settings
                 (set_mediaConstraints (Some (MkMC (CBool true) (CBool true)))))
                 (bump_clock w)) = fallback_request w).
    { unfold constraints_now, fallback_request. wsimpl.
      by destruct (audioMode (cfg w)). }
    rewrite Hreq. cbn [mc_video fallback_request].
    unfold getMedia_body. runs.
    assert (Hbody : forall w1, exists r,
              log (getDisplayMedia_body E (openStream E fuel) (fallback_request w) w1)
              = EvGetDisplayMedia (fallback_request w) :: r).
    { intros w1. unfold getDisplayMedia_body.
      destruct (navigator_getDisplayMedia_log E (fallback_request w) w1) as [r Hr].
      destruct (log_bind_cons (navigator_getDisplayMedia E (fallback_request w))
                  (fun s => mret (Some s)) w1 _ _ Hr) as [r' Hr'].
      eapply log_try_catch_cons. exact Hr'. }
    destruct Hpm as [Hpm|Hpm]; rewrite Hpm;
      match goal with
      | |- context [(getDisplayMedia_body _ _ _ ≫= ?k) ?w1] =>
          destruct (Hbody w1) as [r Hr];
          destruct (log_bind_cons _ k w1 _ _ Hr) as [r' Hr']
      end; rewrite Hr'; by eexists.
Qed.

(** ** Every call keeps an invariant of the timers

    Given that the methods that cancel or record a timer keep [I]. *)

Section Calls.
Context (I : World -> Prop).
Hypothesis I_view : forall w w', timer_view w' = timer_view w -> I w -> I w'.
Hypothesis I_draw : forall w canvas screen camera,
  I w ->
  I (on_timers <[next_timer w := MkTimer (TaskDraw canvas screen camera) 66]>
       (bump_timer w)).
Hypothesis I_black : forall w,
  I w -> blackFrameTimer (fl w) = None ->
  I (on_this (on_flags (set_blackFrameTimer (Some (next_timer w))))
       (on_timers <[next_timer w := MkTimer TaskBlackFrame 3000]> (bump_timer w))).
Context (E : Env).
Hypothesis I_closeStream : pres I closeStream.
Hypothesis I_enableAudioLevelForLocalStream :
  forall p, pres I (enableAudioLevelForLocalStream E p).
Hypothesis I_enableAudioLevelWhenMuted : pres I (enableAudioLevelWhenMuted E).
Hypothesis I_disableAudioLevelWhenMuted : pres I disableAudioLevelWhenMuted.
Hypothesis I_initialize : forall fuel, pres I (initialize E fuel).

Lemma pres_fire id : pres I (fire E id).
Proof using I_view.
  unfold fire. apply pres_bind; [apply pres_gets|]. intros [tm|]; [|apply pres_ret].
  destruct (t_task tm).
  - by apply pres_drawTick.
  - by apply pres_initializeDummyFrame.
  - apply pres_emit.
  - apply pres_when. apply pres_emit.
Qed.

(** [initialize], for an invariant that does not look at [initialized]. *)
Lemma pres_initialize fuel :
  (forall w, I w -> I (on_this (on_flags (set_initialized true)) w)) ->
  pres I (initialize E fuel).
Proof using I_view I_draw I_black.
  intros I_initialized.
  unfold initialize. apply pres_bind; [apply pres_gets|]. intros [|]; [|apply pres_ret].
  apply pres_bind; [by apply pres_checkWebRTCPermissions|]. intros _.
  apply pres_bind; [by apply pres_getDevices|]. intros _.
  apply pres_bind; [apply pres_emit|]. intros _.
  apply pres_bind; [|intros _; apply pres_ret].
  apply pres_modify. exact I_initialized.
Qed.

Lemma pres_call c :
  (forall id, c = TurnOnLocalCamera id -> pres I (turnOnLocalCamera E id)) ->
  pres I (call E c).
Proof using All.
  intros Hon.
  destruct c; cbn [call];
    try (apply pres_bind; [|intros ?; apply pres_ret]).
  - by apply pres_openStream.
  - done.
  - by apply pres_switchDesktopCapture.
  - by apply pres_switchDesktopCaptureWithCamera.
  - by apply pres_switchAudioInputSource.
  - by apply pres_switchVideoCameraCapture.
  - by apply pres_switchVideoCameraFacingMode.
  - by apply pres_setAudioInputSource.
  - by apply pres_setVideoCameraSource.
  - by apply pres_updateAudioTrack.
  - by apply pres_updateVideoTrack.
  - by apply pres_getUserMedia.
  - by apply pres_getDisplayMedia.
  - by apply pres_turnOffLocalCamera.
  - by apply Hon.
  - by apply pres_muteLocalMic.
  - by apply pres_unmuteLocalMic.
  - by apply pres_setVolumeLevel.
  - done.
  - done.
  - done.
  - done.
  - by apply pres_getDevices.
  - by apply pres_fire.
Qed.

End Calls.

(** ** The timers stay well formed *)

Lemma wf_view w w' : timer_view w' = timer_view w -> timers_wf w -> timers_wf w'.
Proof.
  unfold timer_view, timers_wf. intros [= Ht Hn Hi Hb Hm Hs].
  by rewrite Ht, Hn, Hb, Hm, Hs.
Qed.

(** A timer that is started with a fresh id and whose task is not the
    blank-frame task, the ids recorded being left as they are. *)
Lemma wf_setInterval w t p :
  t ≠ TaskBlackFrame -> timers_wf w ->
  timers_wf (on_timers <[next_timer w := MkTimer t p]> (bump_timer w)).
Proof.
  intros Ht (H1 & H2 & H3 & H4 & H5). unfold timers_wf. wsimpl. split_and!.
  - intros id tm. rewrite lookup_insert. case_decide; [lia|].
    intros Htm. apply H1 in Htm. lia.
  - intros id Hb. specialize (H2 id Hb). rewrite lookup_insert_ne; [done|].
    apply H1 in H2. lia.
  - intros id tm. rewrite lookup_insert. case_decide; [|by apply H3].
    by intros [= <-].
  - intros id Hs. destruct (H4 id Hs) as [Hlt Htm]. split; [lia|].
    intros tm. rewrite lookup_insert_ne by lia. apply Htm.
  - intros id Hs. destruct (H5 id Hs) as [Hlt Htm]. split; [lia|].
    intros tm. rewrite lookup_insert_ne by lia. apply Htm.
Qed.

Lemma wf_draw w canvas screen camera :
  timers_wf w ->
  timers_wf (on_timers <[next_timer w := MkTimer (TaskDraw canvas screen camera) 66]>
               (bump_timer w)).
Proof. by apply wf_setInterval. Qed.

Lemma wf_black w :
  timers_wf w -> blackFrameTimer (fl w) = None ->
  timers_wf
    (on_this (on_flags (set_blackFrameTimer (Some (next_timer w))))
       (on_timers <[next_timer w := MkTimer TaskBlackFrame 3000]> (bump_timer w))).
Proof.
  intros (H1 & H2 & H3 & H4 & H5) Hb. unfold timers_wf. wsimpl. split_and!.
  - intros id tm. rewrite lookup_insert. case_decide; [lia|].
    intros Htm. apply H1 in Htm. lia.
  - intros id [= <-]. by rewrite lookup_insert_eq.
  - intros id tm. rewrite lookup_insert. case_decide; [by subst|].
    intros Htm Htask. specialize (H3 _ _ Htm Htask). congruence.
  - intros id Hs. destruct (H4 id Hs) as [Hlt Htm]. split; [lia|].
    intros tm. rewrite lookup_insert_ne by lia. apply Htm.
  - intros id Hs. destruct (H5 id Hs) as [Hlt Htm]. split; [lia|].
    intros tm. rewrite lookup_insert_ne by lia. apply Htm.
Qed.

(** Cancelling a timer that is not the blank-frame timer. *)
Lemma wf_delete w id :
  timers_wf w ->
  (forall tm, timers w !! id = Some tm -> t_task tm ≠ TaskBlackFrame) ->
  timers_wf (on_timers (delete id) w).
Proof.
  intros (H1 & H2 & H3 & H4 & H5) Hid. unfold timers_wf. wsimpl. split_and!.
  - intros i tm Htm. apply lookup_delete_Some in Htm as [_ Htm]. eauto.
  - intros i Hb. specialize (H2 i Hb). rewrite lookup_delete_ne; [done|].
    intros ->. by apply (Hid _ H2).
  - intros i tm Htm. apply lookup_delete_Some in Htm as [_ Htm]. eauto.
  - intros i Hs. destruct (H4 i Hs) as [Hlt Hi]. split; [done|].
    intros tm Htm. apply lookup_delete_Some in Htm as [_ Htm]. eauto.
  - intros i Hs. destruct (H5 i Hs) as [Hlt Hi]. split; [done|].
    intros tm Htm. apply lookup_delete_Some in Htm as [_ Htm]. eauto.
Qed.

(** Cancelling the blank-frame timer and forgetting its id. *)
Lemma wf_cancel_black w id :
  timers_wf w -> blackFrameTimer (fl w) = Some id ->
  timers_wf (on_this (on_flags (set_blackFrameTimer None)) (on_timers (delete id) w)).
Proof.
  intros (H1 & H2 & H3 & H4 & H5) Hb. unfold timers_wf. wsimpl. split_and!.
  - intros i tm Htm. apply lookup_delete_Some in Htm as [_ Htm]. eauto.
  - done.
  - intros i tm Htm Htask. apply lookup_delete_Some in Htm as [Hne Htm].
    specialize (H3 _ _ Htm Htask). congruence.
  - intros i Hs. destruct (H4 i Hs) as [Hlt Hi]. split; [done|].
    intros tm Htm. apply lookup_delete_Some in Htm as [_ Htm]. eauto.
  - intros i Hs. destruct (H5 i Hs) as [Hlt Hi]. split; [done|].
    intros tm Htm. apply lookup_delete_Some in Htm as [_ Htm]. eauto.
Qed.

Lemma wf_set_soundLevel w o :
  timers_wf w ->
  (forall id, o = Some id ->
     id < next_timer w /\
     forall tm, timers w !! id = Some tm -> t_task tm = TaskSoundLevel) ->
  timers_wf (on_this (on_flags (set_soundLevelProviderId o)) w).
Proof. intros (H1 & H2 & H3 & H4 & H5) Ho. unfold timers_wf. wsimpl. by split_and!. Qed.

Lemma wf_set_meterRefresh w o :
  timers_wf w ->
  (forall id, o = Some id ->
     id < next_timer w /\
     forall tm, timers w !! id = Some tm -> t_task tm = TaskMeterRefresh) ->
  timers_wf (on_this (on_flags (set_meterRefresh o)) w).
Proof. intros (H1 & H2 & H3 & H4 & H5) Ho. unfold timers_wf. wsimpl. by split_and!. Qed.

Ltac wf_kept :=
  intros ? HI; try case_bool_decide;
  first [ exact HI | refine (wf_view _ _ _ HI); reflexivity ].

(** The methods that leave the timers alone, from the section above. *)
Ltac wf_known :=
  lazymatch goal with
  | |- pres _ (stop _) => apply (pres_stop _ wf_view)
  | |- pres _ (getUserMedia _ _ _) => apply (pres_getUserMedia _ wf_view)
  | |- pres _ (navigator_getUserMedia _ _) =>
      apply (pres_navigator_getUserMedia _ wf_view)
  | |- pres _ (updateVideoTrack _ _ _ _ _) => apply (pres_updateVideoTrack _ wf_view)
  | |- pres _ (gotStream _) => apply (pres_gotStream _ wf_view)
  | |- pres _ getMediaConstraints => apply (pres_getMediaConstraints _ wf_view)
  | |- pres _ (connectSoundMeterToLocalStream _) =>
      apply (pres_connectSoundMeterToLocalStream _ wf_view)
  end.

(** A step of a proof that a method keeps [timers_wf]; [block] applies
    the lemma for the part of the method that cancels or records a
    timer. *)
Ltac wf_step block :=
  first
    [ lazymatch goal with
      | |- pres _ (gets (fun w => soundLevelProviderId (fl w)) ≫= _) => block
      | |- pres _ (gets (fun w => blackFrameTimer (fl w)) ≫= _) => block
      | |- pres _ (gets (fun w => meterRefresh (fl w)) ≫= _) => block
      | |- pres _ (setInterval _ _ ≫= _) => block
      end
    | wf_known
    | pres_step ltac:(idtac; wf_kept) ].

(** The end of [closeStream]. *)
Lemma wf_clear_soundLevel (k : M unit) :
  pres timers_wf k ->
  pres timers_wf
    (sl ← gets (fun w => soundLevelProviderId (fl w));
     match sl with
     | Some id => clearInterval id;; update_flags (set_soundLevelProviderId None)
     | None => mret tt
     end;;
     k).
Proof.
  intros Hk w Hw. run1.
  destruct (soundLevelProviderId (fl w)) as [id|] eqn:Hs; [|run1; by apply Hk].
  rewrite run_bind_assoc, (run_bind_ok _ _ _ _ _ _ (clearInterval_run _ _)).
  unfold update_flags. runs. apply Hk.
  apply wf_set_soundLevel; [|done].
  apply wf_delete; [done|]. intros tm Htm.
  destruct Hw as (_ & _ & _ & H4 & _). destruct (H4 id Hs) as [_ Ht].
  by rewrite (Ht tm Htm).
Qed.

Lemma wf_closeStream : pres timers_wf closeStream.
Proof.
  unfold closeStream.
  repeat wf_step ltac:(idtac; apply wf_clear_soundLevel).
Qed.

(** The start of [turnOnLocalCamera], after it has read the constraints. *)
Lemma wf_clear_blackFrame {A} (k : M A) :
  pres timers_wf k ->
  pres timers_wf
    (b ← gets (fun w => blackFrameTimer (fl w));
     match b with
     | Some t => clearInterval t;; update_flags (set_blackFrameTimer None)
     | None => mret tt
     end;;
     k).
Proof.
  intros Hk w Hw. run1.
  destruct (blackFrameTimer (fl w)) as [id|] eqn:Hb; [|run1; by apply Hk].
  rewrite run_bind_assoc, (run_bind_ok _ _ _ _ _ _ (clearInterval_run _ _)).
  unfold update_flags. runs. apply Hk. by apply wf_cancel_black.
Qed.

Lemma wf_turnOnLocalCamera E id : pres timers_wf (turnOnLocalCamera E id).
Proof.
  unfold turnOnLocalCamera.
  repeat wf_step ltac:(idtac; apply wf_clear_blackFrame).
Qed.

Lemma wf_record_soundLevel p :
  pres timers_wf
    (id ← setInterval TaskSoundLevel p;
     update_flags (set_soundLevelProviderId (Some id))).
Proof.
  intros w Hw. rewrite (run_bind_ok _ _ _ _ _ _ (setInterval_run _ _ _)).
  unfold update_flags. wsimpl.
  apply wf_set_soundLevel; [by apply wf_setInterval|].
  intros id [= <-]. wsimpl. split; [lia|].
  rewrite lookup_insert_eq. by intros tm [= <-].
Qed.

Lemma wf_enableAudioLevelForLocalStream E p :
  pres timers_wf (enableAudioLevelForLocalStream E p).
Proof.
  unfold enableAudioLevelForLocalStream.
  repeat wf_step ltac:(idtac; apply wf_record_soundLevel).
Qed.

Lemma wf_record_meterRefresh :
  pres timers_wf
    (id ← setInterval TaskMeterRefresh 200;
     update_flags (set_meterRefresh (Some id))).
Proof.
  intros w Hw. rewrite (run_bind_ok _ _ _ _ _ _ (setInterval_run _ _ _)).
  unfold update_flags. wsimpl.
  apply wf_set_meterRefresh; [by apply wf_setInterval|].
  intros id [= <-]. wsimpl. split; [lia|].
  rewrite lookup_insert_eq. by intros tm [= <-].
Qed.

Lemma wf_enableAudioLevelWhenMuted E : pres timers_wf (enableAudioLevelWhenMuted E).
Proof.
  unfold enableAudioLevelWhenMuted.
  repeat wf_step ltac:(idtac; apply wf_record_meterRefresh).
Qed.

Lemma wf_clear_meterRefresh (k : M unit) :
  pres timers_wf k ->
  pres timers_wf
    (r ← gets (fun w => meterRefresh (fl w));
     match r with
     | Some id => clearInterval id
     | None => mret tt
     end;;
     k).
Proof.
  intros Hk w Hw. run1.
  destruct (meterRefresh (fl w)) as [id|] eqn:Hs; [|run1; by apply Hk].
  rewrite (run_bind_ok _ _ _ _ _ _ (clearInterval_run _ _)). wsimpl. apply Hk.
  apply wf_delete; [done|]. intros tm Htm.
  destruct Hw as (_ & _ & _ & _ & H5). destruct (H5 id Hs) as [_ Ht].
  by rewrite (Ht tm Htm).
Qed.

Lemma wf_disableAudioLevelWhenMuted : pres timers_wf disableAudioLevelWhenMuted.
Proof.
  unfold disableAudioLevelWhenMuted.
  repeat wf_step ltac:(idtac; apply wf_clear_meterRefresh).
Qed.

Lemma wf_kept_initialized w :
  timers_wf w -> timers_wf (on_this (on_flags (set_initialized true)) w).
Proof. intros H. exact H. Qed.

Lemma wf_call E c : pres timers_wf (call E c).
Proof.
  apply pres_call.
  - apply wf_view.
  - apply wf_draw.
  - apply wf_black.
  - apply wf_closeStream.
  - apply wf_enableAudioLevelForLocalStream.
  - apply wf_enableAudioLevelWhenMuted.
  - apply wf_disableAudioLevelWhenMuted.
  - intros fuel. apply pres_initialize;
      [apply wf_view | apply wf_draw | apply wf_black | apply wf_kept_initialized].
  - intros id _. apply wf_turnOnLocalCamera.
Qed.

(** ** Invariants of the [initialized] flag and of the recorded
    blank-frame timer *)

Section FlagInvariant.
Context (P : bool -> option TimerId -> Prop).

Lemma flag_view w w' : timer_view w' = timer_view w -> flag_inv P w -> flag_inv P w'.
Proof. unfold timer_view, flag_inv. intros [= _ _ Hi Hb _ _]. by rewrite Hi, Hb. Qed.

Lemma flag_draw w canvas screen camera :
  flag_inv P w ->
  flag_inv P (on_timers <[next_timer w := MkTimer (TaskDraw canvas screen camera) 66]>
              (bump_timer w)).
Proof. intros H. exact H. Qed.

Ltac flag_step :=
  first
    [ lazymatch goal with
      | |- pres _ (stop _) => apply (pres_stop _ flag_view)
      | |- pres _ (navigator_getUserMedia _ _) =>
          apply (pres_navigator_getUserMedia _ flag_view)
      | |- pres _ (connectSoundMeterToLocalStream _) =>
          apply (pres_connectSoundMeterToLocalStream _ flag_view)
      end
    | pres_step ltac:(idtac; intros ? HI; exact HI) ].

Lemma flag_closeStream : pres (flag_inv P) closeStream.
Proof. unfold closeStream. repeat flag_step. Qed.

Lemma flag_enableAudioLevelForLocalStream E p :
  pres (flag_inv P) (enableAudioLevelForLocalStream E p).
Proof. unfold enableAudioLevelForLocalStream. repeat flag_step. Qed.

Lemma flag_enableAudioLevelWhenMuted E : pres (flag_inv P) (enableAudioLevelWhenMuted E).
Proof. unfold enableAudioLevelWhenMuted. repeat flag_step. Qed.

Lemma flag_disableAudioLevelWhenMuted : pres (flag_inv P) disableAudioLevelWhenMuted.
Proof. unfold disableAudioLevelWhenMuted. repeat flag_step. Qed.

End FlagInvariant.

Lemma never_initialized_call E c : pres never_initialized (call E c).
Proof.
  apply pres_call.
  - apply flag_view.
  - apply flag_draw.
  - intros w H _. exact H.
  - apply flag_closeStream.
  - apply flag_enableAudioLevelForLocalStream.
  - apply flag_enableAudioLevelWhenMuted.
  - apply flag_disableAudioLevelWhenMuted.
  - intros fuel w Hw. unfold initialize. run1.
    unfold never_initialized, flag_inv in Hw. by rewrite Hw.
  - intros id _. unfold turnOnLocalCamera.
    repeat (first
      [ lazymatch goal with
        | |- pres _ (getUserMedia _ _ _) => apply (pres_getUserMedia _ (flag_view _))
        | |- pres _ (updateVideoTrack _ _ _ _ _) =>
            apply (pres_updateVideoTrack _ (flag_view _))
        | |- pres _ (gotStream _) => apply (pres_gotStream _ (flag_view _))
        | |- pres _ getMediaConstraints =>
            apply (pres_getMediaConstraints _ (flag_view _))
        end
      | pres_step ltac:(idtac; intros ? HI; exact HI) ]).
Qed.

Lemma black_recorded_call E t c :
  is_turnOn c = false -> pres (black_recorded t) (call E c).
Proof.
  intros Hc. apply pres_call.
  - apply flag_view.
  - apply flag_draw.
  - intros w H Hn. unfold black_recorded, flag_inv in H. congruence.
  - apply flag_closeStream.
  - apply flag_enableAudioLevelForLocalStream.
  - apply flag_enableAudioLevelWhenMuted.
  - apply flag_disableAudioLevelWhenMuted.
  - intros fuel. apply pres_initialize.
    + apply flag_view.
    + apply flag_draw.
    + intros w H Hn. unfold black_recorded, flag_inv in H. congruence.
    + intros w H. exact H.
  - intros id ->. discriminate.
Qed.

(** ** Sequences of calls *)

Lemma pres_after_calls (I : World -> Prop) E calls :
  (forall c, pres I (call E c)) -> forall w, I w -> I (after_calls E calls w).
Proof.
  intros Hc. induction calls as [|c calls IH]; intros w Hw; [done|].
  cbn [after_calls]. apply IH. by apply Hc.
Qed.

Lemma pres_after_calls_Forall (I : World -> Prop) E calls :
  Forall (fun c => pres I (call E c)) calls ->
  forall w, I w -> I (after_calls E calls w).
Proof.
  induction 1 as [|c calls Hc Hcs IH]; intros w Hw; [done|].
  cbn [after_calls]. apply IH. by apply Hc.
Qed.

(** ** C6: [initialize] on a fresh instance *)

(** C6.  For every freshly constructed MediaManager (any user parameters,
    any platform state, any environment), [initialize()] returns [false],
    takes no action at all (no permission check, no device enumeration, no
    listener registration: its log is empty) and leaves the state as the
    constructor left it, with [initialized] still [false].  And
    [initialized] is never set by anything else: after any sequence of
    calls of the methods, [initialized] is still [false] and
    [initialize()] again returns [false] and does nothing.  That holds
    for a sequence that stops at its first failing call and for one that
    goes on after each failure. *)
Theorem initialize_on_fresh_instance_returns_false :
  forall (E : Env) (up : UserParameters) (w : World) (fuel : nat),
    let fresh := st (constructor E up w) in
    initialized (fl fresh) = false /\
    initialize E fuel fresh = MkOut (Ok false) fresh [] /\
    (forall (calls : list Call),
       let w' := st (for_each calls (call E) fresh) in
       initialized (fl w') = false /\
       initialize E fuel w' = MkOut (Ok false) w' []) /\
    (forall (calls : list Call),
       let w' := after_calls E calls fresh in
       initialized (fl w') = false /\
       initialize E fuel w' = MkOut (Ok false) w' []).
Proof.
  intros E up w fuel fresh.
  assert (Hi : initialized (fl fresh) = false) by apply constructor_not_initialized.
  split; [exact Hi|]. split; [by apply initialize_not_initialized|].
  split; intros calls w'.
  - assert (Hw' : never_initialized w').
    { apply (pres_for_each never_initialized); [|exact Hi].
      intros c. apply never_initialized_call. }
    split; [exact Hw'|]. by apply initialize_not_initialized.
  - assert (Hw' : never_initialized w').
    { apply (pres_after_calls never_initialized); [|exact Hi].
      intros c. apply never_initialized_call. }
    split; [exact Hw'|]. by apply initialize_not_initialized.
Qed.

(** ** C3: which timers survive a teardown *)

Lemma skip {A B} (m : M A) (k : A -> M B) w :
  skippable m ->
  exists a w1, timer_view w1 = timer_view w /\ st ((m ≫= k) w) = st (k a w1).
Proof.
  intros [Hr Hp]. destruct (Hr w) as (a & Ha & _).
  exists a, (st (m w)). split; [by apply (Hp (timer_view w))|].
  by rewrite run_bind, Ha.
Qed.

Ltac skippable_go :=
  split;
  [ repeat returns_step
  | intros ?; pres_go ltac:(idtac; intros ? HI; try case_bool_decide; exact HI) ].

(** Run past a skippable first part of a bind; [tac] proves that it is
    skippable, the hypothesis left says that the timers are as before. *)
Ltac skip_first tac :=
  match goal with
  | |- context [st ((?m ≫= ?k) ?w)] =>
      let H := fresh "Hskip" in
      assert (H : skippable m) by tac;
      let a := fresh "a" in
      let w1 := fresh "w" in
      let Hv := fresh "Hv" in
      let He := fresh "He" in
      destruct (skip m k w H) as (a & w1 & Hv & He);
      rewrite He; clear He H; cbv beta
  end.

Lemma closeStream_timers w :
  timers (st (closeStream w)) =
  match soundLevelProviderId (fl w) with
  | Some id => delete id (timers w)
  | None => timers w
  end.
Proof.
  unfold closeStream. run1.
  skip_first ltac:(destruct (localStream (ss w)); skippable_go).
  run1. skip_first ltac:(unfold stop_if; skippable_go).
  run1. skip_first ltac:(unfold stop_if; skippable_go).
  run1. skip_first ltac:(unfold stop_if; skippable_go).
  run1. skip_first ltac:(unfold stop_if; skippable_go).
  rewrite Hv2, Hv1, Hv0, Hv in Hv3. clear -Hv3.
  injection Hv3 as Ht _ _ _ _ Hs. run1. rewrite Hs.
  destruct (soundLevelProviderId (fl w)) as [id|].
  - rewrite run_bind_assoc, (run_bind_ok _ _ _ _ _ _ (clearInterval_run _ _)).
    unfold update_flags, update_sstate. runs. rewrite run_modify. wsimpl.
    by rewrite Ht.
  - unfold update_sstate. runs. rewrite run_modify. exact Ht.
Qed.

Lemma kept_view w0 w w' : timer_view w' = timer_view w -> timers_kept w0 w -> timers_kept w0 w'.
Proof.
  unfold timer_view, timers_kept. intros [= Ht Hn _ _ _ _]. by rewrite Ht, Hn.
Qed.

Lemma kept_setInterval w0 w tm :
  timers_kept w0 w ->
  timers_kept w0 (on_timers <[next_timer w := tm]> (bump_timer w)).
Proof.
  intros [Hsub Hfresh]. unfold timers_kept. wsimpl. split.
  - etrans; [exact Hsub|]. apply insert_subseteq.
    destruct (timers w !! next_timer w) as [tm'|] eqn:Hn; [|done].
    apply Hfresh in Hn. lia.
  - intros id tm'. rewrite lookup_insert. case_decide; [lia|].
    intros Hid. apply Hfresh in Hid. lia.
Qed.

Lemma kept_switchVideoCameraCapture E w0 id d :
  pres (timers_kept w0) (switchVideoCameraCapture E id d).
Proof.
  apply pres_switchVideoCameraCapture.
  - apply kept_view.
  - intros w Hw _. by apply (kept_setInterval w0 w).
Qed.

Lemma kept_switchVideoCameraFacingMode E w0 id f :
  pres (timers_kept w0) (switchVideoCameraFacingMode E id f).
Proof.
  apply pres_switchVideoCameraFacingMode.
  - apply kept_view.
  - intros w Hw _. by apply (kept_setInterval w0 w).
Qed.

Lemma drawTick_log E canvas screen camera w :
  log (drawTick E canvas screen camera w) =
  let screenW := from_option (videoWidth E) 0%N screen in
  let screenH := from_option (videoHeight E) 0%N screen in
  let o := overlay (cfg w) screenW screenH (videoWidth E camera) (videoHeight E camera) in
  [EvDrawImage canvas screen 0 0 (num screenW) (num screenH);
   EvDrawImage canvas (Some camera)
     (positionX o) (positionY o) (cameraWidth o) (cameraHeight o)].
Proof. unfold drawTick. by runs. Qed.

(** C3 (amended).  With well-formed timers: [closeStream] cancels the
    sound-level timer recorded in [soundLevelProviderId] and no other
    timer, so every running timer with another task (the compositor's draw
    timer, the blank-frame timer, the muted-level timer) is still running
    after it; switching to camera capture ([switchVideoCameraCapture],
    [switchVideoCameraFacingMode]) cancels no timer at all; and a draw
    timer that is running draws the screen and the camera on its canvas
    every time it fires. *)
Theorem timers_after_teardown :
  forall (E : Env) (w : World),
    timers_wf w ->
    timers (st (closeStream w)) =
      match soundLevelProviderId (fl w) with
      | Some id => delete id (timers w)
      | None => timers w
      end /\
    (forall id tm, timers w !! id = Some tm -> t_task tm ≠ TaskSoundLevel ->
       timers (st (closeStream w)) !! id = Some tm) /\
    (forall streamId deviceId,
       timers w ⊆ timers (st (switchVideoCameraCapture E streamId deviceId w))) /\
    (forall streamId facingMode,
       timers w ⊆ timers (st (switchVideoCameraFacingMode E streamId facingMode w))) /\
    (forall w' id canvas screen camera period,
       timers w' !! id = Some (MkTimer (TaskDraw canvas screen camera) period) ->
       exists x y width height,
         log (fire E id w') =
         [EvDrawImage canvas screen 0 0
            (num (from_option (videoWidth E) 0%N screen))
            (num (from_option (videoHeight E) 0%N screen));
          EvDrawImage canvas (Some camera) x y width height]).
Proof.
  intros E w Hwf. split_and!.
  - apply closeStream_timers.
  - intros id tm Htm Htask. rewrite closeStream_timers.
    destruct (soundLevelProviderId (fl w)) as [sl|] eqn:Hs; [|done].
    rewrite lookup_delete_ne; [done|]. intros Heq. subst sl.
    destruct Hwf as (_ & _ & _ & H4 & _). destruct (H4 id Hs) as [_ Ht].
    by apply Htask, Ht.
  - intros streamId deviceId.
    apply (kept_switchVideoCameraCapture E w streamId deviceId w).
    split; [done|]. by destruct Hwf.
  - intros streamId facingMode.
    apply (kept_switchVideoCameraFacingMode E w streamId facingMode w).
    split; [done|]. by destruct Hwf.
  - intros w' id canvas screen camera period Ht.
    rewrite (fire_draw _ _ _ _ _ _ _ Ht), drawTick_log. by repeat eexists.
Qed.

(** ** What a computation logs *)

Section LogsOnly.
Context (P : Event -> Prop).

Lemma logs_ret {A} (a : A) : logs_only P (mret a : M A).
Proof. intros w. constructor. Qed.
Lemma logs_throw {A} e : logs_only P (throw e : M A).
Proof. intros w. constructor. Qed.
Lemma logs_out_of_fuel {A} : logs_only P (out_of_fuel : M A).
Proof. intros w. constructor. Qed.
Lemma logs_gets {A} (f : World -> A) : logs_only P (gets f).
Proof. intros w. constructor. Qed.
Lemma logs_modify f : logs_only P (modify f).
Proof. intros w. constructor. Qed.
Lemma logs_emit e : P e -> logs_only P (emit e).
Proof. intros H w. by repeat constructor. Qed.
Lemma logs_require {A} what (o : option A) : logs_only P (require what o).
Proof. destruct o; intros w; constructor. Qed.

Lemma logs_bind {A B} (m : M A) (k : A -> M B) :
  logs_only P m -> (forall a, logs_only P (k a)) -> logs_only P (m ≫= k).
Proof.
  intros Hm Hk w. rewrite run_bind. specialize (Hm w).
  destruct (res (m w)); simpl; try done. apply Forall_app. split; [done|apply Hk].
Qed.

Lemma logs_try_catch {A} (m : M A) h :
  logs_only P m -> (forall e, logs_only P (h e)) -> logs_only P (try_catch m h).
Proof.
  intros Hm Hh w. unfold try_catch. specialize (Hm w).
  destruct (res (m w)); simpl; try done. apply Forall_app. split; [done|apply Hh].
Qed.

Lemma logs_detach {A} (m : M A) :
  (forall e, P (EvUnhandledRejection e)) -> logs_only P m -> logs_only P (detach m).
Proof.
  intros HP Hm. apply logs_try_catch.
  - apply logs_bind; [done|]. intros _. apply logs_ret.
  - intros e. by apply logs_emit.
Qed.

Lemma logs_for_each {A} (l : list A) (f : A -> M unit) :
  (forall x, logs_only P (f x)) -> logs_only P (for_each l f).
Proof.
  intros Hf. induction l as [|x l IH]; [apply logs_ret|].
  rewrite for_each_cons. apply logs_bind; [apply Hf|]. by intros _.
Qed.

Lemma logs_newTracks ks : logs_only P (newTracks ks).
Proof.
  induction ks as [|k ks IH]; [apply logs_ret|]. cbn [newTracks].
  apply logs_bind; [|intros t; apply logs_bind; [done|intros ?; apply logs_ret]].
  unfold newTrack. apply logs_bind; [apply logs_gets|]. intros n.
  apply logs_bind; [apply logs_modify|]. intros _. apply logs_ret.
Qed.

End LogsOnly.

(** [tac] proves [P e] for the events that are logged. *)
Ltac logs_step tac :=
  lazymatch goal with
  | |- logs_only _ (_ ≫= _) => apply logs_bind; [|intros ?]
  | |- logs_only _ (mret _) => apply logs_ret
  | |- logs_only _ (gets _) => apply logs_gets
  | |- logs_only _ (throw _) => apply logs_throw
  | |- logs_only _ out_of_fuel => apply logs_out_of_fuel
  | |- logs_only _ (emit _) => apply logs_emit; tac
  | |- logs_only _ (require _ _) => apply logs_require
  | |- logs_only _ (modify _) => apply logs_modify
  | |- logs_only _ (try_catch _ _) => apply logs_try_catch; [|intros ?]
  | |- logs_only _ (detach _) => apply logs_detach; [intros ?; tac|]
  | |- logs_only _ (when _ _) => unfold when
  | |- logs_only _ (for_each _ _) => apply logs_for_each; intros ?
  | |- logs_only _ (newTracks _) => apply logs_newTracks
  | |- logs_only _ (match ?x with _ => _ end) => destruct x
  | |- logs_only _ (match ?x with _ => _ end _) => destruct x; cbv beta
  | |- logs_only _ ?m => let h := head_of m in unfold h
  end.

Lemma filter_none (l : list Event) :
  Forall (fun e => is_clearInterval e = false) l ->
  filter (fun e => is_clearInterval e = true) l = [].
Proof.
  induction 1 as [|e l He Hl IH]; [done|].
  rewrite filter_cons_False; [done|]. by rewrite He.
Qed.

(** ** The blank-frame timer *)

Lemma turnOffLocalCamera_timer E id w :
  let w' := st (turnOffLocalCamera E id w) in
  match blackFrameTimer (fl w) with
  | Some t0 => blackFrameTimer (fl w') = Some t0 /\ timers w' = timers w
  | None =>
      blackFrameTimer (fl w') = Some (next_timer w) /\
      timers w' = <[next_timer w := MkTimer TaskBlackFrame 3000]> (timers w)
  end.
Proof.
  cbv zeta. unfold turnOffLocalCamera.
  skip_first skippable_go. run1.
  skip_first ltac:(destruct (localStream (ss w0)); skippable_go).
  rewrite Hv in Hv0. clear Hv. injection Hv0 as Ht Hn _ Hb _ _.
  run1. rewrite Hb.
  destruct (blackFrameTimer (fl w)) as [t0|].
  - rewrite run_ret. by wsimpl.
  - rewrite (run_bind_ok _ _ _ _ _ _ (setInterval_run _ _ _)).
    unfold update_flags. rewrite run_modify. wsimpl. by rewrite Ht, Hn.
Qed.

(** What [turnOnLocalCamera] does with the recorded timer, [k] being the
    rest of the method. *)
Lemma clear_blackFrame_run {A} (k : M A) w :
  (b ← gets (fun w => blackFrameTimer (fl w));
   match b with
   | Some t => clearInterval t;; update_flags (set_blackFrameTimer None)
   | None => mret tt
   end;;
   k) w =
  match blackFrameTimer (fl w) with
  | Some t =>
      prepend [EvClearInterval t]
        (k (on_this (on_flags (set_blackFrameTimer None)) (on_timers (delete t) w)))
  | None => k w
  end.
Proof.
  run1. destruct (blackFrameTimer (fl w)) as [t|]; [|by run1].
  rewrite run_bind_assoc, (run_bind_ok _ _ _ _ _ _ (clearInterval_run _ _)).
  unfold update_flags. by runs.
Qed.

Lemma turnOnLocalCamera_cancels E id w :
  let o := turnOnLocalCamera E id w in
  filter (fun e => is_clearInterval e = true) (log o) =
    match blackFrameTimer (fl w) with
    | Some t => [EvClearInterval t]
    | None => []
    end /\
  blackFrameTimer (fl (st o)) = None.
Proof.
  cbv zeta. unfold turnOnLocalCamera.
  rewrite (run_bind_ok _ _ _ _ _ _ (getMediaConstraints_run _)), prepend_nil.
  rewrite clear_blackFrame_run.
  match goal with
  | |- context [prepend _ (?k _)] =>
      assert (Hlog : logs_only (fun e => is_clearInterval e = false) k);
      [|assert (Hnone : pres (flag_inv (fun _ b => b = None)) k)]
  end.
  - repeat logs_step ltac:(idtac; done).
  - repeat (first
      [ lazymatch goal with
        | |- pres _ (getUserMedia _ _ _) => apply (pres_getUserMedia _ (flag_view _))
        | |- pres _ (updateVideoTrack _ _ _ _ _) =>
            apply (pres_updateVideoTrack _ (flag_view _))
        | |- pres _ (gotStream _) => apply (pres_gotStream _ (flag_view _))
        end
      | pres_step ltac:(idtac; intros ? HI; exact HI) ]).
  - destruct (blackFrameTimer (fl w)) as [t|] eqn:Hb.
    + rewrite log_prepend, st_prepend. split.
      * cbn [app]. rewrite filter_cons_True by done. by rewrite (filter_none _ (Hlog _)).
      * by apply Hnone.
    + split; [apply filter_none, Hlog | by apply Hnone].
Qed.

Lemma pres_for_each_Forall {A} (I : World -> Prop) (l : list A) (f : A -> M unit) :
  Forall (fun x => pres I (f x)) l -> pres I (for_each l f).
Proof.
  induction 1 as [|x l Hx Hl IH]; [apply pres_ret|].
  rewrite for_each_cons. apply pres_bind; [exact Hx|]. by intros _.
Qed.

(** A running blank-frame timer is the recorded one and has period
    3000. *)
Lemma wf_blackFrame w t tm :
  timers_wf w -> timers w !! t = Some tm -> t_task tm = TaskBlackFrame ->
  blackFrameTimer (fl w) = Some t /\ tm = MkTimer TaskBlackFrame 3000.
Proof.
  intros (_ & H2 & H3 & _) Htm Htask. specialize (H3 _ _ Htm Htask).
  split; [done|]. specialize (H2 _ H3). congruence.
Qed.

Lemma wf_no_timers w :
  timers w = ∅ -> blackFrameTimer (fl w) = None ->
  soundLevelProviderId (fl w) = None -> meterRefresh (fl w) = None ->
  timers_wf w.
Proof.
  intros Ht Hb Hs Hm. unfold timers_wf. rewrite Ht, Hb, Hs, Hm.
  split_and!; try done; intros ??; by rewrite lookup_empty.
Qed.

(** ** Scenario lemmas for C3 and C4 *)

Lemma st_bind_ret {A B} (m : M A) (b : B) w : st ((m;; mret b) w) = st (m w).
Proof. rewrite run_bind. by destruct (res (m w)). Qed.

Lemma wf_switchDesktopCaptureWithCamera E fuel id :
  pres timers_wf (switchDesktopCaptureWithCamera E fuel id).
Proof.
  intros w Hw. rewrite <- (st_bind_ret _ tt).
  exact (wf_call E (SwitchDesktopCaptureWithCamera fuel id) w Hw).
Qed.

Lemma wf_compositing : timers_wf compositing.
Proof.
  unfold compositing. apply wf_switchDesktopCaptureWithCamera.
  apply wf_no_timers; vm_compute; reflexivity.
Qed.

(** C3, as stated, fails.  In screen+camera mode the compositor's draw
    timer (timer 0, every 66 ms) is running.  It is still running after
    [closeStream]; and it is still running after a switch to camera mode
    ([switchVideoCameraCapture], which sets the publish mode to 'camera'),
    where it draws the screen and the camera on the canvas when it
    fires. *)
Lemma draw_timer_survives_teardown :
  publishMode (cfg compositing) = PMScreenCamera /\
  timers compositing !! 0 = Some (MkTimer (TaskDraw 6 (Some 2) 4) 66) /\
  timers (st (closeStream compositing)) !! 0 =
    Some (MkTimer (TaskDraw 6 (Some 2) 4) 66) /\
  publishMode (cfg (st (switchVideoCameraCapture browser stream1 None compositing))) =
    PMCamera /\
  timers (st (switchVideoCameraCapture browser stream1 None compositing)) !! 0 =
    Some (MkTimer (TaskDraw 6 (Some 2) 4) 66) /\
  log (fire browser 0 (st (switchVideoCameraCapture browser stream1 None compositing))) =
    [EvDrawImage 6 (Some 2) 0 0 1280 720;
     EvDrawImage 6 (Some 4) 1073 15 192 108].
Proof. vm_compute. done. Qed.

Lemma timers_after_teardown_witness :
  timers_wf compositing /\
  timers (st (closeStream compositing)) !! 0 =
    Some (MkTimer (TaskDraw 6 (Some 2) 4) 66).
Proof.
  split; [exact wf_compositing|].
  assert (Ht : timers compositing !! 0 = Some (MkTimer (TaskDraw 6 (Some 2) 4) 66))
    by (vm_compute; reflexivity).
  destruct (timers_after_teardown browser compositing wf_compositing)
    as (_ & H & _).
  apply (H 0 _ Ht). discriminate.
Defined.

Lemma denied_screen_share_fallback_witness :
  getDisplayMedia share_denied 3 (MkMC (CBool true) (CBool true)) sharing_denied =
  MkOut (Thrown (ReferenceError "streamId")) (bump_clock sharing_denied)
    [EvGetDisplayMedia (MkMC (CBool true) (CBool true));
     EvCallbackError "ScreenSharePermissionDenied"].
Proof.
  assert (Hl : localStream (ss sharing_denied) = Some 2) by (vm_compute; reflexivity).
  exact (proj1
    (denied_screen_share_fallback share_denied 3 (MkMC (CBool true) (CBool true))
       sharing_denied eq_refl eq_refl) 2 Hl eq_refl).
Defined.

(** C4 on a run.  In 'screen' mode with no Local Stream, the user denying
    every screen share: [getDisplayMedia] asks for the screen, reports the
    denial, and asks for the screen again (never for the camera), for as
    many nested calls of [openStream] as are allowed (here two). *)
Lemma denied_screen_share_asks_for_the_screen_again :
  localStream (ss (fresh share_denied screen_mode)) = None /\
  log (getDisplayMedia share_denied 2 (MkMC (CBool true) (CBool true))
         (fresh share_denied screen_mode)) =
    [EvGetDisplayMedia (MkMC (CBool true) (CBool true));
     EvCallbackError "ScreenSharePermissionDenied";
     EvGetDisplayMedia (MkMC (CBool true) (CBool true));
     EvCallbackError "ScreenSharePermissionDenied";
     EvGetDisplayMedia (MkMC (CBool true) (CBool true));
     EvCallbackError "ScreenSharePermissionDenied"] /\
  res (getDisplayMedia share_denied 2 (MkMC (CBool true) (CBool true))
         (fresh share_denied screen_mode)) = OutOfFuel.
Proof. vm_compute. done. Qed.

(** * Further properties of the methods *)

(** ** [closeStream], in full *)

Lemma ids_app ts1 ts2 : ids (ts1 ++ ts2) = ids ts1 ∪ ids ts2.
Proof. unfold ids. by rewrite fmap_app, list_to_set_app_L. Qed.

Lemma ids_nil : ids [] = ∅.
Proof. done. Qed.

Lemma for_each_stop ts w :
  for_each ts stop w =
  MkOut (Ok tt) (on_ended (fun e => ids ts ∪ e) w) (EvStop <$> ts).
Proof.
  revert w. induction ts as [|t ts IH]; intros w.
  - cbn [for_each]. rewrite run_ret. f_equal. apply world_eq; wsimpl; try done.
    rewrite ids_nil. set_solver.
  - rewrite for_each_cons, (run_bind_ok _ _ _ _ _ _ (stop_run _ _)), IH.
    unfold prepend. wsimpl. f_equal.
    apply world_eq; wsimpl; try done. unfold ids. simpl. set_solver.
Qed.

Lemma stop_if_run o w :
  stop_if o w =
  MkOut (Ok tt) (on_ended (fun e => ids (option_list o) ∪ e) w)
    (EvStop <$> option_list o).
Proof.
  destruct o as [t|]; cbn [stop_if option_list].
  - rewrite stop_run. f_equal. apply world_eq; wsimpl; try done.
    unfold ids. simpl. set_solver.
  - rewrite run_ret. f_equal. apply world_eq; wsimpl; try done.
    unfold ids. simpl. set_solver.
Qed.

Lemma closeStream_run w :
  closeStream w =
  MkOut (Ok tt)
    (on_this (on_sstate (set_localStream None))
       (on_this (on_flags (set_soundLevelProviderId None))
          (on_timers (fun m => match soundLevelProviderId (fl w) with
                               | Some id => delete id m
                               | None => m
                               end)
             (on_this (on_sstate (fun x =>
                         match localStream x with
                         | Some _ => set_tempTracks [] x
                         | None => x
                         end))
                (on_ended (fun e => ids (closing w) ∪ e) w)))))
    ((EvStop <$> closing w) ++
     match soundLevelProviderId (fl w) with
     | Some id => [EvClearInterval id]
     | None => []
     end).
Proof.
  unfold closeStream, closing, update_sstate, update_flags. run1.
  destruct (localStream (ss w)) as [l|] eqn:Hl;
    repeat (first
      [ run1
      | rewrite (run_bind_ok _ _ _ _ _ _ (for_each_stop _ _))
      | rewrite (run_bind_ok _ _ _ _ _ _ (stop_if_run _ _)) ];
      cbn [audioTracksOf videoTracksOf tracksOf]; wsimpl);
    destruct (soundLevelProviderId (fl w)) as [id|] eqn:Hs;
    repeat (first
      [ run1 | rewrite (run_bind_ok _ _ _ _ _ _ (clearInterval_run _ _)) ]; wsimpl);
    rewrite ?run_modify; unfold prepend; wsimpl.
  all: unfold audioTracksOf, videoTracksOf, tracksOf.
  all: f_equal;
    [ apply world_eq; wsimpl; rewrite ?Hl; try done;
      [ destruct w as [[? [] ? []]]; simpl in *; by subst
      | rewrite ?ids_app; set_solver ]
    | rewrite ?fmap_app, <- ?app_assoc, ?app_nil_r; done ].
Qed.

Lemma track_kind_cases (t : Track) : is_kind Video t = true \/ is_kind Audio t = true.
Proof. destruct t as [[] n]; [right|left]; done. Qed.

Lemma closeStream_stops w l t :
  localStream (ss w) = Some l ->
  t ∈ tracksOf w l \/ t ∈ tempTracks (ss w) ->
  tid t ∈ ended (st (closeStream w)).
Proof.
  intros Hl Ht. rewrite closeStream_run. wsimpl.
  apply elem_of_union_l, elem_of_ids. unfold closing. rewrite Hl.
  rewrite !elem_of_app. left. destruct Ht as [Ht|Ht]; [|by left].
  right. unfold videoTracksOf, audioTracksOf.
  rewrite !list_elem_of_filter. destruct (track_kind_cases t); auto.
Qed.

(** X1.  [closeStream] never fails.  It stops the tracks of [closing], in
    that order: with a Local Stream its temporary, video and audio tracks,
    then the tracks recorded in [videoTrack], [audioTrack],
    [smallVideoTrack] and [previousAudioTrack]; it cancels the sound-level
    timer if one is recorded and does nothing else.  Afterwards there is
    no Local Stream and no sound-level timer id, and the streams still
    hold their tracks.  With a Local Stream every track of it and every
    temporary track is ended and [tempTracks] is empty; without one
    [tempTracks] is left as it was and only the four recorded tracks are
    stopped. *)
Theorem closeStream_releases :
  forall (w : World),
    let o := closeStream w in
    res o = Ok tt /\
    localStream (ss (st o)) = None /\
    soundLevelProviderId (fl (st o)) = None /\
    streams (st o) = streams w /\
    ended (st o) = ids (closing w) ∪ ended w /\
    log o = (EvStop <$> closing w) ++
            match soundLevelProviderId (fl w) with
            | Some id => [EvClearInterval id]
            | None => []
            end /\
    (forall l, localStream (ss w) = Some l ->
       tempTracks (ss (st o)) = [] /\
       forall t, t ∈ tracksOf w l \/ t ∈ tempTracks (ss w) -> tid t ∈ ended (st o)) /\
    (localStream (ss w) = None ->
       tempTracks (ss (st o)) = tempTracks (ss w) /\
       closing w =
         option_list (videoTrack (cfg w)) ++ option_list (audioTrack (cfg w)) ++
         option_list (smallVideoTrack (ss w)) ++ option_list (previousAudioTrack (ss w))).
Proof.
  intros w o. subst o. rewrite closeStream_run. wsimpl. split_and!; try done.
  - intros l Hl. rewrite Hl. split; [done|]. intros t Ht.
    pose proof (closeStream_stops w l t Hl Ht) as Hin.
    rewrite closeStream_run in Hin. exact Hin.
  - intros Hl. rewrite Hl. split; [done|]. unfold closing. by rewrite Hl.
Qed.

(** X2.  A second [closeStream] changes nothing: the state after it is the
    state after the first.  It only calls stop() again on the tracks
    recorded in [videoTrack], [audioTrack], [smallVideoTrack] and
    [previousAudioTrack], which are ended already. *)
Theorem closeStream_twice :
  forall (w : World),
    let w1 := st (closeStream w) in
    st (closeStream w1) = w1 /\
    log (closeStream w1) =
      EvStop <$> (option_list (videoTrack (cfg w)) ++ option_list (audioTrack (cfg w)) ++
                  option_list (smallVideoTrack (ss w)) ++
                  option_list (previousAudioTrack (ss w))).
Proof.
  intros w w1.
  assert (Hc : closing w1 =
    option_list (videoTrack (cfg w)) ++ option_list (audioTrack (cfg w)) ++
    option_list (smallVideoTrack (ss w)) ++ option_list (previousAudioTrack (ss w))).
  { subst w1. rewrite closeStream_run. unfold closing. wsimpl.
    by destruct (localStream (ss w)). }
  assert (Hs : soundLevelProviderId (fl w1) = None).
  { subst w1. by rewrite closeStream_run. }
  assert (Hsub : ids (closing w1) ⊆ ended w1).
  { subst w1. rewrite Hc. rewrite closeStream_run. wsimpl. unfold closing.
    rewrite !ids_app. set_solver. }
  rewrite (closeStream_run w1). wsimpl. rewrite Hs, Hc, app_nil_r. split; [|done].
  apply world_eq; wsimpl; try done.
  - subst w1. rewrite closeStream_run. wsimpl.
    destruct w as [[? [ls ? ? ? ? ? ?] ? []]]; simpl. by destruct ls.
  - rewrite <- Hc. set_solver.
Qed.

(** ** The mute state across an audio update *)

Lemma bind_ok_inv {A B} (m : M A) (k : A -> M B) w b :
  res ((m ≫= k) w) = Ok b ->
  exists a, res (m w) = Ok a /\ res (k a (st (m w))) = Ok b /\
            st ((m ≫= k) w) = st (k a (st (m w))).
Proof.
  rewrite run_bind. destruct (res (m w)) as [a| |] eqn:Hm; try done.
  intros H. exists a. by rewrite res_prepend in H.
Qed.

Lemma step_returns {A B} (J : World -> Prop) (m : M A) (k : A -> M B) w :
  returns (fun _ => True) m -> pres J m -> J w ->
  exists a w1, J w1 /\ res ((m ≫= k) w) = res (k a w1) /\
               st ((m ≫= k) w) = st (k a w1).
Proof.
  intros Hr Hp Hw. destruct (Hr w) as (a & Ha & _).
  exists a, (st (m w)). split; [by apply Hp|]. by rewrite run_bind, Ha.
Qed.

Ltac frame_kept := intros ? HI; try case_bool_decide; exact HI.

Lemma connect_when_run E w :
  (m ← gets (fun w => localStreamSoundMeter (fl w));
   when m (connectSoundMeterToLocalStream E)) w =
  MkOut (Ok tt) w
    (if localStreamSoundMeter (fl w)
     then EvSoundMeterConnect (localStream (ss w)) ::
          (if soundMeter_fails E then [EvAlert "soundmeter"] else [])
     else []).
Proof.
  run1. unfold when, connectSoundMeterToLocalStream.
  destruct (localStreamSoundMeter (fl w)) eqn:Hm; [|done].
  run1. rewrite Hm. run. by destruct (soundMeter_fails E); run.
Qed.

Lemma logs_connectSoundMeterToLocalStream E :
  logs_only (quiet_update E) (connectSoundMeterToLocalStream E).
Proof.
  unfold connectSoundMeterToLocalStream.
  destruct (soundMeter_fails E) eqn:Hf; repeat logs_step ltac:(idtac; done).
Qed.

Lemma updateLocalAudioStream_mute E w s cb :
  let o := updateLocalAudioStream E (Some s) cb w in
  let l := default s (localStream (ss w)) in
  (cb = None -> res o = Ok tt) /\
  (res o = Ok tt ->
   isMuted (fl (st o)) = isMuted (fl w) /\
   localStream (ss (st o)) = Some l /\
   forall t, t ∈ audioTracksOf (st o) l ->
             enabled (st o) t = negb (isMuted (fl w))).
Proof.
  intros o l. subst o. unfold updateLocalAudioStream. run1. run1. run1.
  set (J := fun w' : World =>
         isMuted (fl w') = isMuted (fl w) /\ localStream (ss w') = Some l).
  assert (Htail : forall w2, J w2 ->
    let o2 := (muted ← gets (fun w => isMuted (fl w));
               (if muted : bool then muteLocalMic E else unmuteLocalMic E);;
               m ← gets (fun w => localStreamSoundMeter (fl w));
               when m (connectSoundMeterToLocalStream E)) w2 in
    res o2 = Ok tt /\
    isMuted (fl (st o2)) = isMuted (fl w) /\
    localStream (ss (st o2)) = Some l /\
    forall t, t ∈ audioTracksOf (st o2) l ->
              enabled (st o2) t = negb (isMuted (fl w))).
  { intros w2 [Hm Hl]. cbv zeta. run1. rewrite Hm.
    destruct (isMuted (fl w)) eqn:Hb.
    - rewrite (run_bind_ok _ _ _ _ _ _ (muteLocalMic_run E w2 l Hl)), prepend_nil.
      rewrite connect_when_run. wsimpl. split_and!; try done.
      intros t Ht. unfold enabled. wsimpl.
      apply bool_decide_eq_false_2. intros Hn. apply Hn.
      apply elem_of_union_l. by apply elem_of_ids.
    - rewrite (run_bind_ok _ _ _ _ _ _ (unmuteLocalMic_run E w2 l Hl)), prepend_nil.
      rewrite connect_when_run. wsimpl. split_and!; try done.
      intros t Ht. unfold enabled. wsimpl.
      apply bool_decide_eq_true_2. intros Hn.
      apply elem_of_difference in Hn as [_ Hn]. apply Hn. by apply elem_of_ids. }
  match goal with
  | |- context [res ((?b ≫= ?k) w)] => set (blk := b)
  end.
  assert (Hblk : returns (fun _ => True) blk).
  { subst blk. destruct (localStream (ss w)); repeat returns_step. }
  assert (HJ : J (st (blk w))).
  { subst blk l. destruct (localStream (ss w)) as [l|] eqn:Hl.
    - match goal with
      | |- J (st (?b w)) => assert (Hp : pres J b) by (unfold J; pres_go frame_kept)
      end.
      apply Hp. by split.
    - unfold update_sstate. rewrite run_modify. wsimpl. by split. }
  assert (Hrefresh : returns (fun _ => True) refreshLocalVideo /\
                     pres J refreshLocalVideo).
  { split; [repeat returns_step | unfold J; pres_go frame_kept]. }
  destruct Hrefresh as [Hr1 Hr2].
  rewrite run_bind. destruct (Hblk w) as (a1 & Ha1 & _). rewrite Ha1.
  rewrite res_prepend, st_prepend. cbv beta.
  set (w1 := st (blk w)) in *. clearbody w1. clear Ha1 Hblk blk.
  rewrite run_bind. destruct (Hr1 w1) as (a2 & Ha2 & _). rewrite Ha2.
  rewrite res_prepend, st_prepend. cbv beta.
  assert (HJ2 : J (st (refreshLocalVideo w1))) by by apply Hr2.
  set (w2 := st (refreshLocalVideo w1)) in *. clearbody w2. clear Ha2.
  destruct cb as [h|].
  - split; [done|]. intros Hres.
    apply bind_ok_inv in Hres as Hinv. destruct Hinv as ([] & Hcb & Hres3 & Hst3).
    rewrite Hst3.
    match type of Hcb with
    | res (?c w2) = _ =>
        assert (Hp : pres J c) by (unfold J; pres_go frame_kept);
        specialize (Hp w2 HJ2)
    end.
    destruct (Htail _ Hp) as (_ & H2 & H3). done.
  - run1. destruct (Htail w2 HJ2) as (H1 & H2 & H3). done.
Qed.

(** X3.  [updateLocalAudioStream] keeps the mute state.  Without an
    onended callback it returns normally; and whenever it returns
    normally, [isMuted] is what it was, there is a Local Stream (the one
    there was, if there was one), and every audio track of it, the new
    one included, is enabled exactly when the instance is not muted. *)
Theorem updateLocalAudioStream_applies_mute :
  forall (E : Env) (w : World) (s : StreamRef) (cb : option Handler),
    let o := updateLocalAudioStream E (Some s) cb w in
    (cb = None -> res o = Ok tt) /\
    (res o = Ok tt ->
     isMuted (fl (st o)) = isMuted (fl w) /\
     exists l, localStream (ss (st o)) = Some l /\
       (forall l0, localStream (ss w) = Some l0 -> l = l0) /\
       forall t, t ∈ audioTracksOf (st o) l ->
                 enabled (st o) t = negb (isMuted (fl w))).
Proof.
  intros E w s cb o. subst o.
  destruct (updateLocalAudioStream_mute E w s cb) as [H1 H2].
  split; [exact H1|]. intros Hres. destruct (H2 Hres) as (Hm & Hl & Ht).
  split; [exact Hm|]. eexists. split; [exact Hl|]. split; [|exact Ht].
  intros l0 Hl0. by rewrite Hl0.
Qed.

(** X4.  Muting before there is a Local Stream is remembered.
    [muteLocalMic] without a Local Stream reports "NoActiveConnection",
    and still records [isMuted]; nothing else changes.  When
    [updateLocalAudioStream] then installs a stream as the Local Stream,
    every audio track of that stream is disabled. *)
Theorem mute_before_the_stream_exists :
  forall (E : Env) (w : World) (s : StreamRef),
    localStream (ss w) = None ->
    let o1 := muteLocalMic E w in
    let o2 := updateLocalAudioStream E (Some s) None (st o1) in
    res o1 = Ok tt /\
    log o1 = [EvCallbackError "NoActiveConnection"] /\
    st o1 = on_this (on_flags (set_isMuted true)) w /\
    res o2 = Ok tt /\
    localStream (ss (st o2)) = Some s /\
    isMuted (fl (st o2)) = true /\
    forall t, t ∈ audioTracksOf (st o2) s -> enabled (st o2) t = false.
Proof.
  intros E w s Hl o1 o2.
  assert (Hrun : muteLocalMic E w =
            MkOut (Ok tt) (on_this (on_flags (set_isMuted true)) w)
              [EvCallbackError "NoActiveConnection"]).
  { unfold muteLocalMic, update_flags. runs. rewrite Hl.
    rewrite (run_bind_ok _ _ _ _ _ _ (callbackError_run _ _ _)). by rewrite run_ret. }
  subst o2 o1. rewrite Hrun. cbn [res st log].
  destruct (updateLocalAudioStream_mute E (on_this (on_flags (set_isMuted true)) w) s None)
    as [H1 H2].
  specialize (H1 eq_refl). destruct (H2 H1) as (Hm & Hls & Ht).
  assert (Hd : default s (localStream (ss (on_this (on_flags (set_isMuted true)) w))) = s)
    by (wsimpl; by rewrite Hl).
  rewrite Hd in Hls, Ht. split_and!; try done.
Qed.

Lemma mute_before_the_stream_exists_witness :
  enabled
    (st (updateLocalAudioStream browser (Some 1) None
           (st (muteLocalMic browser microphone_ready))))
    (MkTrack Audio 10) = false.
Proof.
  assert (H1 : localStream (ss microphone_ready) = None) by (vm_compute; reflexivity).
  pose proof (mute_before_the_stream_exists browser microphone_ready 1 H1) as H.
  cbv zeta in H. destruct H as (_ & _ & _ & _ & _ & _ & H).
  apply H. vm_compute. left.
Defined.

(** X5.  [updateLocalAudioStream] stops no track, binds no sender and
    touches no timer, whatever it is given and however it ends; it logs
    only track additions and removals, callbackError, the sound-meter
    connection and, where the sound meter fails, the alert of that
    error.  When it replaces the audio track of the Local Stream by
    a different one, the old track is removed from the stream and appended
    to [tempTracks], still live; it is [closeStream] that ends it. *)
Theorem updateLocalAudioStream_keeps_replaced_track :
  forall (E : Env) (w : World) (stream : option StreamRef) (cb : option Handler),
    let o := updateLocalAudioStream E stream cb w in
    ended (st o) = ended w /\ bound (st o) = bound w /\ timers (st o) = timers w /\
    Forall (quiet_update E) (log o) /\
    (forall l a s,
       localStream (ss w) = Some l -> head (audioTracksOf w l) = Some a ->
       stream = Some s -> head (audioTracksOf w s) ≠ Some a ->
       localStream (ss (st o)) = Some l /\
       tempTracks (ss (st o)) = tempTracks (ss w) ++ [a] /\
       (a ∉ tracksOf (st o) l) /\
       tid a ∈ ended (st (closeStream (st o)))).
Proof.
  intros E w stream cb o. subst o.
  assert (Hframe : pres (fun w' => ended w' = ended w /\ bound w' = bound w /\
                                   timers w' = timers w)
                     (updateLocalAudioStream E stream cb))
    by (unfold updateLocalAudioStream; pres_go frame_kept).
  destruct (Hframe w) as (He & Hb & Ht); [done|].
  assert (Hlog : logs_only (quiet_update E) (updateLocalAudioStream E stream cb)).
  { unfold updateLocalAudioStream.
    repeat first
      [ lazymatch goal with
        | |- logs_only _ (connectSoundMeterToLocalStream _) =>
            apply logs_connectSoundMeterToLocalStream
        end
      | logs_step ltac:(idtac; done) ]. }
  split_and!; try done.
  intros l a s Hl Ha -> Hne.
  set (J := fun w' : World =>
         localStream (ss w') = Some l /\
         tempTracks (ss w') = tempTracks (ss w) ++ [a] /\
         a ∉ tracksOf w' l).
  assert (HJ : J (st (updateLocalAudioStream E (Some s) cb w))).
  { unfold updateLocalAudioStream. run1. run1. run1. rewrite Hl. cbv iota.
    apply post_bind; [|intros _; unfold J; pres_go frame_kept].
    run1. rewrite Ha.
    rewrite (bool_decide_eq_true_2 (Some a ≠ head (audioTracksOf w s))) by congruence.
    unfold update_sstate, setOnended.
    destruct (head (audioTracksOf w s)) as [n|] eqn:Hn; runs.
    - rewrite addTrack_run. unfold J.
      case_bool_decide; wsimpl; (split; [done|]); (split; [done|]);
        unfold tracksOf; wsimpl; rewrite ?lookup_insert_eq; cbn [default from_option id].
      + intros Hin. apply list_elem_of_filter in Hin as [? _]. done.
      + rewrite elem_of_app, list_elem_of_singleton, list_elem_of_filter.
        intros [[? _]|Heq]; [done|]. subst n. done.
    - rewrite run_ret. unfold J. wsimpl. split; [done|]. split; [done|].
      unfold tracksOf; wsimpl; rewrite ?lookup_insert_eq; cbn [default from_option id].
      intros Hin. apply list_elem_of_filter in Hin as [? _]. done. }
  destruct HJ as (HJ1 & HJ2 & HJ3). split_and!; try done.
  apply (closeStream_stops _ l); [done|]. right.
  rewrite HJ2. apply elem_of_app. right. left.
Qed.

(** ** [updateLocalVideoStream] *)



Lemma video_head_kind w s n ns :
  videoTracksOf w s = n :: ns -> is_kind Video n = true /\ n ∈ tracksOf w s.
Proof.
  intros H. assert (Hn : n ∈ videoTracksOf w s) by (rewrite H; left).
  unfold videoTracksOf in Hn. by apply list_elem_of_filter in Hn.
Qed.

Lemma is_kind_excl t : is_kind Video t = true -> is_kind Audio t = true -> False.
Proof. destruct t as [[] ?]; unfold is_kind; simpl; intros; by repeat case_bool_decide. Qed.

(** Replacing the video tracks [vs] (at most one) of a track list by [n]. *)
Lemma replaced_video (ts : list Track) (n : Track) :
  is_kind Video n = true ->
  (forall v, v ∈ filter (fun t => is_kind Video t = true) ts -> False) ->
  filter (fun t => is_kind Video t = true) (ts ++ [n]) = [n] /\
  filter (fun t => is_kind Audio t = true) (ts ++ [n]) =
  filter (fun t => is_kind Audio t = true) ts.
Proof.
  intros Hn Hno. rewrite !filter_app. split.
  - rewrite filter_cons_True by done.
    destruct (filter _ ts) as [|v ?] eqn:Hf; [done|].
    exfalso. apply (Hno v). left.
  - rewrite (filter_cons_False _ n) by (intros H; by apply (is_kind_excl n)).
    by rewrite filter_nil, app_nil_r.
Qed.

Lemma filter_audio_without_video (v : Track) (ts : list Track) :
  is_kind Video v = true ->
  filter (fun t => is_kind Audio t = true) (filter (fun t' => t' ≠ v) ts) =
  filter (fun t => is_kind Audio t = true) ts.
Proof.
  intros Hv. induction ts as [|t ts IH]; [done|].
  rewrite (filter_cons (fun t' => t' ≠ v)).
  destruct (decide (t ≠ v)) as [Hne|Heq].
  - rewrite !filter_cons. by rewrite IH.
  - apply dec_stable in Heq. subst t.
    rewrite filter_cons_False; [done|]. intros H. by apply (is_kind_excl v).
Qed.

Lemma updateLocalVideoStream_keep_desktop (w : World) (l s : StreamRef)
    (n : Track) (ns : list Track) (cb : option Handler) :
  localStream (ss w) = Some l ->
  length (videoTracksOf w l) ≤ 1 ->
  videoTracksOf w s = n :: ns ->
  let o := updateLocalVideoStream (Some s) cb false w in
  res o = Ok tt /\
  localStream (ss (st o)) = Some l /\
  videoTracksOf (st o) l = [n] /\
  audioTracksOf (st o) l = audioTracksOf w l /\
  (forall s', s' ≠ l -> tracksOf (st o) s' = tracksOf w s') /\
  ended (st o) = ids (videoTracksOf w l) ∪ ended w /\
  onended (st o) !! tid n =
    match cb with Some h => Some h | None => onended w !! tid n end /\
  log o = match head (videoTracksOf w l) with
          | Some v => [EvRemoveTrack l v; EvStop v; EvAddTrack l n]
          | None => [EvAddTrack l n]
          end.
Proof.
  intros Hl Hle Hs o. subst o.
  destruct (video_head_kind _ _ _ _ Hs) as [Hk Hin].
  unfold updateLocalVideoStream. runs. rewrite Hs, Hl. cbn [head]. runs.
  assert (Hcb : forall w1 : World,
    videoTracksOf w1 s = n :: ns \/ videoTracksOf w1 s = [n] ->
    match cb with
    | Some h =>
        getVideoTracks s
        ≫= λ ts : list Track,
             require "stream.getVideoTracks()[0].onended" (head ts)
             ≫= λ t : Track, setOnended t (Some h)
    | None => mret ()
    end w1 =
    MkOut (Ok tt)
      (on_onended (fun m => match cb with Some h => <[tid n := h]> m | None => m end) w1) []).
  { intros w1 Hw1. destruct cb as [h|]; [|by destruct w1].
    run1. by destruct Hw1 as [-> | ->]. }
  unfold refreshLocalVideo.
  destruct (videoTracksOf w l) as [|v [|? ?]] eqn:Hvl; [| |simpl in Hle; lia];
    cbn [head].
  - assert (Hn : n ∉ tracksOf w l).
    { intros Hn. assert (n ∈ videoTracksOf w l) as Hn'
        by (by apply list_elem_of_filter). rewrite Hvl in Hn'. inversion Hn'. }
    runs. rewrite bool_decide_eq_false_2 by done. wsimpl.
    assert (Hne : s ≠ l) by (intros ->; congruence).
    destruct (replaced_video (tracksOf w l) n Hk) as [Hv' Ha'].
    { intros v0 Hv0. fold (videoTracksOf w l) in Hv0. rewrite Hvl in Hv0. inversion Hv0. }
    destruct (localVideo (ss w)); unfold update_sstate; runs;
      (rewrite Hcb;
       [| left; unfold videoTracksOf, tracksOf in *; wsimpl;
          rewrite lookup_insert_ne by done; exact Hs]);
      wsimpl; unfold ids; simpl.
    all: unfold videoTracksOf, audioTracksOf, tracksOf in *; wsimpl;
      rewrite !lookup_insert_eq; cbn [default from_option id]; rewrite Hv', Ha'.
    all: split_and!; try done;
      [ intros s' Hs'; by rewrite lookup_insert_ne
      | set_solver
      | destruct cb; [by rewrite lookup_insert_eq | done] ].
  - destruct (video_head_kind _ _ _ _ Hvl) as [Hkv Hinv].
    assert (Hn : n ∉ filter (λ t' : Track, t' ≠ v) (tracksOf w l)).
    { intros Hn. apply list_elem_of_filter in Hn as [Hnv Hn].
      assert (n ∈ videoTracksOf w l) as Hn'
        by (by apply list_elem_of_filter). rewrite Hvl in Hn'.
      apply list_elem_of_singleton in Hn'. done. }
    destruct (replaced_video (filter (λ t' : Track, t' ≠ v) (tracksOf w l)) n Hk)
      as [Hv' Ha'].
    { intros v0 Hv0. rewrite filter_swap in Hv0. fold (videoTracksOf w l) in Hv0.
      rewrite Hvl, filter_cons_False in Hv0 by naive_solver. inversion Hv0. }
    assert (Ha'' : filter (λ t : Track, is_kind Audio t = true)
                     (filter (λ t' : Track, t' ≠ v) (tracksOf w l)) = audioTracksOf w l).
    { by apply filter_audio_without_video. }
    rewrite Ha'' in Ha'.
    assert (Hsv : forall w1,
              streams w1 !! l = Some (filter (λ t' : Track, t' ≠ v) (tracksOf w l) ++ [n]) ->
              (s ≠ l -> streams w1 !! s = streams w !! s) ->
              videoTracksOf w1 s = n :: ns \/ videoTracksOf w1 s = [n]).
    { intros w1 Hw1 Hw2. unfold videoTracksOf, tracksOf.
      destruct (decide (s = l)) as [->|Hne].
      - right. rewrite Hw1. exact Hv'.
      - left. rewrite Hw2 by done. exact Hs. }
    runs.
    assert (Ht : tracksOf (on_ended (λ e : gset nat, {[tid v]} ∪ e)
                   (on_streams <[l := filter (λ t' : Track, t' ≠ v) (tracksOf w l)]> w)) l
                 = filter (λ t' : Track, t' ≠ v) (tracksOf w l))
      by (unfold tracksOf; wsimpl; by rewrite lookup_insert_eq).
    rewrite Ht, bool_decide_eq_false_2 by done. wsimpl.
    destruct (localVideo (ss w)); unfold update_sstate; runs;
      (rewrite Hcb;
       [| apply Hsv; wsimpl;
          [by rewrite lookup_insert_eq | intros; by rewrite !lookup_insert_ne]]);
      wsimpl; unfold ids; simpl.
    all: unfold videoTracksOf, audioTracksOf, tracksOf in *; wsimpl;
      rewrite !lookup_insert_eq; cbn [default from_option id]; rewrite Hv', Ha'.
    all: split_and!; try done;
      [ intros s' Hs'; by rewrite !lookup_insert_ne
      | set_solver
      | destruct cb; [by rewrite lookup_insert_eq | done] ].
Qed.

Lemma updateLocalVideoStream_stop_desktop stream cb w d t ts :
  desktopStream (ss w) = Some d -> videoTracksOf w d = t :: ts ->
  updateLocalVideoStream stream cb true w =
  prepend [EvStop t]
    (updateLocalVideoStream stream cb false (on_ended (fun e => {[tid t]} ∪ e) w)).
Proof.
  intros Hd Ht. unfold updateLocalVideoStream. run1. rewrite Hd. run.
  rewrite Ht. cbn [head]. run. by run_call.
Qed.

Lemma updateLocalVideoStream_no_desktop stream cb b w :
  desktopStream (ss w) = None ->
  updateLocalVideoStream stream cb b w = updateLocalVideoStream stream cb false w.
Proof.
  intros Hd. unfold updateLocalVideoStream. run1. rewrite Hd.
  destruct b; by run.
Qed.

(** X6.  Let the Local Stream hold at most one video track, and let the
    given stream have a video track [n] (and, if the desktop stream is to
    be stopped, let that stream have a video track).  Then
    [updateLocalVideoStream] returns normally; the Local Stream is the
    same stream and its only video track is [n]; its audio tracks and the
    tracks of every other stream are unchanged; the video track it held
    before is ended and no track that was ended becomes live; and a given
    onended callback is installed on [n]. *)
Theorem updateLocalVideoStream_replaces :
  forall (w : World) (l s : StreamRef) (n : Track) (ns : list Track)
         (cb : option Handler) (stopDesktop : bool),
    localStream (ss w) = Some l ->
    length (videoTracksOf w l) ≤ 1 ->
    videoTracksOf w s = n :: ns ->
    (stopDesktop = true ->
     forall d, desktopStream (ss w) = Some d -> videoTracksOf w d ≠ []) ->
    let o := updateLocalVideoStream (Some s) cb stopDesktop w in
    res o = Ok tt /\
    localStream (ss (st o)) = Some l /\
    videoTracksOf (st o) l = [n] /\
    audioTracksOf (st o) l = audioTracksOf w l /\
    (forall s', s' ≠ l -> tracksOf (st o) s' = tracksOf w s') /\
    (forall v, v ∈ videoTracksOf w l -> tid v ∈ ended (st o)) /\
    ended w ⊆ ended (st o) /\
    (forall h, cb = Some h -> onended (st o) !! tid n = Some h).
Proof.
  intros w l s n ns cb stopDesktop Hl Hle Hs Hd o. subst o.
  assert (Hfalse : forall w0 : World,
    this w0 = this w -> streams w0 = streams w -> ended w ⊆ ended w0 ->
    let o := updateLocalVideoStream (Some s) cb false w0 in
    res o = Ok tt /\
    localStream (ss (st o)) = Some l /\
    videoTracksOf (st o) l = [n] /\
    audioTracksOf (st o) l = audioTracksOf w l /\
    (forall s', s' ≠ l -> tracksOf (st o) s' = tracksOf w s') /\
    (forall v, v ∈ videoTracksOf w l -> tid v ∈ ended (st o)) /\
    ended w ⊆ ended (st o) /\
    (forall h, cb = Some h -> onended (st o) !! tid n = Some h)).
  { intros w0 Hthis Hstr Hsub.
    assert (Hv0 : forall x, videoTracksOf w0 x = videoTracksOf w x)
      by (intros x; unfold videoTracksOf, tracksOf; by rewrite Hstr).
    assert (Ha0 : forall x, audioTracksOf w0 x = audioTracksOf w x)
      by (intros x; unfold audioTracksOf, tracksOf; by rewrite Hstr).
    destruct (updateLocalVideoStream_keep_desktop w0 l s n ns cb)
      as (H1 & H2 & H3 & H4 & H5 & H6 & H7 & _);
      [by rewrite Hthis | by rewrite Hv0 | by rewrite Hv0 |].
    cbv zeta. split_and!; try done.
    - by rewrite H4, Ha0.
    - intros s' Hs'. rewrite (H5 s' Hs'). unfold tracksOf. by rewrite Hstr.
    - intros v Hv. rewrite H6, Hv0. apply elem_of_union_l. by apply elem_of_ids.
    - rewrite H6. set_solver.
    - intros h ->. exact H7. }
  destruct stopDesktop; [|by apply Hfalse].
  destruct (desktopStream (ss w)) as [d|] eqn:Hds.
  - destruct (videoTracksOf w d) as [|t ts] eqn:Ht; [by destruct (Hd eq_refl d eq_refl)|].
    rewrite (updateLocalVideoStream_stop_desktop _ _ _ _ _ _ Hds Ht).
    rewrite res_prepend, st_prepend. apply Hfalse; wsimpl; [done|done|set_solver].
  - rewrite (updateLocalVideoStream_no_desktop _ _ _ _ Hds). by apply Hfalse.
Qed.

Lemma updateLocalVideoStream_replaces_witness :
  videoTracksOf (st (updateLocalVideoStream (Some 2) None false audio_and_video)) 1 =
    [MkTrack Video 12].
Proof.
  assert (H1 : localStream (ss audio_and_video) = Some 1) by (vm_compute; reflexivity).
  assert (H2 : length (videoTracksOf audio_and_video 1) ≤ 1) by (vm_compute; lia).
  assert (H3 : videoTracksOf audio_and_video 2 = [MkTrack Video 12])
    by (vm_compute; reflexivity).
  assert (H4 : false = true ->
               forall d, desktopStream (ss audio_and_video) = Some d ->
                         videoTracksOf audio_and_video d ≠ []) by discriminate.
  pose proof (updateLocalVideoStream_replaces audio_and_video 1 2 (MkTrack Video 12) []
                None false H1 H2 H3 H4) as H.
  cbv zeta in H. destruct H as (_ & _ & H & _). exact H.
Defined.

(** X7.  Given a stream without a video track (the desktop stream not
    being stopped), [updateLocalVideoStream] fails with a TypeError, from
    addTrack(undefined), but only after it has removed and stopped the
    video track of the Local Stream: the Local Stream is left without
    video, with its audio tracks, and nothing else of the instance has
    changed.  If the Local Stream had no video track, nothing happened at
    all. *)
Theorem updateLocalVideoStream_without_video :
  forall (w : World) (l s : StreamRef) (cb : option Handler) (stopDesktop : bool),
    localStream (ss w) = Some l ->
    videoTracksOf w s = [] ->
    stopDesktop = false \/ desktopStream (ss w) = None ->
    let o := updateLocalVideoStream (Some s) cb stopDesktop w in
    (exists what, res o = Thrown (TypeError what)) /\
    (length (videoTracksOf w l) ≤ 1 -> videoTracksOf (st o) l = []) /\
    audioTracksOf (st o) l = audioTracksOf w l /\
    this (st o) = this w /\
    match head (videoTracksOf w l) with
    | Some v =>
        (v ∉ tracksOf (st o) l) /\ tid v ∈ ended (st o) /\
        log o = [EvRemoveTrack l v; EvStop v]
    | None => (st o = w /\ log o = [])
    end.
Proof.
  intros w l s cb stopDesktop Hl Hs Hd o. subst o.
  assert (Heq : updateLocalVideoStream (Some s) cb stopDesktop w =
                updateLocalVideoStream (Some s) cb false w).
  { destruct Hd as [->|Hd]; [done|]. by apply updateLocalVideoStream_no_desktop. }
  rewrite Heq. clear Heq Hd.
  unfold updateLocalVideoStream. runs. rewrite Hs, Hl. cbn [head]. runs.
  destruct (videoTracksOf w l) as [|v vs] eqn:Hvl; cbn [head tail]; runs.
  - unfold addTrack. runs. rewrite Hvl. split_and!; try done. by eexists.
  - unfold addTrack. runs.
    destruct (video_head_kind _ _ _ _ Hvl) as [Hkv Hinv].
    unfold videoTracksOf, audioTracksOf, tracksOf in *. wsimpl.
    rewrite !lookup_insert_eq. cbn [default from_option id].
    split_and!; try done.
    + by eexists.
    + intros Hle. rewrite filter_swap, Hvl. rewrite filter_cons_False by naive_solver.
      destruct vs; [done|simpl in Hle; lia].
    + by apply filter_audio_without_video.
    + intros Hin. apply list_elem_of_filter in Hin as [Hne _]. done.
    + set_solver.
Qed.

Lemma updateLocalVideoStream_without_video_witness :
  exists what,
    res (updateLocalVideoStream (Some 3) None false audio_offered) =
    Thrown (TypeError what).
Proof.
  assert (H1 : localStream (ss audio_offered) = Some 1) by (vm_compute; reflexivity).
  assert (H2 : videoTracksOf audio_offered 3 = []) by (vm_compute; reflexivity).
  pose proof (updateLocalVideoStream_without_video audio_offered 1 3 None false
                H1 H2 (or_introl eq_refl)) as H.
  cbv zeta in H. destruct H as (H & _). exact H.
Defined.

(** ** Turning the camera off *)

Lemma detach_ok {A} (m : M A) w a w' lg :
  m w = MkOut (Ok a) w' lg -> detach m w = MkOut (Ok tt) w' lg.
Proof.
  intros H. unfold detach, try_catch. rewrite run_bind, H. cbn.
  rewrite run_ret. unfold prepend. cbn. by rewrite app_nil_r.
Qed.

Lemma detach_thrown {A} (m : M A) w e w' lg :
  m w = MkOut (Thrown e) w' lg ->
  detach m w = MkOut (Ok tt) w' (lg ++ [EvUnhandledRejection e]).
Proof.
  intros H. unfold detach, try_catch. rewrite run_bind, H. by cbn.
Qed.

Lemma detach_res_ok {A} (m : M A) w a :
  res (m w) = Ok a -> detach m w = MkOut (Ok tt) (st (m w)) (log (m w)).
Proof.
  intros H. apply (detach_ok m w a). destruct (m w); simpl in *. by subst.
Qed.

Lemma initializeDummyFrame_run w :
  initializeDummyFrame w =
  MkOut (Ok tt)
    (on_this (on_sstate (set_replacementStream (Some (S (next_id w)))))
       (on_streams <[S (next_id w) := [MkTrack Video (next_id w)]]>
          (bump_id (bump_id w))))
    [EvFillRect].
Proof.
  unfold initializeDummyFrame, captureStream, update_sstate.
  rewrite run_emit_bind, run_bind_assoc.
  rewrite (run_bind_ok _ _ _ _ _ _ (newTrack_run _ _)).
  rewrite (run_bind_ok _ _ _ _ _ _ (newStream_run _ _)).
  by rewrite run_modify.
Qed.

(** The end of [turnOffLocalCamera]. *)
Lemma start_blackFrameTimer_run w :
  (b ← gets (fun w => blackFrameTimer (fl w));
   match b with
   | None =>
       t ← setInterval TaskBlackFrame 3000;
       update_flags (set_blackFrameTimer (Some t))
   | Some _ => mret tt
   end) w =
  match blackFrameTimer (fl w) with
  | Some _ => MkOut (Ok tt) w []
  | None =>
      MkOut (Ok tt)
        (on_this (on_flags (set_blackFrameTimer (Some (next_timer w))))
           (on_timers <[next_timer w := MkTimer TaskBlackFrame 3000]> (bump_timer w)))
        [EvSetInterval (next_timer w) (MkTimer TaskBlackFrame 3000)]
  end.
Proof.
  run1. destruct (blackFrameTimer (fl w)); [done|].
  rewrite (run_bind_ok _ _ _ _ _ _ (setInterval_run _ _ _)). unfold update_flags.
  by rewrite run_modify.
Qed.

(** X8.  [turnOffLocalCamera] with a Local Stream that holds at most one
    video track, with no desktop stream.  It returns normally, the camera
    is recorded as disabled, and [replacementStream] is a new stream whose
    only track is the new canvas track.  If the stream is not published,
    or the sender accepts the canvas track, the canvas track is the only
    video track of the Local Stream, the audio tracks are unchanged and
    the camera track is ended.  If the sender rejects it, the Local Stream
    is unchanged and the camera track stays live (while the camera is
    recorded as disabled), and the rejection is handled by nobody. *)
Theorem turnOffLocalCamera_swaps_in_the_dummy :
  forall (E : Env) (streamId : JsId) (w : World) (l : StreamRef),
    localStream (ss w) = Some l ->
    l < next_id w ->
    length (videoTracksOf w l) ≤ 1 ->
    desktopStream (ss w) = None ->
    let id := match streamId with
              | IdUndefined => publishStreamId (cfg w)
              | _ => streamId
              end in
    let dummy := MkTrack Video (next_id w) in
    let o := turnOffLocalCamera E streamId w in
    res o = Ok tt /\
    cameraEnabled (fl (st o)) = false /\
    replacementStream (ss (st o)) = Some (S (next_id w)) /\
    tracksOf (st o) (S (next_id w)) = [dummy] /\
    (getSender E id Video = None \/
     (exists sender, getSender E id Video = Some sender /\
        replaceTrack_result E (clock w) sender (Some dummy) = None) ->
     videoTracksOf (st o) l = [dummy] /\
     audioTracksOf (st o) l = audioTracksOf w l /\
     (forall v, v ∈ videoTracksOf w l -> tid v ∈ ended (st o))) /\
    (forall sender e,
       getSender E id Video = Some sender ->
       replaceTrack_result E (clock w) sender (Some dummy) = Some e ->
       tracksOf (st o) l = tracksOf w l /\
       ended (st o) = ended w /\
       EvUnhandledRejection e ∈ log o).
Proof.
  intros E streamId w l Hl Hlt Hle Hds id dummy o. subst o.
  unfold turnOffLocalCamera.
  rewrite (run_bind_ok _ _ _ _ _ _ (initializeDummyFrame_run _)).
  rewrite run_gets_bind. wsimpl. rewrite Hl. rewrite run_bind_assoc.
  assert (Hid : forall B (k : JsId -> M B) w0,
            publishStreamId (cfg w0) = publishStreamId (cfg w) ->
            (choosenId streamId ≫= k) w0 = k id w0).
  { intros B k w0 Hp. subst id. unfold choosenId.
    destruct streamId; run1; by rewrite ?Hp. }
  rewrite Hid by done. unfold update_flags.
  rewrite run_bind_assoc, run_modify_bind, run_bind_assoc, run_gets_bind. wsimpl.
  set (w2 := on_this (on_flags (set_cameraEnabled false)) _).
  assert (Hl2 : localStream (ss w2) = Some l) by done.
  assert (Hne : l ≠ S (next_id w)) by lia.
  assert (Htr : forall x, x ≠ S (next_id w) -> tracksOf w2 x = tracksOf w x).
  { intros x Hx. unfold tracksOf. subst w2. wsimpl. by rewrite lookup_insert_ne. }
  assert (Hdummy : tracksOf w2 (S (next_id w)) = [dummy]).
  { unfold tracksOf. subst w2. wsimpl. by rewrite lookup_insert_eq. }
  assert (Hv2 : videoTracksOf w2 l = videoTracksOf w l)
    by (unfold videoTracksOf; by rewrite Htr).
  assert (Ha2 : audioTracksOf w2 l = audioTracksOf w l)
    by (unfold audioTracksOf; by rewrite Htr).
  assert (Hvd : videoTracksOf w2 (S (next_id w)) = [dummy])
    by (unfold videoTracksOf; by rewrite Hdummy).
  assert (HU : forall w3 : World,
    this w3 = this w2 -> streams w3 = streams w2 -> ended w3 = ended w2 ->
    let u := updateLocalVideoStream (Some (S (next_id w))) None true w3 in
    res u = Ok tt /\
    (fl (st u) = fl w2 /\ replacementStream (ss (st u)) = replacementStream (ss w2)) /\
    videoTracksOf (st u) l = [dummy] /\
    audioTracksOf (st u) l = audioTracksOf w l /\
    tracksOf (st u) (S (next_id w)) = [dummy] /\
    (forall v, v ∈ videoTracksOf w l -> tid v ∈ ended (st u))).
  { intros w3 Ht3 Hs3 He3.
    assert (Hx : forall x, tracksOf w3 x = tracksOf w2 x)
      by (intros x; unfold tracksOf; by rewrite Hs3).
    assert (Hframe : pres (fun w' => fl w' = fl w2 /\
                             replacementStream (ss w') = replacementStream (ss w2))
                       (updateLocalVideoStream (Some (S (next_id w))) None true)).
    { unfold updateLocalVideoStream, refreshLocalVideo.
      pres_go ltac:(idtac; intros ? HI; try case_bool_decide; exact HI). }
    assert (Hd3 : desktopStream (ss w3) = None).
    { rewrite Ht3. subst w2; wsimpl. exact Hds. }
    assert (Hf3 : fl w3 = fl w2 /\
                  replacementStream (ss w3) = replacementStream (ss w2))
      by (by rewrite Ht3).
    apply Hframe in Hf3.
    rewrite (updateLocalVideoStream_no_desktop _ _ _ _ Hd3) in Hf3 |- *.
    destruct (updateLocalVideoStream_keep_desktop w3 l (S (next_id w)) dummy [] None)
      as (U1 & U2 & U3 & U4 & U5 & U6 & _).
    - by rewrite Ht3.
    - unfold videoTracksOf. by rewrite Hx, Htr.
    - unfold videoTracksOf. by rewrite Hx, Hdummy.
    - cbv zeta. split_and!; try done.
      + apply Hf3.
      + apply Hf3.
      + rewrite U4. unfold audioTracksOf. by rewrite Hx, Htr.
      + rewrite U5 by done. by rewrite Hx.
      + intros v Hv. rewrite U6. apply elem_of_union_l, elem_of_ids.
        unfold videoTracksOf. by rewrite Hx, Htr. }
  assert (Htail : forall w4,
    let t := (b ← gets (fun w => blackFrameTimer (fl w));
              match b with
              | Some _ => mret tt
              | None =>
                  t ← setInterval TaskBlackFrame 3000;
                  modify (on_this (on_flags (set_blackFrameTimer (Some t))))
              end) w4 in
    res t = Ok tt /\ streams (st t) = streams w4 /\ ended (st t) = ended w4 /\
    sstate (this (st t)) = sstate (this w4) /\
    cameraEnabled (fl (st t)) = cameraEnabled (fl w4)).
  { intros w4. cbv zeta. run1. destruct (blackFrameTimer (fl w4)); [done|].
    rewrite (run_bind_ok _ _ _ _ _ _ (setInterval_run _ _ _)). by rewrite run_modify. }
  assert (Hdet : exists w4 lg,
    detach (updateVideoTrack E (Some (S (next_id w))) id None true) w2 =
      MkOut (Ok tt) w4 lg /\
    fl w4 = fl w2 /\ replacementStream (ss w4) = replacementStream (ss w2) /\
    tracksOf w4 (S (next_id w)) = [dummy] /\
    (getSender E id Video = None \/
     (exists sender, getSender E id Video = Some sender /\
        replaceTrack_result E (clock w) sender (Some dummy) = None) ->
     videoTracksOf w4 l = [dummy] /\
     audioTracksOf w4 l = audioTracksOf w l /\
     (forall v, v ∈ videoTracksOf w l -> tid v ∈ ended w4)) /\
    (forall sender e,
       getSender E id Video = Some sender ->
       replaceTrack_result E (clock w) sender (Some dummy) = Some e ->
       tracksOf w4 l = tracksOf w l /\ ended w4 = ended w /\
       EvUnhandledRejection e ∈ lg)).
  { unfold updateVideoTrack.
    destruct (getSender E id Video) as [sender|] eqn:Hsender.
    - destruct (replaceTrack_result E (clock w) sender (Some dummy)) as [e|] eqn:Hrep.
      + eexists _, _. split.
        * apply detach_thrown. run. rewrite Hvd. cbn [head].
          rewrite run_bind, replaceTrack_run.
          change (clock w2) with (clock w). rewrite Hrep. reflexivity.
        * wsimpl. split_and!; try done.
          -- intros [?|(? & ? & ?)]; congruence.
          -- intros sender' e' [= <-] He'. rewrite Hrep in He'.
             injection He' as <-. split_and!; try done.
             ++ by rewrite <- (Htr l Hne).
             ++ apply elem_of_app. right. left.
      + destruct (HU (on_bound <[sender := Some dummy]> (bump_clock w2)))
          as (U1 & [U2 U2'] & U3 & U4 & U5 & U6); try done.
        eexists _, _. split.
        * apply (detach_res_ok _ _ tt). run. rewrite Hvd. cbn [head].
          rewrite run_bind, replaceTrack_run.
          change (clock w2) with (clock w). rewrite Hrep. cbn [res].
          rewrite res_prepend. exact U1.
        * run. rewrite Hvd. cbn [head]. rewrite run_bind, replaceTrack_run.
          change (clock w2) with (clock w). rewrite Hrep. cbn [res st log].
          rewrite st_prepend. split_and!; try done. intros ? ? [= <-] He'. congruence.
    - destruct (HU w2) as (U1 & [U2 U2'] & U3 & U4 & U5 & U6); try done.
      eexists _, _. split; [by apply (detach_res_ok _ _ tt)|]. split_and!; try done. }
  destruct Hdet as (w4 & lg & Hdet & D1 & D2 & D3 & D4 & D5).
  rewrite run_bind, Hdet. cbn [res st log]. rewrite res_prepend, st_prepend, log_prepend.
  destruct (Htail w4) as (T1 & T2 & T3 & T4 & T5). cbv zeta in *.
  split; [done|]. split; [by rewrite T5, D1|]. split; [by rewrite T4, D2|].
  split; [unfold tracksOf in *; by rewrite T2|]. split.
  - intros Hor. destruct (D4 Hor) as (A1 & A2 & A3).
    unfold videoTracksOf, audioTracksOf, tracksOf in *. rewrite T2, T3. done.
  - intros sender e Hs He. destruct (D5 sender e Hs He) as (A1 & A2 & A3).
    unfold tracksOf in *. rewrite T2, T3. split_and!; try done.
    clear -A3. rewrite !elem_of_app. tauto.
Qed.

Lemma turnOffLocalCamera_swaps_in_the_dummy_witness :
  cameraEnabled (fl (st (turnOffLocalCamera publishing stream1 audio_and_video))) = false.
Proof.
  assert (H1 : localStream (ss audio_and_video) = Some 1) by (vm_compute; reflexivity).
  assert (H2 : 1 < next_id audio_and_video) by (vm_compute; lia).
  assert (H3 : length (videoTracksOf audio_and_video 1) ≤ 1) by (vm_compute; lia).
  assert (H4 : desktopStream (ss audio_and_video) = None) by (vm_compute; reflexivity).
  pose proof (turnOffLocalCamera_swaps_in_the_dummy publishing stream1 audio_and_video 1
                H1 H2 H3 H4) as H.
  cbv zeta in H. destruct H as (_ & H & _). exact H.
Defined.

(** ** A switch of the audio input *)

Lemma setAudioInputSource_fails E id mc cb w :
  window_deviceStream E = None -> devices (cfg w) = None ->
  setAudioInputSource E id mc cb w =
  MkOut (Thrown (if truthy (mc_audio mc) then ReferenceError "deviceStream"
                 else TypeError "this.devices.getAudioTracks")) w [].
Proof.
  intros Hw Hd. unfold setAudioInputSource, free_deviceStream. rewrite Hw.
  destruct (truthy (mc_audio mc)); cbn [negb]; run; [done|]. by rewrite Hd.
Qed.

(** X9.  [setAudioInputSource] reads the identifier [deviceStream], which
    the file declares nowhere, and [this.devices], which it never assigns.
    So on a page without a global [deviceStream], and with [devices]
    unset, [switchAudioInputSource] stops the audio track of the Local
    Stream and acquires none: no stream changes, no sender is bound, the
    platform is asked nothing, and the log holds only the stop and an
    unhandled rejection.  When a device id is given and the audio
    constraint is truthy, the call returns normally, the device id is
    written into the constraints, and the rejection is
    ReferenceError "deviceStream". *)
Theorem switchAudioInputSource_acquires_nothing :
  forall (E : Env) (w : World) (streamId : JsId) (deviceId : option string)
         (l : StreamRef),
    window_deviceStream E = None ->
    devices (cfg w) = None ->
    localStream (ss w) = Some l ->
    let o := switchAudioInputSource E streamId deviceId w in
    streams (st o) = streams w /\
    bound (st o) = bound w /\
    clock (st o) = clock w /\
    ended (st o) = ids (option_list (head (audioTracksOf w l))) ∪ ended w /\
    Forall stop_or_rejection (log o) /\
    (forall d mc, deviceId = Some d -> mediaConstraints (cfg w) = Some mc ->
       truthy (mc_audio mc) = true ->
       res o = Ok tt /\
       log o = (EvStop <$> option_list (head (audioTracksOf w l))) ++
               [EvUnhandledRejection (ReferenceError "deviceStream")] /\
       exists audio,
         mediaConstraints (cfg (st o)) = Some (MkMC (mc_video mc) (CObj audio)) /\
         c_deviceId audio = Some (DevPlain d)).
Proof.
  intros E w streamId deviceId l Hw Hd Hl o. subst o.
  unfold switchAudioInputSource. run1. rewrite Hl. run1. run1.
  assert (Hstop : forall k : unit -> M unit,
    (match head (audioTracksOf w l) with
     | Some audioTrack => stop audioTrack
     | None => mret ()
     end ≫= k) w =
    prepend (EvStop <$> option_list (head (audioTracksOf w l)))
      (k tt (on_ended (fun e => ids (option_list (head (audioTracksOf w l))) ∪ e) w))).
  { intros k. destruct (head (audioTracksOf w l)) as [a|]; cbn [option_list fmap list_fmap].
    - run_call. do 2 f_equal. apply world_eq; wsimpl; try done. unfold ids; simpl. set_solver.
    - run1. rewrite prepend_nil. f_equal. apply world_eq; wsimpl; try done.
      unfold ids; simpl. set_solver. }
  rewrite Hstop. clear Hstop. rewrite st_prepend, res_prepend, log_prepend.
  set (w0 := on_ended _ w).
  assert (Hd0 : devices (cfg w0) = None) by done.
  destruct deviceId as [d|].
  - run1. destruct (mediaConstraints (cfg w)) as [mc|] eqn:Hmc; [|].
    + change (mediaConstraints (cfg w0)) with (mediaConstraints (cfg w)).
      rewrite Hmc. run1. unfold update_settings.
      destruct (mc_audio mc) as [|[]|co] eqn:Ha; run;
        try (erewrite detach_thrown by (apply setAudioInputSource_fails; done));
        wsimpl; (split_and!; try done);
        try (apply Forall_app; split; [apply Forall_fmap, Forall_true; done
                                      |repeat constructor]);
        try (apply Forall_app; split; [apply Forall_fmap, Forall_true; done|constructor]).
      all: intros d' mc' [= <-] [= <-]; rewrite ?Ha; try done.
      all: intros _; split_and!; try done; eexists; split; [reflexivity|done].
    + change (mediaConstraints (cfg w0)) with (mediaConstraints (cfg w)).
      rewrite Hmc. run. wsimpl. split_and!; try done.
      all: try (rewrite app_nil_r; apply Forall_fmap, Forall_true; done).
      all: try (intros ? ? _ [=]).
  - run_call. erewrite detach_thrown by (apply setAudioInputSource_fails; done).
    wsimpl. split_and!; try done.
    all: try (apply Forall_app; split;
              [apply Forall_fmap, Forall_true; done|repeat constructor]).
    all: try (intros ? ? [=]).
Qed.

Lemma switchAudioInputSource_acquires_nothing_witness :
  streams (st (switchAudioInputSource browser stream1 (Some "mic1") audio_and_video)) =
  streams audio_and_video.
Proof.
  assert (H1 : window_deviceStream browser = None) by reflexivity.
  assert (H2 : devices (cfg audio_and_video) = None) by (vm_compute; reflexivity).
  assert (H3 : localStream (ss audio_and_video) = Some 1) by (vm_compute; reflexivity).
  pose proof (switchAudioInputSource_acquires_nothing browser audio_and_video stream1
                (Some "mic1") 1 H1 H2 H3) as H.
  cbv zeta in H. destruct H as (H & _). exact H.
Defined.

(** ** The volume *)

Lemma setGain_lookup g v w g' :
  gains (st (setGain g v w)) !! g' =
  if decide (g' = g) then with_gain v <$> gains w !! g' else gains w !! g'.
Proof.
  rewrite setGain_run. wsimpl. case_decide as Hg.
  - subst g'. destruct (gains w !! g) as [n|] eqn:Hn.
    + by rewrite lookup_insert_eq.
    + by rewrite Hn.
  - destruct (gains w !! g) as [n|] eqn:Hn; [|done]. by rewrite lookup_insert_ne.
Qed.

Lemma set_if_lookup o v w g :
  gains (set_if o v w) !! g =
  if decide (o = Some g) then with_gain v <$> gains w !! g else gains w !! g.
Proof.
  destruct o as [g0|]; cbn [set_if]; [|by case_decide].
  rewrite setGain_lookup. repeat case_decide; naive_solver.
Qed.

Lemma set_if_frame o v w :
  set_if o v w = on_gains (fun _ => gains (set_if o v w)) w.
Proof. destruct o; [|by destruct w]. cbn [set_if]. by rewrite setGain_run. Qed.

Lemma setVolumeLevel_run' v w :
  setVolumeLevel v w =
  MkOut (Ok tt)
    (set_if (secondaryAudioTrackGainNode (ag w)) v
       (set_if (primaryAudioTrackGainNode (ag w)) v
          (on_this (on_graph (set_currentVolume (Some v))) w))) [].
Proof.
  unfold setVolumeLevel, update_graph. runs.
  destruct (primaryAudioTrackGainNode (ag w)) as [p|] eqn:Hp;
    destruct (secondaryAudioTrackGainNode (ag w)) as [q|] eqn:Hq; runs;
    rewrite ?Hp, ?Hq, ?prepend_nil, ?run_ret, ?setGain_run; cbn [set_if]; by rewrite ?setGain_run.
Qed.

Lemma setVolumeLevel_state v w :
  exists gs,
    setVolumeLevel v w =
      MkOut (Ok tt)
        (on_gains (fun _ => gs) (on_this (on_graph (set_currentVolume (Some v))) w)) [] /\
    forall g,
      gs !! g =
      if decide (volume_node w g) then with_gain v <$> gains w !! g else gains w !! g.
Proof.
  eexists. split.
  - rewrite setVolumeLevel_run'. f_equal.
    rewrite set_if_frame. rewrite (set_if_frame (primaryAudioTrackGainNode _)).
    wsimpl. reflexivity.
  - intros g. rewrite set_if_lookup. wsimpl. rewrite set_if_lookup. wsimpl.
    unfold volume_node. repeat case_decide; try naive_solver.
    destruct (gains w !! g) as [[]|]; done.
Qed.

(** X10.  [setVolumeLevel(v)] never fails and logs nothing.  It records [v]
    as the current volume, sets the gain of the primary and of the
    secondary node (those that exist) to [v], keeping their inputs, and
    changes no other node and nothing else: the settings, the stream
    state and the flags of the instance are as before, and the state is
    the old one but for the current volume and the gains.  Setting a
    volume twice is setting the last one. *)
Theorem setVolumeLevel_sets_every_branch :
  forall (v : float) (w : World),
    let o := setVolumeLevel v w in
    res o = Ok tt /\ log o = [] /\
    currentVolume (ag (st o)) = Some v /\
    primaryAudioTrackGainNode (ag (st o)) = primaryAudioTrackGainNode (ag w) /\
    secondaryAudioTrackGainNode (ag (st o)) = secondaryAudioTrackGainNode (ag w) /\
    (forall g node, volume_node w g -> gains w !! g = Some node ->
       gains (st o) !! g = Some (MkGain v (gain_input node))) /\
    (forall g, ~ volume_node w g -> gains (st o) !! g = gains w !! g) /\
    cfg (st o) = cfg w /\ ss (st o) = ss w /\ fl (st o) = fl w /\
    st o = on_gains (fun _ => gains (st o))
             (on_this (on_graph (set_currentVolume (Some v))) w) /\
    (forall v0, st (setVolumeLevel v (st (setVolumeLevel v0 w))) = st o).
Proof.
  intros v w o. subst o.
  destruct (setVolumeLevel_state v w) as (gs & Hrun & Hg). rewrite Hrun. wsimpl.
  split; [done|]. split; [done|]. split; [done|]. split; [done|]. split; [done|].
  split; [|split; [|split; [done|split; [done|split; [done|split; [done|]]]]]].
  - intros g node Hv Hn. rewrite Hg, decide_True by done. by rewrite Hn.
  - intros g Hv. by rewrite Hg, decide_False.
  - intros v0.
    destruct (setVolumeLevel_state v0 w) as (gs0 & Hrun0 & Hg0). rewrite Hrun0.
    cbn [st].
    set (w0 := on_gains (fun _ => gs0) (on_this (on_graph (set_currentVolume (Some v0))) w)).
    destruct (setVolumeLevel_state v w0) as (gs1 & Hrun1 & Hg1). rewrite Hrun1.
    cbn [st]. subst w0. apply world_eq; wsimpl; try done.
    apply map_eq. intros g. rewrite Hg1, Hg. wsimpl. rewrite Hg0.
    assert (Hiff : volume_node
                (on_gains (fun _ => gs0)
                   (on_this (on_graph (set_currentVolume (Some v0))) w)) g <->
              volume_node w g) by done.
    repeat case_decide; try naive_solver.
    by destruct (gains w !! g) as [[]|].
Qed.

(** X11.  [enableSecondStreamInMixedAudio].  Without a secondary gain node
    the call throws and changes nothing: the guard does not return, it
    evaluates the undeclared identifier [reeturn] (a ReferenceError, unless
    the page defines it).  With one, the gain of that node becomes 1
    (enable) or 0, and nothing else changes.  The volume is not taken into
    account: enabling after [setVolumeLevel(v)] leaves the node at 1, and
    a later [setVolumeLevel(v)] sets it to [v], also when it was
    disabled. *)
Theorem enableSecondStreamInMixedAudio_outcome :
  forall (reeturn_defined enable : bool) (w : World),
    let o := enableSecondStreamInMixedAudio reeturn_defined enable w in
    match secondaryAudioTrackGainNode (ag w) with
    | None =>
        (exists e, res o = Thrown e /\
                   (reeturn_defined = false -> e = ReferenceError "reeturn")) /\
        st o = w /\ log o = []
    | Some g =>
        res o = Ok tt /\ log o = [] /\ this (st o) = this w /\
        (forall node, gains w !! g = Some node ->
           gains (st o) !! g =
           Some (MkGain (if enable then 1 else 0)%float (gain_input node))) /\
        (forall g', g' ≠ g -> gains (st o) !! g' = gains w !! g') /\
        (forall v b,
           gain_value <$>
             gains (st ((setVolumeLevel v;;
                         enableSecondStreamInMixedAudio b true) w)) !! g =
           (fun _ => 1%float) <$> gains w !! g) /\
        (forall v,
           gain_value <$> gains (st (setVolumeLevel v (st o))) !! g =
           (fun _ => v) <$> gains w !! g)
    end.
Proof.
  intros rd enable w o. subst o. unfold enableSecondStreamInMixedAudio. run1.
  destruct (secondaryAudioTrackGainNode (ag w)) as [g|] eqn:Hs.
  - run. rewrite Hs. run.
    assert (Hlk : forall x w0 g', gains (st (setGain g x w0)) !! g' =
              if decide (g' = g) then with_gain x <$> gains w0 !! g' else gains w0 !! g')
      by (intros; apply setGain_lookup).
    split; [done|]. split; [done|]. split; [by rewrite setGain_run|].
    split; [|split; [|split]].
    + intros node Hn. rewrite Hlk, decide_True by done. by rewrite Hn.
    + intros g' Hne. by rewrite Hlk, decide_False.
    + intros v b. destruct (setVolumeLevel_state v w) as (gs & Hrun & Hg).
      rewrite run_bind, Hrun. cbn [res st log]. rewrite st_prepend.
      unfold enableSecondStreamInMixedAudio.
      run1. wsimpl. rewrite Hs. run. wsimpl. rewrite Hs. run.
      rewrite Hlk, decide_True by done. wsimpl. rewrite Hg.
      rewrite decide_True by (by right). by destruct (gains w !! g).
    + intros v.
      destruct (setVolumeLevel_state v (st (setGain g (if enable then 1 else 0)%float w)))
        as (gs & Hrun & Hg).
      rewrite Hrun. wsimpl. rewrite Hg, Hlk, decide_True, decide_True; [|done|].
      * by destruct (gains w !! g).
      * right. by rewrite setGain_run.
  - destruct rd; run; rewrite ?Hs; run; (split; [|done]); eexists; split; done.
Qed.

(** ** Refused requests *)

Lemma navigator_enumerateDevices_run E w :
  navigator_enumerateDevices E w =
  MkOut (match enumerateDevices E (clock w) with
         | inl ds => Ok ds
         | inr e => Thrown e
         end) (bump_clock w) [EvEnumerateDevices].
Proof.
  unfold navigator_enumerateDevices. runs.
  by destruct (enumerateDevices E (clock w)).
Qed.

Lemma navigator_getUserMedia_refused E mc w e :
  userMedia E (clock w) mc = Refused e ->
  navigator_getUserMedia E mc w = MkOut (Thrown e) (bump_clock w) [EvGetUserMedia mc].
Proof. intros H. unfold navigator_getUserMedia. runs. by rewrite H. Qed.

Lemma getUserMedia_refused E mc w e :
  userMedia E (clock w) mc = Refused e ->
  getUserMedia E mc false w =
    MkOut (Thrown e) (bump_clock w) [EvGetUserMedia mc] /\
  getUserMedia E mc true w =
    (if String.eqb (error_name e) "NotFoundError"
     then MkOut (Ok None) (bump_clock w) [EvGetUserMedia mc; EvGetDevicesStarted]
     else MkOut (Thrown e) (bump_clock w)
            [EvGetUserMedia mc; EvCallbackError (error_name e)]).
Proof.
  intros He.
  assert (Hnav : forall A (k : StreamRef -> M A),
            (navigator_getUserMedia E mc ≫= k) w =
            MkOut (Thrown e) (bump_clock w) [EvGetUserMedia mc]).
  { intros A k. by rewrite run_bind, (navigator_getUserMedia_refused _ _ _ _ He). }
  split.
  - unfold getUserMedia. apply Hnav.
  - unfold getUserMedia. rewrite (try_catch_thrown _ _ _ _ _ _ (Hnav _ _)).
    destruct (String.eqb (error_name e) "NotFoundError"); [by runs|].
    rewrite (run_bind_ok _ _ _ _ _ _ (callbackError_run _ _ _)). by runs.
Qed.

(** X12.  When the browser refuses getUserMedia: without the catch flag
    [getUserMedia] fails with the browser's error and nothing else
    happens.  With it, a NotFoundError is swallowed (the call returns no
    stream; [getDevices] is started), and any other error is reported to
    callbackError by its name and thrown again.  So [openStream] in camera
    mode, on a NotFoundError, goes on to prepare a stream it does not have
    and fails with a TypeError; on the way it has only asked for the
    camera, started [getDevices] and stopped tracks. *)
Theorem getUserMedia_error_policy :
  forall (E : Env) (mc : MediaConstraints) (w : World) (e : JsError),
    userMedia E (clock w) mc = Refused e ->
    getUserMedia E mc false w =
      MkOut (Thrown e) (bump_clock w) [EvGetUserMedia mc] /\
    getUserMedia E mc true w =
      (if String.eqb (error_name e) "NotFoundError"
       then MkOut (Ok None) (bump_clock w) [EvGetUserMedia mc; EvGetDevicesStarted]
       else MkOut (Thrown e) (bump_clock w)
              [EvGetUserMedia mc; EvCallbackError (error_name e)]) /\
    (forall fuel streamId,
       publishMode (cfg w) = PMCamera ->
       mc_video mc ≠ CUndefined ->
       audioMode (cfg w) ≠ AMOff ->
       String.eqb (error_name e) "NotFoundError" = true ->
       exists what,
         res (openStream E (S fuel) mc streamId w) = Thrown (TypeError what) /\
         Forall (fun ev => ev = EvGetUserMedia mc \/ ev = EvGetDevicesStarted \/
                           exists t, ev = EvStop t)
           (log (openStream E (S fuel) mc streamId w))).
Proof.
  intros E mc w e He.
  destruct (getUserMedia_refused E mc w e He) as [H1 H2].
  split; [done|]. split; [done|].
  intros fuel streamId Hpm Hv Ham Hnf. cbn [openStream]. unfold update_settings.
  run1. run_call. rewrite prepend_nil.
  assert (Hc : constraints_now
            (on_this (on_settings (set_mediaConstraints (Some mc))) w) = mc).
  { unfold constraints_now. wsimpl. by destruct (audioMode (cfg w)). }
  rewrite Hc.
  destruct (getUserMedia_refused E mc
              (on_this (on_settings (set_mediaConstraints (Some mc))) w) e He)
    as [_ H3].
  rewrite Hnf in H3.
  destruct (mc_video mc) eqn:Hvideo; [done| |].
  all: unfold getMedia_body; run; wsimpl; rewrite Hpm; cbv iota;
    rewrite (run_bind_ok _ _ _ _ _ _ H3);
    unfold prepareStream, prepareStreamTracks; runs.
  all: destruct (smallVideoTrack (ss w)) as [t|]; runs;
    (eexists; split; [reflexivity|]);
    repeat first [by apply Forall_nil | apply Forall_cons; split; [by eauto 6|]].
Qed.

Lemma getUserMedia_error_policy_witness :
  getUserMedia no_input_device (MkMC (CBool true) (CBool true)) true audio_and_video =
  MkOut (Ok None) (bump_clock audio_and_video)
    [EvGetUserMedia (MkMC (CBool true) (CBool true)); EvGetDevicesStarted].
Proof.
  assert (H1 : userMedia no_input_device (clock audio_and_video)
                 (MkMC (CBool true) (CBool true)) =
               Refused (DOMException "NotFoundError")) by reflexivity.
  pose proof (getUserMedia_error_policy no_input_device (MkMC (CBool true) (CBool true))
                audio_and_video (DOMException "NotFoundError") H1) as H.
  destruct H as (_ & H & _).
  assert (Hn : String.eqb (error_name (DOMException "NotFoundError")) "NotFoundError" = true)
    by reflexivity.
  rewrite Hn in H. exact H.
Defined.

Lemma try_catch_ret_not_thrown {A} (m : M A) (a : A) w e :
  res (try_catch m (fun _ => mret a) w) ≠ Thrown e.
Proof. unfold try_catch. destruct (res (m w)) eqn:Hr; cbn; rewrite ?Hr; done. Qed.

Lemma log_bind_prefix {A B} (m : M A) (k : A -> M B) w p r :
  log (m w) = p ++ r -> exists r', log ((m ≫= k) w) = p ++ r'.
Proof.
  intros H. rewrite run_bind. destruct (res (m w)); cbn; rewrite H, <- ?app_assoc;
    by eexists.
Qed.

Lemma log_try_catch_prefix {A} (m : M A) h w p r :
  log (m w) = p ++ r -> exists r', log (try_catch m h w) = p ++ r'.
Proof.
  intros H. unfold try_catch. destruct (res (m w)); cbn; rewrite H, <- ?app_assoc;
    by eexists.
Qed.

Lemma log_detach_prefix {A} (m : M A) w p r :
  log (m w) = p ++ r -> exists r', log (detach m w) = p ++ r'.
Proof.
  intros H. unfold detach.
  destruct (log_bind_prefix m (fun _ => mret tt) w p r H) as [r1 H1].
  exact (log_try_catch_prefix _ _ _ _ _ H1).
Qed.

Lemma getUserMedia_log E mc b w :
  exists r, log (getUserMedia E mc b w) = [EvGetUserMedia mc] ++ r.
Proof.
  assert (Hn : exists r, log (navigator_getUserMedia E mc w) = [EvGetUserMedia mc] ++ r).
  { unfold navigator_getUserMedia. rewrite run_emit_bind, log_prepend. by eexists. }
  destruct Hn as [r Hr].
  destruct (log_bind_prefix _ (fun s => mret (Some s)) _ _ _ Hr) as [r1 Hr1].
  unfold getUserMedia. destruct b; [|by eexists].
  exact (log_try_catch_prefix _ _ _ _ _ Hr1).
Qed.

(** X13.  [getDevices] never throws.  A failure of enumerateDevices is
    swallowed.  Otherwise the devices are reported by the
    "available_devices" callback; and if there is no audio input and no
    Local Stream: with [inputDeviceNotFoundLimit] unset, or at 2 or more,
    the user is alerted "No input device found, publish is not possible";
    below 2, without any video input the alert is "There is no video or
    audio input", and with one (camera mode) the camera is requested
    without audio. *)
Theorem getDevices_policy :
  forall (E : Env) (fuel : nat) (w : World),
    let o := getDevices E fuel w in
    (forall e, res o ≠ Thrown e) /\
    (forall e, enumerateDevices E (clock w) = inr e ->
       o = MkOut (Ok tt) (bump_clock w) [EvEnumerateDevices]) /\
    (forall devs, enumerateDevices E (clock w) = inl devs ->
       (existsb is_audioinput devs = true \/ localStream (ss w) ≠ None ->
        o = MkOut (Ok tt) (bump_clock w)
              [EvEnumerateDevices; EvCallback "available_devices"]) /\
       (existsb is_audioinput devs = false -> localStream (ss w) = None ->
        match inputDeviceNotFoundLimit (cfg w) with
        | Some n =>
            (2 ≤ n ->
             o = MkOut (Ok tt) (bump_clock w)
                   [EvEnumerateDevices; EvCallback "available_devices";
                    EvAlert "No input device found, publish is not possible"]) /\
            (n < 2 -> existsb is_any_videoinput devs = false ->
             o = MkOut (Ok tt) (bump_clock w)
                   [EvEnumerateDevices; EvCallback "available_devices";
                    EvAlert "There is no video or audio input"]) /\
            (n < 2 -> existsb is_any_videoinput devs = true ->
             publishMode (cfg w) = PMCamera ->
             exists rest,
               log (getDevices E (S fuel) w) =
               EvEnumerateDevices :: EvCallback "available_devices" ::
               EvGetUserMedia (MkMC (CBool true) (CBool false)) :: rest)
        | None =>
            o = MkOut (Ok tt) (bump_clock w)
                  [EvEnumerateDevices; EvCallback "available_devices";
                   EvAlert "No input device found, publish is not possible"]
        end)).
Proof.
  intros E fuel w o. subst o. split; [|split].
  - intros e. apply try_catch_ret_not_thrown.
  - intros e He. unfold getDevices.
    rewrite (try_catch_thrown _ _ w e (bump_clock w) [EvEnumerateDevices]); [done|].
    rewrite run_bind, navigator_enumerateDevices_run, He. done.
  - intros devs Hd.
    assert (Hnav : forall A (k : list Device -> M A),
              (navigator_enumerateDevices E ≫= k) w =
              prepend [EvEnumerateDevices] (k devs (bump_clock w))).
    { intros A k. erewrite run_bind_ok; [done|].
      by rewrite navigator_enumerateDevices_run, Hd. }
    split.
    + intros Hor. unfold getDevices, try_catch, callback. rewrite Hnav. run. wsimpl.
      destruct Hor as [Ha|Hl]; [rewrite Ha|]; cbn.
      * by rewrite run_ret.
      * destruct (localStream (ss w)); [|done].
        destruct (existsb is_audioinput devs); by rewrite run_ret.
    + intros Ha Hl.
      destruct (inputDeviceNotFoundLimit (cfg w)) as [n|] eqn:Hn.
      * split; [|split].
        -- intros Hle. unfold getDevices, try_catch, callback. rewrite Hnav. run. wsimpl.
           rewrite Ha, Hl. run. wsimpl. rewrite Hn.
           rewrite (proj2 (Nat.ltb_ge n 2)) by done. done.
        -- intros Hlt Hv. unfold getDevices, try_catch, callback. rewrite Hnav. run. wsimpl.
           rewrite Ha, Hl. run. wsimpl. rewrite Hn.
           rewrite (proj2 (Nat.ltb_lt n 2)) by done. rewrite Hv. done.
        -- intros Hlt Hv Hpm. unfold getDevices.
           match goal with
           | |- context [try_catch ?m ?h w] =>
               enough (Hm : exists r, log (m w) =
                 [EvEnumerateDevices; EvCallback "available_devices";
                  EvGetUserMedia (MkMC (CBool true) (CBool false))] ++ r)
           end.
           { destruct Hm as [r Hr]. exact (log_try_catch_prefix _ _ _ _ _ Hr). }
           unfold callback. rewrite Hnav. run. wsimpl.
           rewrite Ha, Hl. run. wsimpl. rewrite Hn.
           rewrite (proj2 (Nat.ltb_lt n 2)) by done. rewrite Hv.
           cbn [log prepend app].
           enough (Ho : exists r, log (openStream E (S fuel) (MkMC (CBool true) (CBool false))
                          IdUndefined (bump_clock w)) =
                        [EvGetUserMedia (MkMC (CBool true) (CBool false))] ++ r).
           { destruct Ho as [r Hr].
             destruct (log_detach_prefix _ _ _ _ Hr) as [r' Hr'].
             destruct (log_bind_prefix _
               (fun _ => update_settings (fun s => set_inputDeviceNotFoundLimit
                     (S <$> inputDeviceNotFoundLimit s) s)) _ _ _ Hr') as [r'' Hr''].
             rewrite Hr''. by eexists. }
           cbn [openStream]. unfold update_settings. run1. run_call. rewrite prepend_nil.
           assert (Hc : constraints_now
                     (on_this (on_settings (set_mediaConstraints
                        (Some (MkMC (CBool true) (CBool false))))) (bump_clock w))
                     = MkMC (CBool true) (CBool false)).
           { unfold constraints_now. wsimpl. by destruct (audioMode (cfg w)). }
           rewrite Hc. cbn [mc_video].
           unfold getMedia_body. run. wsimpl. rewrite Hpm. cbv iota.
           destruct (getUserMedia_log E (MkMC (CBool true) (CBool false)) true
                 (on_this (on_settings (set_mediaConstraints
                        (Some (MkMC (CBool true) (CBool false))))) (bump_clock w)))
             as [r Hr].
           exact (log_bind_prefix _ _ _ _ _ Hr).
      * unfold getDevices, try_catch, callback. rewrite Hnav. run. wsimpl.
        rewrite Ha, Hl. run. wsimpl. by rewrite Hn.
Qed.

Lemma getDisplayMedia_body_refused E rec mc w e :
  displayMedia E (clock w) mc = Refused e ->
  String.eqb (error_name e) "NotAllowedError" = false \/
  callbackError_false E "ScreenSharePermissionDenied" = true ->
  getDisplayMedia_body E rec mc w =
  MkOut (Thrown e) (bump_clock w) (refused_share_log mc e).
Proof.
  intros Hd Hor. unfold getDisplayMedia_body, refused_share_log.
  rewrite (try_catch_thrown _ _ w e (bump_clock w) [EvGetDisplayMedia mc]).
  2:{ by rewrite run_bind, (navigator_getDisplayMedia_refused _ _ _ _ Hd). }
  destruct (String.eqb (error_name e) "NotAllowedError") eqn:Hn.
  - destruct Hor as [|Hveto]; [done|].
    rewrite (run_bind_ok _ _ _ _ _ _ (callbackError_run _ _ _)), Hveto. by runs.
  - by runs.
Qed.

(** X14.  [switchDesktopCapture] and [switchDesktopCaptureWithCamera] set
    the publish mode before they ask for the screen.  When the request
    fails and the failure is not answered by a fallback (the error is
    not NotAllowedError, or callbackError returns false), the call fails
    with that error, the instance stays in 'screen' (resp.
    'screen+camera') mode, and nothing else has changed but the
    platform's clock. *)
Theorem failed_screen_switch_keeps_the_mode :
  forall (E : Env) (fuel : nat) (streamId : JsId) (w : World) (e : JsError),
    displayMedia E (clock w) (constraints_now w) = Refused e ->
    String.eqb (error_name e) "NotAllowedError" = false \/
    callbackError_false E "ScreenSharePermissionDenied" = true ->
    switchDesktopCapture E fuel streamId w =
      MkOut (Thrown e)
        (bump_clock (on_this (on_settings (set_publishMode PMScreen)) w))
        (refused_share_log (constraints_now w) e) /\
    switchDesktopCaptureWithCamera E fuel streamId w =
      MkOut (Thrown e)
        (bump_clock (on_this (on_settings (set_publishMode PMScreenCamera)) w))
        (refused_share_log (constraints_now w) e).
Proof.
  intros E fuel streamId w e Hd Hor.
  split.
  - unfold switchDesktopCapture, update_settings. run1. run_call. rewrite prepend_nil.
    unfold getMedia, getMedia_body. run. wsimpl.
    change (constraints_now (on_this (on_settings (set_publishMode PMScreen)) w))
      with (constraints_now w).
    rewrite run_bind, (getDisplayMedia_body_refused E _ _ _ e); done.
  - unfold switchDesktopCaptureWithCamera, update_settings. run1. run_call.
    rewrite prepend_nil.
    unfold getMedia, getMedia_body. run. wsimpl.
    change (constraints_now (on_this (on_settings (set_publishMode PMScreenCamera)) w))
      with (constraints_now w).
    rewrite run_bind, (getDisplayMedia_body_refused E _ _ _ e); done.
Qed.

Lemma failed_screen_switch_keeps_the_mode_witness :
  publishMode (cfg (st (switchDesktopCapture share_failed 3 stream1 audio_and_video))) =
  PMScreen.
Proof.
  assert (H1 : displayMedia share_failed (clock audio_and_video)
                 (constraints_now audio_and_video) =
               Refused (DOMException "NotReadableError")) by reflexivity.
  assert (H2 : String.eqb (error_name (DOMException "NotReadableError"))
                 "NotAllowedError" = false \/
               callbackError_false share_failed "ScreenSharePermissionDenied" = true)
    by (left; reflexivity).
  pose proof (failed_screen_switch_keeps_the_mode share_failed 3 stream1 audio_and_video
                (DOMException "NotReadableError") H1 H2) as [H _].
  rewrite H. reflexivity.
Defined.

(** X15.  [openStream] with constraints that have no [video] entry asks
    for no media, in every publish mode and audio mode: it records the
    constraints, drops the Local Stream (without stopping a track),
    reports "media_constraint_video_not_defined" and returns
    undefined. *)
Theorem openStream_without_video_constraint :
  forall (E : Env) (fuel : nat) (mc : MediaConstraints) (streamId : JsId) (w : World),
    mc_video mc = CUndefined ->
    openStream E (S fuel) mc streamId w =
    MkOut (Ok None)
      (on_this (on_sstate (set_localStream None))
         (on_this (on_settings (set_mediaConstraints (Some mc))) w))
      [EvCallbackError "media_constraint_video_not_defined"].
Proof.
  intros E fuel mc streamId w Hv. cbn [openStream]. unfold update_settings, update_sstate.
  run1. run_call. rewrite prepend_nil.
  assert (Hc : mc_video (constraints_now
            (on_this (on_settings (set_mediaConstraints (Some mc))) w)) = CUndefined).
  { unfold constraints_now. wsimpl. by destruct (audioMode (cfg w)). }
  rewrite Hc. run1. rewrite (run_bind_ok _ _ _ _ _ _ (callbackError_run _ _ _)).
  by rewrite run_ret.
Qed.

Lemma openStream_without_video_constraint_witness :
  localStream
    (ss (st (openStream browser 1 (MkMC CUndefined (CBool true)) stream1
               audio_and_video))) = None.
Proof.
  assert (H1 : mc_video (MkMC CUndefined (CBool true)) = CUndefined) by reflexivity.
  pose proof (openStream_without_video_constraint browser 0
                (MkMC CUndefined (CBool true)) stream1 audio_and_video H1) as H.
  rewrite H. reflexivity.
Defined.

(** X16.  [turnOffLocalCamera] without a Local Stream reports
    "NoActiveConnection" and leaves [cameraEnabled] as it was; it has
    nevertheless created the canvas stream, recorded as
    [replacementStream], and it starts the blank-frame timer (3000 ms)
    unless one is recorded. *)
Theorem turnOffLocalCamera_without_local_stream :
  forall (E : Env) (streamId : JsId) (w : World),
    localStream (ss w) = None ->
    let o := turnOffLocalCamera E streamId w in
    res o = Ok tt /\
    cameraEnabled (fl (st o)) = cameraEnabled (fl w) /\
    localStream (ss (st o)) = None /\
    replacementStream (ss (st o)) = Some (S (next_id w)) /\
    streams (st o) = <[S (next_id w) := [MkTrack Video (next_id w)]]> (streams w) /\
    match blackFrameTimer (fl w) with
    | Some t =>
        timers (st o) = timers w /\
        log o = [EvFillRect; EvCallbackError "NoActiveConnection"]
    | None =>
        blackFrameTimer (fl (st o)) = Some (next_timer w) /\
        timers (st o) = <[next_timer w := MkTimer TaskBlackFrame 3000]> (timers w) /\
        log o = [EvFillRect; EvCallbackError "NoActiveConnection";
                 EvSetInterval (next_timer w) (MkTimer TaskBlackFrame 3000)]
    end.
Proof.
  intros E streamId w Hl o. subst o. unfold turnOffLocalCamera.
  rewrite (run_bind_ok _ _ _ _ _ _ (initializeDummyFrame_run _)).
  rewrite run_gets_bind. wsimpl. rewrite Hl.
  rewrite run_bind_assoc.
  rewrite (run_bind_ok _ _ _ _ _ _ (callbackError_run _ _ _)).
  rewrite run_ret_bind, start_blackFrameTimer_run. wsimpl.
  destruct (blackFrameTimer (fl w)) as [t|] eqn:Hb; wsimpl; by rewrite Hl.
Qed.

Lemma turnOffLocalCamera_without_local_stream_witness :
  replacementStream
    (ss (st (turnOffLocalCamera browser stream1 (fresh browser video_and_audio)))) =
  Some (S (next_id (fresh browser video_and_audio))).
Proof.
  assert (H1 : localStream (ss (fresh browser video_and_audio)) = None)
    by (vm_compute; reflexivity).
  pose proof (turnOffLocalCamera_without_local_stream browser stream1
                (fresh browser video_and_audio) H1) as H.
  cbv zeta in H. destruct H as (_ & _ & _ & H & _). exact H.
Defined.

(** ** The constraints after a camera switch *)

Lemma pres_newTracks_of (I : World -> Prop) ks :
  (forall w, I w -> I (bump_id w)) -> pres I (newTracks ks).
Proof.
  intros HI. induction ks as [|k ks IH]; [apply pres_ret|]. cbn [newTracks].
  apply pres_bind; [|intros t; apply pres_bind; [done|intros ?; apply pres_ret]].
  unfold newTrack. apply pres_bind; [apply pres_gets|]. intros n.
  apply pres_bind; [by apply pres_modify|]. intros _. apply pres_ret.
Qed.

(** A proof of [pres I m] for an [I] that reads fields [m] never writes. *)
Ltac frame_go :=
  repeat first
    [ lazymatch goal with
      | |- pres _ (newTracks _) => apply pres_newTracks_of; intros ? HI; exact HI
      end
    | pres_step frame_kept ].

Lemma setVideoCameraSource_settings E id mc cb sd X :
  pres (fun w => cfg w = X) (setVideoCameraSource E id mc cb sd).
Proof. unfold setVideoCameraSource. frame_go. Qed.

Lemma fueled_setVideoCameraSource E id mc cb sd :
  fueled (setVideoCameraSource E id mc cb sd).
Proof. unfold setVideoCameraSource. repeat fueled_step. Qed.

(** The end of both camera switches. *)
Lemma camera_switch_tail {A} E id mc (a : A) w :
  let o := (detach (setVideoCameraSource E id mc None true);; mret a) w in
  res o = Ok a /\ cfg (st o) = cfg w.
Proof.
  cbv zeta.
  destruct (returns_detach (setVideoCameraSource E id mc None true)
              (fueled_setVideoCameraSource _ _ _ _ _) w) as ([] & Hr & _).
  rewrite run_bind, Hr, res_prepend, st_prepend, run_ret. split; [done|].
  cbn [st]. by apply (pres_detach _ _ (setVideoCameraSource_settings E id mc None true _)).
Qed.

(** X17.  [switchVideoCameraCapture] with a Local Stream and constraints
    set, the devices being listed.  The publish mode becomes 'camera'.  If
    the device id is not that of a listed video input, the call
    returns the id and the constraints are unchanged.  If it is, the
    video constraint becomes [{deviceId: {exact: id}}] (its facing mode
    kept, if it was an object) and the audio constraint is unchanged; but
    if the video constraint was [false] or undefined, writing the device
    id fails with a TypeError and the constraints are unchanged. *)
Theorem switchVideoCameraCapture_constraints :
  forall (E : Env) (w : World) (streamId : JsId) (deviceId : option string)
         (l : StreamRef) (mc : MediaConstraints) (devs : list Device),
    localStream (ss w) = Some l ->
    mediaConstraints (cfg w) = Some mc ->
    enumerateDevices E (clock w) = inl devs ->
    let o := switchVideoCameraCapture E streamId deviceId w in
    publishMode (cfg (st o)) = PMCamera /\
    (existsb (is_videoinput deviceId) devs = false ->
     res o = Ok deviceId /\ mediaConstraints (cfg (st o)) = Some mc) /\
    (forall d video,
       deviceId = Some d -> existsb (is_videoinput deviceId) devs = true ->
       with_exact_device d (mc_video mc) = Some video ->
       res o = Ok deviceId /\
       mediaConstraints (cfg (st o)) = Some (MkMC video (mc_audio mc))) /\
    (forall d,
       deviceId = Some d -> existsb (is_videoinput deviceId) devs = true ->
       with_exact_device d (mc_video mc) = None ->
       (exists what, res o = Thrown (TypeError what)) /\
       mediaConstraints (cfg (st o)) = Some mc).
Proof.
  intros E w streamId deviceId l mc devs Hl Hmc Hd o. subst o.
  unfold switchVideoCameraCapture. run1. rewrite Hl. run1. run1.
  assert (Hstop : exists w0 lg, cfg w0 = cfg w /\ clock w0 = clock w /\
    forall B (k : unit -> M B),
    (match head (videoTracksOf w l) with
     | Some videoTrack => stop videoTrack
     | None => mret ()
     end ≫= k) w = prepend lg (k tt w0)).
  { destruct (head (videoTracksOf w l)) as [v|].
    - eexists _, _. split; [|split]; [| |intros B k; by run_call]; done.
    - exists w, []. split; [done|]. split; [done|]. intros B k. run1.
      by rewrite prepend_nil. }
  destruct Hstop as (w0 & lg & Hcfg & Hclk & Hstop). rewrite Hstop. clear Hstop.
  rewrite st_prepend, res_prepend. unfold update_settings. run1.
  rewrite run_bind, navigator_enumerateDevices_run. wsimpl. rewrite Hclk, Hd.
  cbn [res st log]. rewrite st_prepend, res_prepend.
  set (w1 := bump_clock (on_this (on_settings (set_publishMode PMCamera)) w0)).
  assert (Hmc1 : mediaConstraints (cfg w1) = Some mc) by (subst w1; wsimpl; by rewrite Hcfg).
  assert (Hpm1 : publishMode (cfg w1) = PMCamera) by done.
  match goal with
  | |- context [st ((_ ≫= ?k) w1)] => set (rest := k)
  end.
  assert (Hrest : forall w2,
    mediaConstraints (cfg w2) ≠ None ->
    res (rest tt w2) = Ok deviceId /\ cfg (st (rest tt w2)) = cfg w2).
  { intros w2 Hne. subst rest. cbv beta. run1.
    destruct (mediaConstraints (cfg w2)) as [mc2|] eqn:Hmc2; [|done].
    run1. run_call. rewrite prepend_nil. apply camera_switch_tail. }
  clearbody rest.
  destruct deviceId as [d|];
    [destruct (existsb (is_videoinput (Some d)) devs) eqn:Hex;
     [destruct (with_exact_device d (mc_video mc)) as [video|] eqn:Hwd|]|].
  - run. rewrite Hmc1. run.
    assert (Hv : match mc_video mc with
                 | CBool true => mret (CObj (MkCObj (Some (DevExact d)) None))
                 | CObj o => mret (CObj (MkCObj (Some (DevExact d)) (c_facingMode o)))
                 | _ => throw (TypeError "this.mediaConstraints.video.deviceId")
                 end = (mret video : M Constraint)).
    { destruct (mc_video mc) as [|[]|]; simpl in Hwd; by simplify_eq. }
    rewrite Hv. run.
    match goal with
    | |- context [st (rest tt ?w2)] => destruct (Hrest w2) as [Hr1 Hr2]; [done|]
    end.
    split_and!.
    + by rewrite Hr2.
    + done.
    + intros d' video' [= <-] _ Hwd'. rewrite Hr2. wsimpl. split; [done|]. congruence.
    + intros d' [= <-] _ Hwd'. congruence.
  - run. rewrite Hmc1. run.
    assert (Hv : exists what, match mc_video mc with
                 | CBool true => mret (CObj (MkCObj (Some (DevExact d)) None))
                 | CObj o => mret (CObj (MkCObj (Some (DevExact d)) (c_facingMode o)))
                 | _ => throw (TypeError "this.mediaConstraints.video.deviceId")
                 end = (throw (TypeError what) : M Constraint)).
    { destruct (mc_video mc) as [|[]|]; simpl in Hwd; try done; by eexists. }
    destruct Hv as [what Hv]. rewrite Hv. run. wsimpl.
    split_and!; try done.
    + intros d' video' [= <-] _ Hwd'. congruence.
    + intros d' [= <-] _ _. split; [by eexists|]. exact Hmc1.
  - run. destruct (Hrest w1) as [Hr1 Hr2]; [by rewrite Hmc1|].
    split_and!; try done.
    + by rewrite Hr2.
    + intros _. by rewrite Hr2.
  - run. destruct (Hrest w1) as [Hr1 Hr2]; [by rewrite Hmc1|].
    split_and!; try done.
    + by rewrite Hr2.
    + intros _. by rewrite Hr2.
Qed.

Lemma switchVideoCameraCapture_constraints_witness :
  mediaConstraints
    (cfg (st (switchVideoCameraCapture browser stream1 (Some "cam1") audio_and_video))) =
  Some (MkMC (CObj (MkCObj (Some (DevExact "cam1")) None)) (CBool true)).
Proof.
  assert (H1 : localStream (ss audio_and_video) = Some 1) by (vm_compute; reflexivity).
  assert (H2 : mediaConstraints (cfg audio_and_video) =
               Some (MkMC (CBool true) (CBool true))) by (vm_compute; reflexivity).
  assert (H3 : enumerateDevices browser (clock audio_and_video) = inl two_devices)
    by reflexivity.
  pose proof (switchVideoCameraCapture_constraints browser audio_and_video stream1
                (Some "cam1") 1 _ _ H1 H2 H3) as H.
  cbv zeta in H. destruct H as (_ & _ & H & _).
  destruct (H "cam1" (CObj (MkCObj (Some (DevExact "cam1")) None)))
    as [_ Hmc]; [reflexivity | reflexivity | reflexivity |].
  exact Hmc.
Defined.

(** X18.  [switchVideoCameraFacingMode] with a Local Stream and constraints
    set returns normally, sets the publish mode to 'camera', and replaces
    the video constraint by [{facingMode: mode}] (a device id in it is
    dropped), keeping the audio constraint.  It stops the video track of
    the Local Stream and then requests the camera with that facing mode
    and without audio. *)
Theorem switchVideoCameraFacingMode_constraints :
  forall (E : Env) (w : World) (streamId : JsId) (facingMode : option string)
         (l : StreamRef) (mc : MediaConstraints),
    localStream (ss w) = Some l ->
    mediaConstraints (cfg w) = Some mc ->
    let o := switchVideoCameraFacingMode E streamId facingMode w in
    res o = Ok tt /\
    publishMode (cfg (st o)) = PMCamera /\
    mediaConstraints (cfg (st o)) =
      Some (MkMC (CObj (MkCObj None facingMode)) (mc_audio mc)) /\
    exists rest,
      log o = (EvStop <$> option_list (head (videoTracksOf w l))) ++
              EvGetUserMedia (MkMC (CObj (MkCObj None facingMode)) CUndefined) :: rest.
Proof.
  intros E w streamId facingMode l mc Hl Hmc o. subst o.
  unfold switchVideoCameraFacingMode. run1. rewrite Hl. run1. run1.
  assert (Hstop : exists w0, cfg w0 = cfg w /\
    forall B (k : unit -> M B),
    (match head (videoTracksOf w l) with
     | Some videoTrack => stop videoTrack
     | None => mret ()
     end ≫= k) w =
    prepend (EvStop <$> option_list (head (videoTracksOf w l))) (k tt w0)).
  { destruct (head (videoTracksOf w l)) as [v|].
    - eexists. split; [|intros B k; by run_call]. done.
    - exists w. split; [done|]. intros B k. run1. by rewrite prepend_nil. }
  destruct Hstop as (w0 & Hcfg & Hstop). rewrite Hstop. clear Hstop.
  rewrite st_prepend, res_prepend, log_prepend. unfold update_settings.
  run1. rewrite Hcfg, Hmc. run1. run1. run1. run_call. rewrite prepend_nil.
  match goal with
  | |- context [constraints_now ?w2] => set (w1 := w2)
  end.
  assert (Hc : mc_video (constraints_now w1) = CObj (MkCObj None facingMode)).
  { unfold constraints_now. subst w1. wsimpl. rewrite Hcfg.
    by destruct (audioMode (cfg w)). }
  rewrite Hc.
  set (m := setVideoCameraSource E streamId
              (MkMC (CObj (MkCObj None facingMode)) CUndefined) None true).
  destruct (returns_detach m (fueled_setVideoCameraSource _ _ _ _ _) w1)
    as ([] & Hr & _).
  assert (Hs : cfg (st (detach m w1)) = cfg w1)
    by (by apply (pres_detach _ _ (setVideoCameraSource_settings E streamId _ None true _))).
  split; [done|]. rewrite Hs. split; [done|]. split; [done|].
  assert (Hlog : exists r, log (m w1) =
            [EvGetUserMedia (MkMC (CObj (MkCObj None facingMode)) CUndefined)] ++ r).
  { subst m. unfold setVideoCameraSource.
    destruct (getUserMedia_log E (MkMC (CObj (MkCObj None facingMode)) CUndefined) true w1)
      as [r Hr'].
    exact (log_bind_prefix _ _ _ _ _ Hr'). }
  destruct Hlog as [r Hr'].
  destruct (log_detach_prefix _ _ _ _ Hr') as [r' Hr'']. rewrite Hr''. by eexists.
Qed.

Lemma switchVideoCameraFacingMode_constraints_witness :
  mediaConstraints
    (cfg (st (switchVideoCameraFacingMode browser stream1 (Some "user")
                audio_and_video))) =
  Some (MkMC (CObj (MkCObj None (Some "user"))) (CBool true)).
Proof.
  assert (H1 : localStream (ss audio_and_video) = Some 1) by (vm_compute; reflexivity).
  assert (H2 : mediaConstraints (cfg audio_and_video) =
               Some (MkMC (CBool true) (CBool true))) by (vm_compute; reflexivity).
  pose proof (switchVideoCameraFacingMode_constraints browser audio_and_video stream1
                (Some "user") 1 _ H1 H2) as H.
  cbv zeta in H. destruct H as (_ & _ & H & _). exact H.
Defined.

(** X19.  Without a Local Stream the three device switches fail at once
    with a TypeError (they read the tracks of the missing stream):
    nothing is stopped, requested or changed. *)
Theorem switch_without_local_stream :
  forall (E : Env) (w : World) (streamId : JsId) (d f : option string),
    localStream (ss w) = None ->
    (exists what, switchAudioInputSource E streamId d w =
                  MkOut (Thrown (TypeError what)) w []) /\
    (exists what, switchVideoCameraCapture E streamId d w =
                  MkOut (Thrown (TypeError what)) w []) /\
    (exists what, switchVideoCameraFacingMode E streamId f w =
                  MkOut (Thrown (TypeError what)) w []).
Proof.
  intros E w streamId d f Hl. split_and!; eexists.
  - unfold switchAudioInputSource. run1. rewrite Hl. by run1.
  - unfold switchVideoCameraCapture. run1. rewrite Hl. by run1.
  - unfold switchVideoCameraFacingMode. run1. rewrite Hl. by run1.
Qed.

Lemma switch_without_local_stream_witness :
  exists what,
    switchVideoCameraCapture browser stream1 (Some "cam1")
      (fresh browser video_and_audio) =
    MkOut (Thrown (TypeError what)) (fresh browser video_and_audio) [].
Proof.
  assert (H1 : localStream (ss (fresh browser video_and_audio)) = None)
    by (vm_compute; reflexivity).
  pose proof (switch_without_local_stream browser (fresh browser video_and_audio) stream1
                (Some "cam1") None H1) as (_ & H & _).
  exact H.
Defined.

(** ** The timers of the sound meters *)

Lemma enableAudioLevelForLocalStream_run E period w :
  enableAudioLevelForLocalStream E period w =
  MkOut (Ok tt)
    (on_this (on_flags (set_soundLevelProviderId (Some (next_timer w))))
       (on_timers <[next_timer w := MkTimer TaskSoundLevel period]>
          (bump_timer (on_this (on_flags (set_localStreamSoundMeter true)) w))))
    (EvSoundMeterConnect (localStream (ss w)) ::
     (if soundMeter_fails E then [EvAlert "soundmeter"] else []) ++
     [EvSetInterval (next_timer w) (MkTimer TaskSoundLevel period)]).
Proof.
  unfold enableAudioLevelForLocalStream, connectSoundMeterToLocalStream, update_flags.
  runs.
  destruct (soundMeter_fails E); runs;
    rewrite (run_bind_ok _ _ _ _ _ _ (setInterval_run _ _ _)); by rewrite run_modify.
Qed.

Lemma wf_fresh_timer w : timers_wf w -> timers w !! next_timer w = None.
Proof.
  intros (H1 & _). destruct (timers w !! next_timer w) as [tm|] eqn:Ht; [|done].
  apply H1 in Ht. lia.
Qed.

(** X20.  [enableAudioLevelForLocalStream] starts one timer, with the given
    period, and records its id; [closeStream] then cancels exactly that
    timer, so the timers are as before.  But enabling twice overwrites
    the id: the first timer is no longer cancelled by [closeStream]. *)
Theorem sound_level_timer_round_trip :
  forall (E : Env) (period : nat) (w : World),
    timers_wf w ->
    let o := enableAudioLevelForLocalStream E period w in
    res o = Ok tt /\
    soundLevelProviderId (fl (st o)) = Some (next_timer w) /\
    timers (st o) = <[next_timer w := MkTimer TaskSoundLevel period]> (timers w) /\
    timers (st (closeStream (st o))) = timers w /\
    (forall period',
       timers (st (closeStream (st (enableAudioLevelForLocalStream E period' (st o))))) =
       <[next_timer w := MkTimer TaskSoundLevel period]> (timers w)).
Proof.
  intros E period w Hwf o. subst o.
  pose proof (wf_fresh_timer w Hwf) as Hfresh.
  rewrite enableAudioLevelForLocalStream_run. wsimpl. split_and!; try done.
  - rewrite closeStream_timers. wsimpl. by apply delete_insert_id.
  - intros period'. rewrite enableAudioLevelForLocalStream_run, closeStream_timers.
    wsimpl. apply delete_insert_id.
    rewrite lookup_insert_ne by lia.
    destruct (timers w !! S (next_timer w)) as [tm|] eqn:Ht; [|done].
    destruct Hwf as (H1 & _). apply H1 in Ht. lia.
Qed.

Lemma sound_level_timer_round_trip_witness :
  timers_wf audio_and_video /\
  timers (st (closeStream
                (st (enableAudioLevelForLocalStream browser 200 audio_and_video)))) =
  timers audio_and_video.
Proof.
  assert (Hwf : timers_wf audio_and_video)
    by (apply wf_no_timers; vm_compute; reflexivity).
  split; [exact Hwf|].
  pose proof (sound_level_timer_round_trip browser 200 audio_and_video Hwf) as H.
  cbv zeta in H. destruct H as (_ & _ & _ & H & _). exact H.
Defined.

Lemma newTracks_granted ks w :
  exists ts, newTracks ks w =
    MkOut (Ok ts)
      (MkWorld (this w) (streams w) (ended w) (disabled w) (onended w) (gains w)
         (timers w) (bound w) (length ks + next_id w) (next_timer w) (clock w)) [].
Proof.
  revert w. induction ks as [|k ks IH]; intros w.
  - exists []. cbn [newTracks]. rewrite run_ret. by destruct w.
  - cbn [newTracks]. rewrite (run_bind_ok _ _ _ _ _ _ (newTrack_run _ _)).
    destruct (IH (bump_id w)) as [ts Hts].
    rewrite (run_bind_ok _ _ _ _ _ _ Hts), run_ret, !prepend_nil.
    exists (MkTrack k (next_id w) :: ts). wsimpl. cbn [length].
    by replace (length ks + S (next_id w)) with (S (length ks) + next_id w) by lia.
Qed.

Lemma navigator_getUserMedia_granted E mc w ks :
  userMedia E (clock w) mc = Granted ks ->
  exists ts,
    navigator_getUserMedia E mc w =
    MkOut (Ok (length ks + next_id w))
      (MkWorld (this w) (<[length ks + next_id w := ts]> (streams w)) (ended w)
         (disabled w) (onended w) (gains w) (timers w) (bound w)
         (S (length ks + next_id w)) (next_timer w) (S (clock w)))
      [EvGetUserMedia mc].
Proof.
  intros H. unfold navigator_getUserMedia. runs. rewrite H.
  destruct (newTracks_granted ks (bump_clock w)) as [ts Hts].
  rewrite (run_bind_ok _ _ _ _ _ _ Hts), newStream_run. by exists ts.
Qed.

Lemma try_catch_ok {A} (m : M A) h w a w' l :
  m w = MkOut (Ok a) w' l -> try_catch m h w = MkOut (Ok a) w' l.
Proof. intros H. unfold try_catch. by rewrite H. Qed.

Lemma disableAudioLevelWhenMuted_run w :
  disableAudioLevelWhenMuted w =
  MkOut (Ok tt)
    (on_ended (fun e => ids (from_option (tracksOf w) [] (mutedAudioStream (fl w))) ∪ e)
       (on_timers (fun m => match meterRefresh (fl w) with
                            | Some id => delete id m
                            | None => m
                            end) w))
    (match meterRefresh (fl w) with
     | Some id => [EvClearInterval id]
     | None => []
     end ++
     (EvStop <$> from_option (tracksOf w) [] (mutedAudioStream (fl w)))).
Proof.
  unfold disableAudioLevelWhenMuted. run1.
  destruct (meterRefresh (fl w)) as [id|] eqn:Hm;
    destruct (mutedAudioStream (fl w)) as [s|] eqn:Hs;
    repeat (first [ run1
                  | rewrite (run_bind_ok _ _ _ _ _ _ (clearInterval_run _ _)) ];
            wsimpl; rewrite ?Hs);
    rewrite ?for_each_stop, ?run_ret; cbn [from_option]; unfold prepend; wsimpl;
    f_equal; apply world_eq; wsimpl; try done; unfold ids; simpl; set_solver.
Qed.

(** X21.  [enableAudioLevelWhenMuted] swallows a refusal of the microphone:
    it returns normally with nothing started.  When the microphone is
    granted (and the sound meter connects), it starts one timer of 200 ms,
    recorded in [meterRefresh], on a new stream recorded in
    [mutedAudioStream]; [disableAudioLevelWhenMuted] cancels the timer and
    stops the tracks of that stream, so the timers are as before.  Both
    fields keep their stale values. *)
Theorem muted_level_meter_round_trip :
  forall (E : Env) (w : World),
    timers_wf w ->
    (forall e, userMedia E (clock w) (MkMC (CBool false) (CBool true)) = Refused e ->
       enableAudioLevelWhenMuted E w =
       MkOut (Ok tt) (bump_clock w) [EvGetUserMedia (MkMC (CBool false) (CBool true))]) /\
    (forall ks,
       userMedia E (clock w) (MkMC (CBool false) (CBool true)) = Granted ks ->
       soundMeter_fails E = false ->
       let w1 := st (enableAudioLevelWhenMuted E w) in
       let o := disableAudioLevelWhenMuted w1 in
       meterRefresh (fl w1) = Some (next_timer w) /\
       timers w1 = <[next_timer w := MkTimer TaskMeterRefresh 200]> (timers w) /\
       exists s,
         mutedAudioStream (fl w1) = Some s /\
         res o = Ok tt /\
         timers (st o) = timers w /\
         (forall t, t ∈ tracksOf w1 s -> tid t ∈ ended (st o)) /\
         meterRefresh (fl (st o)) = Some (next_timer w) /\
         mutedAudioStream (fl (st o)) = Some s).
Proof.
  intros E w Hwf. pose proof (wf_fresh_timer w Hwf) as Hfresh. split.
  - intros e He. unfold enableAudioLevelWhenMuted.
    rewrite (try_catch_thrown _ _ w e (bump_clock w)
               [EvGetUserMedia (MkMC (CBool false) (CBool true))]); [done|].
    rewrite run_bind. unfold navigator_getUserMedia. runs. by rewrite He.
  - intros ks Hks Hf w1 o.
    destruct (navigator_getUserMedia_granted E _ w ks Hks) as [ts Hnav].
    assert (Hen : exists w1', enableAudioLevelWhenMuted E w = MkOut (Ok tt) w1'
                    [EvGetUserMedia (MkMC (CBool false) (CBool true));
                     EvSoundMeterConnect (Some (length ks + next_id w));
                     EvSetInterval (next_timer w) (MkTimer TaskMeterRefresh 200)] /\
              meterRefresh (fl w1') = Some (next_timer w) /\
              mutedAudioStream (fl w1') = Some (length ks + next_id w) /\
              timers w1' = <[next_timer w := MkTimer TaskMeterRefresh 200]> (timers w)).
    { unfold enableAudioLevelWhenMuted, update_flags. eexists. split.
      - apply try_catch_ok. rewrite (run_bind_ok _ _ _ _ _ _ Hnav). runs. rewrite Hf.
        rewrite (run_bind_ok _ _ _ _ _ _ (setInterval_run _ _ _)), run_modify.
        wsimpl. reflexivity.
      - done. }
    destruct Hen as (w1' & Hrun & Hm & Hs & Ht).
    assert (Hw1 : w1 = w1') by (subst w1; by rewrite Hrun). clearbody w1. subst w1'.
    subst o. rewrite disableAudioLevelWhenMuted_run. wsimpl. rewrite Hm, Hs.
    cbn [from_option]. split; [done|]. split; [done|].
    exists (length ks + next_id w). split_and!; try done.
    + rewrite Ht. by apply delete_insert_id.
    + intros t Hin. apply elem_of_union_l. by apply elem_of_ids.
Qed.

Lemma muted_level_meter_round_trip_witness :
  timers_wf audio_and_video /\
  timers (st (disableAudioLevelWhenMuted
                (st (enableAudioLevelWhenMuted browser audio_and_video)))) =
  timers audio_and_video.
Proof.
  assert (Hwf : timers_wf audio_and_video)
    by (apply wf_no_timers; vm_compute; reflexivity).
  split; [exact Hwf|].
  pose proof (muted_level_meter_round_trip browser audio_and_video Hwf) as [_ H].
  assert (H1 : userMedia browser (clock audio_and_video) (MkMC (CBool false) (CBool true)) =
               Granted [Audio]) by reflexivity.
  assert (H2 : soundMeter_fails browser = false) by reflexivity.
  specialize (H [Audio] H1 H2). cbv zeta in H.
  destruct H as (_ & _ & s & _ & _ & H & _). exact H.
Defined.

(** * Track replacement, the device switches and the camera *)

(** ** C1: track replacement is all-or-nothing *)


Lemma is_kind_excl' t : is_kind Audio t = true -> is_kind Video t = true -> False.
Proof. intros ? ?. by apply (is_kind_excl t). Qed.








(** ** C2: what a device switch does first *)

Ltac ended_kept :=
  intros ? HI; try case_bool_decide;
  first [ exact HI | apply elem_of_union_r; exact HI ].

Ltac ended_go :=
  repeat first
    [ lazymatch goal with
      | |- pres _ (newTracks _) => apply pres_newTracks_of; intros ? HI; exact HI
      end
    | pres_step ended_kept ].

(** C2 (amended).  In each device-switch operation (audio input device,
    camera device, camera facing mode), when the Local Stream holds a
    track of the kind being switched, stopping that track is the first
    thing the operation does (so it comes before any request for a new
    track and before any sender is asked to replace its track), and the
    track is ended when the operation is over, however it ends.  The
    stop does not wait for the constraint set either: where the
    operation cannot write into the constraint set (a device id cannot
    be written into a constraint that is [false] or missing; there may
    be no constraint set at all), it fails with a TypeError, and the
    track has been stopped all the same, nothing else having happened
    but, in the camera switch, the change of the publish mode and the
    listing of the devices. *)
Theorem switch_stops_the_old_track_first :
  forall (E : Env) (w : World) (l : StreamRef) (streamId : JsId)
         (deviceId facingMode : option string),
    localStream (ss w) = Some l ->
    (forall t, head (audioTracksOf w l) = Some t ->
       let o := switchAudioInputSource E streamId deviceId w in
       (exists rest, log o = EvStop t :: rest) /\
       tid t ∈ ended (st o) /\
       (forall d,
          deviceId = Some d ->
          (forall mc, mediaConstraints (cfg w) = Some mc ->
                      accepts_deviceId (mc_audio mc) = false) ->
          exists what,
            o = MkOut (Thrown (TypeError what)) (stopped t w) [EvStop t])) /\
    (forall t, head (videoTracksOf w l) = Some t ->
       (let o := switchVideoCameraCapture E streamId deviceId w in
        (exists rest, log o = EvStop t :: rest) /\
        tid t ∈ ended (st o) /\
        (forall d devs,
           deviceId = Some d ->
           enumerateDevices E (clock w) = inl devs ->
           existsb (is_videoinput deviceId) devs = true ->
           (forall mc, mediaConstraints (cfg w) = Some mc ->
                       accepts_deviceId (mc_video mc) = false) ->
           exists what,
             o = MkOut (Thrown (TypeError what))
                   (bump_clock
                      (on_this (on_settings (set_publishMode PMCamera)) (stopped t w)))
                   [EvStop t; EvEnumerateDevices])) /\
       (let o := switchVideoCameraFacingMode E streamId facingMode w in
        (exists rest, log o = EvStop t :: rest) /\
        tid t ∈ ended (st o) /\
        (mediaConstraints (cfg w) = None ->
         exists what,
           o = MkOut (Thrown (TypeError what)) (stopped t w) [EvStop t]))).
Proof.
  intros E w l streamId deviceId facingMode Hl. split; [|intros t H; split].
  - intros t H o. subst o. unfold switchAudioInputSource.
    run1. rewrite Hl. run1. run1. rewrite H.
    rewrite (run_bind_ok _ _ _ _ _ _ (stop_run _ _)). fold (stopped t w).
    rewrite log_prepend, st_prepend. split; [by eexists|]. split.
    + match goal with
      | |- _ ∈ ended (st (?k (stopped t w))) =>
          assert (Hk : pres (fun w' => tid t ∈ ended w') k) by ended_go
      end.
      apply Hk. unfold stopped. wsimpl. set_solver.
    + intros d -> Hmc. run1.
      change (mediaConstraints (cfg (stopped t w))) with (mediaConstraints (cfg w)).
      destruct (mediaConstraints (cfg w)) as [mc|]; [|run1; wsimpl; by eexists].
      specialize (Hmc mc eq_refl). run1.
      destruct (mc_audio mc) as [|[]|]; try discriminate; run1; wsimpl; by eexists.
  - intros o. subst o. unfold switchVideoCameraCapture.
    run1. rewrite Hl. run1. run1. rewrite H.
    rewrite (run_bind_ok _ _ _ _ _ _ (stop_run _ _)). fold (stopped t w).
    rewrite log_prepend, st_prepend. split; [by eexists|]. split.
    + match goal with
      | |- _ ∈ ended (st (?k (stopped t w))) =>
          assert (Hk : pres (fun w' => tid t ∈ ended w') k) by ended_go
      end.
      apply Hk. unfold stopped. wsimpl. set_solver.
    + intros d devs -> Hdevs Hex Hmc. unfold update_settings. run1.
      rewrite run_bind, navigator_enumerateDevices_run. wsimpl.
      change (clock (stopped t w)) with (clock w). rewrite Hdevs. cbn [res st log].
      rewrite Hex. cbv iota. unfold stopped. run. wsimpl.
      destruct (mediaConstraints (cfg w)) as [mc|]; [|run; wsimpl; by eexists].
      specialize (Hmc mc eq_refl). run.
      destruct (mc_video mc) as [|[]|]; try discriminate; run; wsimpl; by eexists.
  - intros o. subst o. unfold switchVideoCameraFacingMode.
    run1. rewrite Hl. run1. run1. rewrite H.
    rewrite (run_bind_ok _ _ _ _ _ _ (stop_run _ _)). fold (stopped t w).
    rewrite log_prepend, st_prepend. split; [by eexists|]. split.
    + match goal with
      | |- _ ∈ ended (st (?k (stopped t w))) =>
          assert (Hk : pres (fun w' => tid t ∈ ended w') k) by ended_go
      end.
      apply Hk. unfold stopped. wsimpl. set_solver.
    + intros Hmc. run1.
      change (mediaConstraints (cfg (stopped t w))) with (mediaConstraints (cfg w)).
      rewrite Hmc. run1. by eexists.
Qed.

Lemma switch_stops_the_old_track_first_witness :
  localStream (ss audio_not_wanted) = Some 1 /\
  head (audioTracksOf audio_not_wanted 1) = Some (MkTrack Audio 10) /\
  (exists rest,
     log (switchAudioInputSource browser stream1 (Some "mic1") audio_not_wanted) =
       EvStop (MkTrack Audio 10) :: rest) /\
  exists what,
    switchAudioInputSource browser stream1 (Some "mic1") audio_not_wanted =
      MkOut (Thrown (TypeError what)) (stopped (MkTrack Audio 10) audio_not_wanted)
        [EvStop (MkTrack Audio 10)].
Proof.
  assert (Hl : localStream (ss audio_not_wanted) = Some 1) by reflexivity.
  assert (Ht : head (audioTracksOf audio_not_wanted 1) = Some (MkTrack Audio 10))
    by reflexivity.
  assert (Hmc : forall mc, mediaConstraints (cfg audio_not_wanted) = Some mc ->
                           accepts_deviceId (mc_audio mc) = false).
  { intros mc Hmc. vm_compute in Hmc. injection Hmc as <-. reflexivity. }
  split; [exact Hl|]. split; [exact Ht|].
  destruct (switch_stops_the_old_track_first browser audio_not_wanted 1 stream1
              (Some "mic1") None Hl) as [H _].
  destruct (H _ Ht) as (Hfirst & _ & Hfail).
  split; [exact Hfirst|]. exact (Hfail "mic1" eq_refl Hmc).
Defined.

(** C2, as stated, fails.  While "stream1" is published, each of the
    three switches stops the old track before it has requested a new one;
    the camera switch requests the camera and binds the new track (track
    8) to sender 101 only afterwards. *)
Lemma switch_stops_before_acquiring :
  log (switchVideoCameraCapture publishing stream1 (Some "cam1") on_air) =
    [EvStop (MkTrack Video 0);
     EvEnumerateDevices;
     EvGetUserMedia (MkMC (CObj (MkCObj (Some (DevExact "cam1")) None)) CUndefined);
     EvReplaceTrack 101 (Some (MkTrack Video 8));
     EvRemoveTrack 2 (MkTrack Video 0);
     EvStop (MkTrack Video 0);
     EvAddTrack 2 (MkTrack Video 8)] /\
  stopped_before_acquiring (MkTrack Video 0)
    (log (switchVideoCameraCapture publishing stream1 (Some "cam1") on_air)) = true /\
  stopped_before_acquiring (MkTrack Video 0)
    (log (switchVideoCameraFacingMode publishing stream1 (Some "user") on_air)) = true /\
  stopped_before_acquiring (MkTrack Audio 5)
    (log (switchAudioInputSource publishing stream1 (Some "mic1") on_air)) = true.
Proof. vm_compute. done. Qed.

(** ** C7: the audio track across the device switches *)







(** ** C9: the blank-frame timer, from camera off to camera on *)

Lemma fueled_updateVideoTrack E s id cb sd : fueled (updateVideoTrack E s id cb sd).
Proof. unfold updateVideoTrack. repeat fueled_step. Qed.

Lemma updateVideoTrack_flags E s id cb sd X :
  pres (fun w => fl w = X) (updateVideoTrack E s id cb sd).
Proof. unfold updateVideoTrack. frame_go. Qed.

(** [turnOnLocalCamera], step by step: the cancel, then the request. *)
Lemma turnOnLocalCamera_run E streamId w :
  turnOnLocalCamera E streamId w =
  prepend (cancel_log w)
    ((ls ← gets (fun w => localStream (ss w));
      match ls with
      | None =>
          stream ← getUserMedia E (camera_request w) false;
          gotStream stream;;
          mret stream
      | Some _ =>
          stream ← getUserMedia E (camera_request w) false;
          id ← choosenId streamId;
          update_flags (set_cameraEnabled true);;
          detach (updateVideoTrack E stream id None true);;
          mret stream
      end) (cancelled w)).
Proof.
  unfold turnOnLocalCamera, camera_request, cancel_log, cancelled.
  rewrite (run_bind_ok _ _ _ _ _ _ (getMediaConstraints_run _)), prepend_nil.
  rewrite clear_blackFrame_run.
  destruct (blackFrameTimer (fl w)); [done|by rewrite prepend_nil].
Qed.

Lemma turnOnLocalCamera_order E streamId w :
  let o := turnOnLocalCamera E streamId w in
  (exists rest, log o = cancel_log w ++ EvGetUserMedia (camera_request w) :: rest) /\
  (forall e,
     userMedia E (clock w) (camera_request w) = Refused e ->
     o = MkOut (Thrown e) (bump_clock (cancelled w))
           (cancel_log w ++ [EvGetUserMedia (camera_request w)])) /\
  (forall l ks,
     localStream (ss w) = Some l ->
     userMedia E (clock w) (camera_request w) = Granted ks ->
     res o = Ok (Some (length ks + next_id w)) /\
     cameraEnabled (fl (st o)) = true).
Proof.
  cbv zeta. rewrite turnOnLocalCamera_run.
  assert (Hc : clock (cancelled w) = clock w)
    by (unfold cancelled; by destruct (blackFrameTimer (fl w))).
  assert (Hn : next_id (cancelled w) = next_id w)
    by (unfold cancelled; by destruct (blackFrameTimer (fl w))).
  assert (Hls : localStream (ss (cancelled w)) = localStream (ss w))
    by (unfold cancelled; by destruct (blackFrameTimer (fl w))).
  set (w1 := cancelled w) in *. clearbody w1.
  set (mc := camera_request w). clearbody mc.
  split; [|split].
  - rewrite log_prepend. run1.
    destruct (getUserMedia_log E mc false w1) as [r Hr].
    destruct (localStream (ss w1)); cbv iota beta;
      match goal with
      | |- context [log ((_ ≫= ?k) w1)] =>
          destruct (log_bind_prefix _ k _ _ _ Hr) as [r' Hr']
      end; rewrite Hr'; by eexists.
  - intros e He. rewrite <- Hc in He.
    destruct (getUserMedia_refused E mc w1 e He) as [Hf _].
    run1. destruct (localStream (ss w1)); cbv iota beta; rewrite run_bind, Hf; done.
  - intros l ks Hl Hg. rewrite <- Hc in Hg. rewrite <- Hls in Hl.
    destruct (navigator_getUserMedia_granted E mc w1 ks Hg) as [ts Hnav].
    run1. rewrite Hl. cbv iota beta. unfold getUserMedia.
    rewrite run_bind_assoc, (run_bind_ok _ _ _ _ _ _ Hnav), run_ret_bind.
    rewrite !res_prepend, !st_prepend.
    match goal with
    | |- context [res ((choosenId streamId ≫= ?k) ?w2)] =>
        assert (Hid : exists id, (choosenId streamId ≫= k) w2 = k id w2)
    end.
    { unfold choosenId. destruct streamId; run1; by eexists. }
    destruct Hid as [id Hid]. rewrite Hid. unfold update_flags.
    rewrite run_modify_bind. wsimpl.
    match goal with
    | |- context [res ((detach ?m ≫= _) ?w3)] =>
        destruct (returns_detach m (fueled_updateVideoTrack _ _ _ _ _) w3)
          as ([] & Hr & _);
        pose proof (pres_detach (fun w' => fl w' = fl w3) m
                      (updateVideoTrack_flags E _ _ _ _ _) w3 eq_refl) as Hfl
    end.
    rewrite run_bind, Hr, res_prepend, st_prepend, run_ret. cbn [res st].
    rewrite Hfl, Hn. done.
Qed.

(** C9 (amended).  With well-formed timers:
    - [turnOffLocalCamera] leaves a blank-frame timer of period 3000
      running and recorded in [blackFrameTimer]: it starts one when none
      is recorded and keeps the recorded one otherwise;
    - after any sequence of calls, failed ones included, at most one
      blank-frame timer is running, and its period is 3000;
    - a recorded blank-frame timer stays recorded and running through
      every sequence of calls, failed ones included, that does not call
      [turnOnLocalCamera];
    - [turnOnLocalCamera] cancels the recorded timer exactly once (and
      cancels nothing when none is recorded), and it does so first: its
      events are the cancel, then the request for the camera, then the
      rest.  After it no blank-frame timer is recorded or running.  When
      the browser refuses the camera the call fails with that error, the
      state is the one after the cancel with the clock advanced, nothing
      else happened, and [cameraEnabled] is what it was.  When there is a
      Local Stream and the browser grants the camera, the call returns the
      new stream and [cameraEnabled] is true. *)
Theorem blank_frame_timer_lifecycle :
  forall (E : Env) (w : World),
    timers_wf w ->
    (forall streamId,
       let w' := st (turnOffLocalCamera E streamId w) in
       match blackFrameTimer (fl w) with
       | Some t => blackFrameTimer (fl w') = Some t /\ timers w' = timers w
       | None =>
           blackFrameTimer (fl w') = Some (next_timer w) /\
           timers w' = <[next_timer w := MkTimer TaskBlackFrame 3000]> (timers w)
       end /\
       exists t, blackFrameTimer (fl w') = Some t /\
                 timers w' !! t = Some (MkTimer TaskBlackFrame 3000)) /\
    (forall calls,
       let w' := after_calls E calls w in
       forall t1 t2 tm1 tm2,
         timers w' !! t1 = Some tm1 -> t_task tm1 = TaskBlackFrame ->
         timers w' !! t2 = Some tm2 -> t_task tm2 = TaskBlackFrame ->
         t1 = t2 /\ t_period tm1 = 3000) /\
    (forall t calls,
       blackFrameTimer (fl w) = Some t ->
       Forall (fun c => is_turnOn c = false) calls ->
       let w' := after_calls E calls w in
       blackFrameTimer (fl w') = Some t /\
       timers w' !! t = Some (MkTimer TaskBlackFrame 3000)) /\
    (forall streamId,
       let o := turnOnLocalCamera E streamId w in
       filter (fun e => is_clearInterval e = true) (log o) = cancel_log w /\
       (exists rest,
          log o = cancel_log w ++ EvGetUserMedia (camera_request w) :: rest) /\
       blackFrameTimer (fl (st o)) = None /\
       (forall t tm, timers (st o) !! t = Some tm -> t_task tm ≠ TaskBlackFrame) /\
       (forall e,
          userMedia E (clock w) (camera_request w) = Refused e ->
          o = MkOut (Thrown e) (bump_clock (cancelled w))
                (cancel_log w ++ [EvGetUserMedia (camera_request w)]) /\
          cameraEnabled (fl (st o)) = cameraEnabled (fl w)) /\
       (forall l ks,
          localStream (ss w) = Some l ->
          userMedia E (clock w) (camera_request w) = Granted ks ->
          res o = Ok (Some (length ks + next_id w)) /\
          cameraEnabled (fl (st o)) = true)).
Proof.
  intros E w Hwf. split_and!.
  - intros streamId w'.
    pose proof (turnOffLocalCamera_timer E streamId w) as Ht. cbv zeta in Ht.
    fold w' in Ht. split; [exact Ht|].
    assert (Hwf' : timers_wf w') by apply (wf_call E (TurnOffLocalCamera streamId) w Hwf).
    destruct Hwf' as (_ & H2 & _).
    destruct (blackFrameTimer (fl w)) as [t|]; destruct Ht as [Hb _]; eauto.
  - intros calls w' t1 t2 tm1 tm2 H1 Hk1 H2 Hk2.
    assert (Hwf' : timers_wf w').
    { apply (pres_after_calls timers_wf); [|exact Hwf]. intros c. apply wf_call. }
    destruct (wf_blackFrame _ _ _ Hwf' H1 Hk1) as [Hb1 ->].
    destruct (wf_blackFrame _ _ _ Hwf' H2 Hk2) as [Hb2 _].
    split; [congruence|done].
  - intros t calls Hb Hcalls w'.
    assert (Hwf' : timers_wf w').
    { apply (pres_after_calls timers_wf); [|exact Hwf]. intros c. apply wf_call. }
    assert (Hb' : black_recorded t w').
    { apply (pres_after_calls_Forall (black_recorded t)); [|exact Hb].
      eapply Forall_impl; [exact Hcalls|]. intros c Hc. by apply black_recorded_call. }
    split; [exact Hb'|]. destruct Hwf' as (_ & H2 & _). by apply H2.
  - intros streamId o.
    destruct (turnOnLocalCamera_cancels E streamId w) as [Hlog Hnone].
    destruct (turnOnLocalCamera_order E streamId w) as (Hord & Href & Hok).
    split; [exact Hlog|]. split; [exact Hord|]. split; [exact Hnone|].
    split; [|split].
    + intros t tm Htm Htask.
      assert (Hwf' : timers_wf (st o)) by by apply wf_turnOnLocalCamera.
      destruct (wf_blackFrame _ _ _ Hwf' Htm Htask) as [Hb _].
      fold o in Hnone. congruence.
    + intros e He. specialize (Href e He). split; [exact Href|].
      unfold o. rewrite Href. cbn [st]. unfold cancelled.
      by destruct (blackFrameTimer (fl w)).
    + exact Hok.
Qed.

(** C9, as stated, fails.  With the camera off, blank-frame timer 0 is
    running.  [turnOnLocalCamera] cancels it before it asks for the camera;
    the browser refuses, the call fails, and the camera is still off
    ([cameraEnabled] is false) with no blank-frame timer running. *)
Lemma camera_off_without_blank_frame_timer :
  cameraEnabled (fl camera_off) = false /\
  blackFrameTimer (fl camera_off) = Some 0 /\
  timers camera_off !! 0 = Some (MkTimer TaskBlackFrame 3000) /\
  turnOnLocalCamera camera_lost stream1 camera_off =
    MkOut (Thrown (DOMException "NotReadableError"))
      (st (turnOnLocalCamera camera_lost stream1 camera_off))
      [EvClearInterval 0; EvGetUserMedia (MkMC (CBool true) CUndefined)] /\
  cameraEnabled (fl (st (turnOnLocalCamera camera_lost stream1 camera_off))) = false /\
  blackFrameTimer (fl (st (turnOnLocalCamera camera_lost stream1 camera_off))) = None /\
  timers (st (turnOnLocalCamera camera_lost stream1 camera_off)) = ∅.
Proof. vm_compute. done. Qed.

Lemma blank_frame_timer_lifecycle_witness :
  timers_wf camera_off /\
  blackFrameTimer (fl camera_off) = Some 0 /\
  userMedia camera_lost (clock camera_off) (camera_request camera_off) =
    Refused (DOMException "NotReadableError") /\
  turnOnLocalCamera camera_lost stream1 camera_off =
    MkOut (Thrown (DOMException "NotReadableError")) (bump_clock (cancelled camera_off))
      (cancel_log camera_off ++ [EvGetUserMedia (camera_request camera_off)]) /\
  cameraEnabled (fl (st (turnOnLocalCamera camera_lost stream1 camera_off))) =
    cameraEnabled (fl camera_off).
Proof.
  assert (Hwf0 : timers_wf (opened camera_lost video_and_audio)).
  { apply wf_no_timers; vm_compute; reflexivity. }
  assert (Hwf : timers_wf camera_off).
  { exact (wf_call camera_lost (TurnOffLocalCamera stream1) _ Hwf0). }
  assert (Hb : blackFrameTimer (fl camera_off) = Some 0) by (vm_compute; reflexivity).
  assert (He : userMedia camera_lost (clock camera_off) (camera_request camera_off) =
               Refused (DOMException "NotReadableError")) by (vm_compute; reflexivity).
  split; [exact Hwf|]. split; [exact Hb|]. split; [exact He|].
  pose proof (blank_frame_timer_lifecycle camera_lost camera_off Hwf) as (_ & _ & _ & H).
  destruct (H stream1) as (_ & _ & _ & _ & Hr & _).
  exact (Hr _ He).
Defined.
